(** * A shallow embedding of [script.js], the hybrid markdown / rich-text editor

    The script keeps two views of one document: a text control holding the
    markdown source ([editor.value]) and a content-editable element holding
    the rendered document ([visual.innerHTML]).  Two debounced functions copy
    one view into the other through the external converters [marked.parse]
    and [turndownService.turndown], and store the markdown in [localStorage].

    The embedding follows the script function by function.  The script's
    mutable globals (DOM properties, the [timeout] variable captured by each
    debounced closure, the storage slot) and the part of the browser the
    script talks to (the timer table, event dispatch, the report of uncaught
    exceptions) are fields of one [State] record; a JavaScript function is a
    computation in a state-and-exception monad over it.  What the script
    cannot see into (the converters, the rich-text [execCommand], whether
    [insertText] is supported) is a [Variable] of the section.

    The theme and direction toggles and the two downloads ([exportToDocx],
    [downloadFile]) touch nothing the syncs use and are embedded on their
    own, after the script.  Not modelled: the resizer, whose arithmetic is
    in floating point, the scroll listener, and the clipboard and the
    [alert] of [copyCode].  The text control is taken to store the string
    it is given and the storage area to accept every write; a string too
    long for the engine is not modelled. *)

From Stdlib Require Import ZArith NArith List Lia.
From Stdlib Require Import Numbers.DecimalString Numbers.DecimalNat.
From stdpp Require Import base list gmap strings.

Local Open Scope nat_scope.

(** ** JavaScript strings

    A JavaScript string is a sequence of UTF-16 code units; [length],
    [substring] and the selection offsets of a text control count code
    units.  Literals are written as in the script and decoded from the
    UTF-8 bytes of the Rocq literal. *)

Abbreviation jsstring := (list N).

Definition bytes_of (s : string) : list N :=
  map Ascii.N_of_ascii (String.list_ascii_of_string s).

Fixpoint utf16_of_utf8 (bs : list N) : jsstring :=
  match bs with
  | [] => []
  | b :: r =>
      if (b <? 128)%N then b :: utf16_of_utf8 r
      else if (b <? 224)%N then
        match r with
        | c :: r1 => ((b - 192) * 64 + (c - 128))%N :: utf16_of_utf8 r1
        | [] => [b]
        end
      else if (b <? 240)%N then
        match r with
        | c :: d :: r2 =>
            ((b - 224) * 4096 + (c - 128) * 64 + (d - 128))%N :: utf16_of_utf8 r2
        | _ => [b]
        end
      else
        match r with
        | c :: d :: e :: r3 =>
            let cp := ((b - 240) * 262144 + (c - 128) * 4096
                       + (d - 128) * 64 + (e - 128))%N in
            let v := (cp - 65536)%N in
            (55296 + v / 1024)%N :: (56320 + v mod 1024)%N :: utf16_of_utf8 r3
        | _ => [b]
        end
  end.

Definition js (s : string) : jsstring := utf16_of_utf8 (bytes_of s).

(** The escape [\n] of the script. *)
Definition LF : N := 10%N.
Definition nl : jsstring := [LF].

(** [a.join(sep)] on an array of strings. *)
Fixpoint join (sep : jsstring) (l : list jsstring) : jsstring :=
  match l with
  | [] => []
  | [x] => x
  | x :: r => x ++ sep ++ join sep r
  end.

(** [s.split(c)] for a one-character separator [c]: never the empty array. *)
Fixpoint split_on (c : N) (s : jsstring) : list jsstring :=
  match s with
  | [] => [[]]
  | x :: r =>
      if (x =? c)%N then [] :: split_on c r
      else match split_on c r with
           | w :: ws => (x :: w) :: ws
           | [] => [[x]]
           end
  end.

(** [s.repeat(n)]. *)
Fixpoint repeat_str (s : jsstring) (n : nat) : jsstring :=
  match n with
  | O => []
  | S k => s ++ repeat_str s k
  end.

(** [s.substring(a, b)] and [s.substring(a)] on offsets that are already
    natural numbers: both are clamped to the length and swapped when
    [a > b]. *)
Definition substring (s : jsstring) (a b : nat) : jsstring :=
  let a' := Nat.min a (length s) in
  let b' := Nat.min b (length s) in
  take (Nat.max a' b' - Nat.min a' b') (drop (Nat.min a' b') s).

Definition substring_from (s : jsstring) (a : nat) : jsstring :=
  substring s a (length s).

(** [String(n)] for a natural number [n], in decimal. *)
Definition Number_toString (n : nat) : jsstring :=
  bytes_of (NilZero.string_of_uint (Nat.to_uint n)).

(** [Array(n).fill(x)]. *)
Definition Array_fill {A} (n : nat) (x : A) : list A := replicate n x.

(** [a.map((_, i) => f(i))]: the callback reads the index only. *)
Definition mapi_index {A B} (f : nat -> B) (a : list A) : list B :=
  map f (seq 0 (length a)).

(** *** [parseInt(s)] with the radix left out

    Leading white space is skipped, then an optional sign, then a [0x]
    prefix selects radix 16, and the longest prefix of digits is read.
    [None] stands for [NaN].  The result is the exact integer: the rounding
    to a double that JavaScript applies above [2^53] is not modelled. *)

Definition is_StrWhiteSpaceChar (c : N) : bool :=
  ((9 <=? c) && (c <=? 13) || (c =? 32) || (c =? 160) || (c =? 5760)
   || (8192 <=? c) && (c <=? 8202) || (c =? 8232) || (c =? 8233)
   || (c =? 8239) || (c =? 8287) || (c =? 12288) || (c =? 65279))%N.

Fixpoint skip_white (s : jsstring) : jsstring :=
  match s with
  | c :: r => if is_StrWhiteSpaceChar c then skip_white r else s
  | [] => []
  end.

Definition digit_value (c : N) : option Z :=
  if ((48 <=? c) && (c <=? 57))%N then Some (Z.of_N c - 48)%Z
  else if ((97 <=? c) && (c <=? 122))%N then Some (Z.of_N c - 87)%Z
  else if ((65 <=? c) && (c <=? 90))%N then Some (Z.of_N c - 55)%Z
  else None.

(** Reads digits of radix [R] into the accumulator; [seen] records whether
    one digit was read. *)
Fixpoint read_digits (R : Z) (s : jsstring) (acc : Z) (seen : bool)
  : option Z :=
  match s with
  | c :: r =>
      match digit_value c with
      | Some d => if (d <? R)%Z then read_digits R r (acc * R + d)%Z true
                  else if seen then Some acc else None
      | None => if seen then Some acc else None
      end
  | [] => if seen then Some acc else None
  end.

Definition parseInt (s : jsstring) : option Z :=
  let s1 := skip_white s in
  let '(sign, s2) :=
    match s1 with
    | 45%N :: r => ((-1)%Z, r)
    | 43%N :: r => (1%Z, r)
    | _ => (1%Z, s1)
    end in
  let '(R, s3) :=
    match s2 with
    | 48%N :: 120%N :: r => (16%Z, r)
    | 48%N :: 88%N :: r => (16%Z, r)
    | _ => (10%Z, s2)
    end in
  match read_digits R s3 0%Z false with
  | Some n => Some (sign * n)%Z
  | None => None
  end.

(** [parseInt(s) || d]: [NaN] and [0] are falsy. *)
Definition parseInt_or (s : jsstring) (d : Z) : Z :=
  match parseInt s with
  | Some n => if (n =? 0)%Z then d else n
  | None => d
  end.

(** [x || d] on strings: only the empty string is falsy. *)
Definition str_or (x d : jsstring) : jsstring :=
  match x with [] => d | _ => x end.

(** ** The page state *)

(** The two functions given to [debounce]; the value also names the
    closure that [debounce] returned for it. *)
Inductive Sync := CodeToVisual | VisualToCode.

Global Instance Sync_eq_dec : EqDecision Sync.
Proof. solve_decision. Defined.

(** An active timer: its handle, the time it is due, and the function its
    callback [() => func.apply(this, args)] applies.  Both functions ignore
    [this] and [args]. *)
Record Timer := mkTimer {
  timer_id : nat;
  timer_due : nat;
  timer_fn : Sync
}.

Inductive Exn :=
| ConverterError (f : Sync)   (* thrown by [marked.parse] or [turndown] *)
| RangeError                  (* [Array(n)] with [n] above [2^32 - 1] *)
| TypeError.                  (* a property read on [null] *)

(** A call of an external converter, with its argument. *)
Inductive Call :=
| Parse (markdown : jsstring)
| Turndown (html : jsstring).

Inductive Element := TheEditor | TheVisual | OtherElement.

Global Instance Element_eq_dec : EqDecision Element.
Proof. solve_decision. Defined.

(** A field description given to [showCustomPrompt]; [None] is a property
    the object literal leaves out. *)
Record Field := mkField {
  field_id : jsstring;
  field_label : jsstring;
  field_type : option jsstring;
  field_defaultValue : option jsstring
}.

(** An [input] element created by [showCustomPrompt]. *)
Record Input := mkInput {
  input_id : jsstring;
  input_type : jsstring;
  input_value : jsstring
}.

(** The [async] function suspended at [await showCustomPrompt(...)]. *)
Inductive Await := AwaitImage | AwaitTable.

Record State := mkState {
  editor_value : jsstring;
  editor_selectionStart : nat;
  editor_selectionEnd : nat;
  visual_innerHTML : jsstring;
  gutter_innerHTML : jsstring;
  localStorage : gmap jsstring jsstring;
  activeElement : Element;
  timeout_CodeToVisual : option nat;
  timeout_VisualToCode : option nat;
  timers : list Timer;
  next_timer : nat;
  clock : nat;
  modal_open : bool;
  modal_title : jsstring;
  modal_inputs : list Input;
  modal_onclick : option (list Field * Await);
  reported : list Exn;
  calls : list Call
}.

(** The fields, in order:
    - [editor_value]: [editor.value];
    - [editor_selectionStart]: [editor.selectionStart];
    - [editor_selectionEnd]: [editor.selectionEnd];
    - [visual_innerHTML]: [visual.innerHTML];
    - [gutter_innerHTML]: [gutter.innerHTML];
    - [localStorage]: the storage area of the page;
    - [activeElement]: [document.activeElement];
    - [timeout_CodeToVisual]: [timeout] in the closure [syncCodeToVisual];
    - [timeout_VisualToCode]: [timeout] in the closure [syncVisualToCode];
    - [timers]: the browser's active timers, oldest first;
    - [next_timer]: the next timer handle;
    - [clock]: milliseconds since the page was opened;
    - [modal_open]: [customModal.style.display] is [flex];
    - [modal_title]: [modalTitle.textContent];
    - [modal_inputs]: the inputs inside [modalInputs];
    - [modal_onclick]: the click handlers of the two buttons: the [fields] they captured and the function awaiting the promise;
    - [reported]: exceptions no script caught, as the browser reports them;
    - [calls]: the calls made to the converters, oldest first. *)

(** Field updates. *)
Definition set_editor_value (x : jsstring) (s : State)
  : State :=
  mkState x (editor_selectionStart s) (editor_selectionEnd s)
    (visual_innerHTML s) (gutter_innerHTML s) (localStorage s)
    (activeElement s) (timeout_CodeToVisual s) (timeout_VisualToCode s)
    (timers s) (next_timer s) (clock s) (modal_open s) (modal_title s)
    (modal_inputs s) (modal_onclick s) (reported s) (calls s).

Definition set_editor_selectionStart (x : nat) (s : State)
  : State :=
  mkState (editor_value s) x (editor_selectionEnd s) (visual_innerHTML s)
    (gutter_innerHTML s) (localStorage s) (activeElement s)
    (timeout_CodeToVisual s) (timeout_VisualToCode s) (timers s)
    (next_timer s) (clock s) (modal_open s) (modal_title s) (modal_inputs s)
    (modal_onclick s) (reported s) (calls s).

Definition set_editor_selectionEnd (x : nat) (s : State)
  : State :=
  mkState (editor_value s) (editor_selectionStart s) x (visual_innerHTML s)
    (gutter_innerHTML s) (localStorage s) (activeElement s)
    (timeout_CodeToVisual s) (timeout_VisualToCode s) (timers s)
    (next_timer s) (clock s) (modal_open s) (modal_title s) (modal_inputs s)
    (modal_onclick s) (reported s) (calls s).

Definition set_visual_innerHTML (x : jsstring) (s : State)
  : State :=
  mkState (editor_value s) (editor_selectionStart s) (editor_selectionEnd s)
    x (gutter_innerHTML s) (localStorage s) (activeElement s)
    (timeout_CodeToVisual s) (timeout_VisualToCode s) (timers s)
    (next_timer s) (clock s) (modal_open s) (modal_title s) (modal_inputs s)
    (modal_onclick s) (reported s) (calls s).

Definition set_gutter_innerHTML (x : jsstring) (s : State)
  : State :=
  mkState (editor_value s) (editor_selectionStart s) (editor_selectionEnd s)
    (visual_innerHTML s) x (localStorage s) (activeElement s)
    (timeout_CodeToVisual s) (timeout_VisualToCode s) (timers s)
    (next_timer s) (clock s) (modal_open s) (modal_title s) (modal_inputs s)
    (modal_onclick s) (reported s) (calls s).

Definition set_localStorage (x : gmap jsstring jsstring) (s : State)
  : State :=
  mkState (editor_value s) (editor_selectionStart s) (editor_selectionEnd s)
    (visual_innerHTML s) (gutter_innerHTML s) x (activeElement s)
    (timeout_CodeToVisual s) (timeout_VisualToCode s) (timers s)
    (next_timer s) (clock s) (modal_open s) (modal_title s) (modal_inputs s)
    (modal_onclick s) (reported s) (calls s).

Definition set_activeElement (x : Element) (s : State)
  : State :=
  mkState (editor_value s) (editor_selectionStart s) (editor_selectionEnd s)
    (visual_innerHTML s) (gutter_innerHTML s) (localStorage s) x
    (timeout_CodeToVisual s) (timeout_VisualToCode s) (timers s)
    (next_timer s) (clock s) (modal_open s) (modal_title s) (modal_inputs s)
    (modal_onclick s) (reported s) (calls s).

Definition set_timeout_CodeToVisual (x : option nat) (s : State)
  : State :=
  mkState (editor_value s) (editor_selectionStart s) (editor_selectionEnd s)
    (visual_innerHTML s) (gutter_innerHTML s) (localStorage s)
    (activeElement s) x (timeout_VisualToCode s) (timers s) (next_timer s)
    (clock s) (modal_open s) (modal_title s) (modal_inputs s)
    (modal_onclick s) (reported s) (calls s).

Definition set_timeout_VisualToCode (x : option nat) (s : State)
  : State :=
  mkState (editor_value s) (editor_selectionStart s) (editor_selectionEnd s)
    (visual_innerHTML s) (gutter_innerHTML s) (localStorage s)
    (activeElement s) (timeout_CodeToVisual s) x (timers s) (next_timer s)
    (clock s) (modal_open s) (modal_title s) (modal_inputs s)
    (modal_onclick s) (reported s) (calls s).

Definition set_timers (x : list Timer) (s : State)
  : State :=
  mkState (editor_value s) (editor_selectionStart s) (editor_selectionEnd s)
    (visual_innerHTML s) (gutter_innerHTML s) (localStorage s)
    (activeElement s) (timeout_CodeToVisual s) (timeout_VisualToCode s) x
    (next_timer s) (clock s) (modal_open s) (modal_title s) (modal_inputs s)
    (modal_onclick s) (reported s) (calls s).

Definition set_next_timer (x : nat) (s : State)
  : State :=
  mkState (editor_value s) (editor_selectionStart s) (editor_selectionEnd s)
    (visual_innerHTML s) (gutter_innerHTML s) (localStorage s)
    (activeElement s) (timeout_CodeToVisual s) (timeout_VisualToCode s)
    (timers s) x (clock s) (modal_open s) (modal_title s) (modal_inputs s)
    (modal_onclick s) (reported s) (calls s).

Definition set_clock (x : nat) (s : State)
  : State :=
  mkState (editor_value s) (editor_selectionStart s) (editor_selectionEnd s)
    (visual_innerHTML s) (gutter_innerHTML s) (localStorage s)
    (activeElement s) (timeout_CodeToVisual s) (timeout_VisualToCode s)
    (timers s) (next_timer s) x (modal_open s) (modal_title s)
    (modal_inputs s) (modal_onclick s) (reported s) (calls s).

Definition set_modal_open (x : bool) (s : State)
  : State :=
  mkState (editor_value s) (editor_selectionStart s) (editor_selectionEnd s)
    (visual_innerHTML s) (gutter_innerHTML s) (localStorage s)
    (activeElement s) (timeout_CodeToVisual s) (timeout_VisualToCode s)
    (timers s) (next_timer s) (clock s) x (modal_title s) (modal_inputs s)
    (modal_onclick s) (reported s) (calls s).

Definition set_modal_title (x : jsstring) (s : State)
  : State :=
  mkState (editor_value s) (editor_selectionStart s) (editor_selectionEnd s)
    (visual_innerHTML s) (gutter_innerHTML s) (localStorage s)
    (activeElement s) (timeout_CodeToVisual s) (timeout_VisualToCode s)
    (timers s) (next_timer s) (clock s) (modal_open s) x (modal_inputs s)
    (modal_onclick s) (reported s) (calls s).

Definition set_modal_inputs (x : list Input) (s : State)
  : State :=
  mkState (editor_value s) (editor_selectionStart s) (editor_selectionEnd s)
    (visual_innerHTML s) (gutter_innerHTML s) (localStorage s)
    (activeElement s) (timeout_CodeToVisual s) (timeout_VisualToCode s)
    (timers s) (next_timer s) (clock s) (modal_open s) (modal_title s) x
    (modal_onclick s) (reported s) (calls s).

Definition set_modal_onclick (x : option (list Field * Await)) (s : State)
  : State :=
  mkState (editor_value s) (editor_selectionStart s) (editor_selectionEnd s)
    (visual_innerHTML s) (gutter_innerHTML s) (localStorage s)
    (activeElement s) (timeout_CodeToVisual s) (timeout_VisualToCode s)
    (timers s) (next_timer s) (clock s) (modal_open s) (modal_title s)
    (modal_inputs s) x (reported s) (calls s).

Definition set_reported (x : list Exn) (s : State)
  : State :=
  mkState (editor_value s) (editor_selectionStart s) (editor_selectionEnd s)
    (visual_innerHTML s) (gutter_innerHTML s) (localStorage s)
    (activeElement s) (timeout_CodeToVisual s) (timeout_VisualToCode s)
    (timers s) (next_timer s) (clock s) (modal_open s) (modal_title s)
    (modal_inputs s) (modal_onclick s) x (calls s).

Definition set_calls (x : list Call) (s : State)
  : State :=
  mkState (editor_value s) (editor_selectionStart s) (editor_selectionEnd s)
    (visual_innerHTML s) (gutter_innerHTML s) (localStorage s)
    (activeElement s) (timeout_CodeToVisual s) (timeout_VisualToCode s)
    (timers s) (next_timer s) (clock s) (modal_open s) (modal_title s)
    (modal_inputs s) (modal_onclick s) (reported s) x.

(** ** Computations

    A JavaScript function body is a function from the state to an outcome:
    it returns a value, or it throws, and in both cases leaves a state. *)

Inductive Outcome (A : Type) :=
| Ret (a : A) (s : State)
| Exc (e : Exn) (s : State).
Arguments Ret {A} a s.
Arguments Exc {A} e s.

Definition M (A : Type) : Type := State -> Outcome A.

Definition ret {A} (a : A) : M A := fun s => Ret a s.

Definition bind {A B} (c : M A) (k : A -> M B) : M B :=
  fun s => match c s with
           | Ret a s1 => k a s1
           | Exc e s1 => Exc e s1
           end.

Definition throw {A} (e : Exn) : M A := fun s => Exc e s.
Definition read {A} (f : State -> A) : M A := fun s => Ret (f s) s.
Definition write (f : State -> State) : M unit := fun s => Ret tt (f s).

Global Instance M_ret : MRet M := @ret.
Global Instance M_bind : MBind M := fun A B k c => bind c k.

(** The state an outcome leaves. *)
Definition final {A} (o : Outcome A) : State :=
  match o with Ret _ s => s | Exc _ s => s end.

Module Script.

(** ** The browser's timers *)

(** [timeout] of the closure that [debounce] returned for [f]. *)
Definition timeout (f : Sync) (s : State) : option nat :=
  match f with
  | CodeToVisual => timeout_CodeToVisual s
  | VisualToCode => timeout_VisualToCode s
  end.

Definition set_timeout (f : Sync) (x : option nat) : State -> State :=
  match f with
  | CodeToVisual => set_timeout_CodeToVisual x
  | VisualToCode => set_timeout_VisualToCode x
  end.

Definition cancel (id : nat) (ts : list Timer) : list Timer :=
  filter (fun t => timer_id t ≠ id) ts.

(** [clearTimeout(h)]: [None] is [undefined], the value of [timeout] before
    the first call; a handle that is not active is ignored. *)
Definition clearTimeout (h : option nat) : M unit :=
  match h with
  | Some id => write (fun s => set_timers (cancel id (timers s)) s)
  | None => ret tt
  end.

(** [setTimeout(() => func.apply(this, args), wait)]: a new handle, due
    [wait] milliseconds from now. *)
Definition setTimeout (f : Sync) (wait : nat) : M nat :=
  fun s =>
    let id := next_timer s in
    Ret id (set_next_timer (S id)
             (set_timers (timers s ++ [mkTimer id (clock s + wait) f]) s)).

(** ** Utils *)

(** The function that [debounce(func, wait)] returns. *)
Definition debounce (func : Sync) (wait : nat) : M unit :=
  h ← read (timeout func);
  clearTimeout h;;
  id ← setTimeout func wait;
  write (set_timeout func (Some id)).

Definition md_content : jsstring := js "md_content".

Definition saveToLocal : M unit :=
  v ← read editor_value;
  write (fun s => set_localStorage (<[md_content := v]> (localStorage s)) s).

(** [Array.from({ length: lines }, (_, i) => i + 1).join('<br>')]. *)
Definition gutter_of (value : jsstring) : jsstring :=
  let lines := length (split_on LF value) in
  join (js "<br>") (map (fun i => Number_toString (i + 1)) (seq 0 lines)).

Definition updateGutter : M unit :=
  v ← read editor_value;
  write (set_gutter_innerHTML (gutter_of v)).

(** The setter of [editor.value]: when the new value differs from the old
    one, the cursor moves to the end of the text and the selection
    collapses. *)
Definition with_editor_value (v : jsstring) (s : State) : State :=
  if decide (v = editor_value s) then s
  else set_editor_selectionEnd (length v)
         (set_editor_selectionStart (length v) (set_editor_value v s)).

Definition assign_editor_value (v : jsstring) : M unit :=
  write (with_editor_value v).

(** The setter of [selectionStart] and of [selectionEnd]: the number is
    converted to an unsigned 32-bit value and clamped to the length of the
    text, and the other end follows when the two would cross. *)
Definition to_unsigned_long (z : Z) : nat := Z.to_nat (z mod 4294967296).

Definition assign_selectionEnd (z : Z) : M unit :=
  write (fun s =>
    let e := Nat.min (to_unsigned_long z) (length (editor_value s)) in
    set_editor_selectionEnd e
      (set_editor_selectionStart (Nat.min (editor_selectionStart s) e) s)).

Definition assign_selectionStart (z : Z) : M unit :=
  write (fun s =>
    let b := Nat.min (to_unsigned_long z) (length (editor_value s)) in
    set_editor_selectionStart b
      (set_editor_selectionEnd (Nat.max (editor_selectionEnd s) b) s)).

(** The user types [value] into the first input whose id is [id]. *)
Fixpoint fill (id value : jsstring) (inputs : list Input) : list Input :=
  match inputs with
  | [] => []
  | i :: r =>
      if bool_decide (input_id i = id)
      then mkInput (input_id i) (input_type i) value :: r
      else i :: fill id value r
  end.

(** What [document.execCommand] did to the page, as far as the script can
    observe it: nothing, an edit of the rendered view, or an edit of the
    text control that leaves the cursor at [caret].  An edit dispatches the
    [input] event of the edited element. *)
Inductive Effect :=
| NoEffect
| VisualEdited (html : jsstring)
| EditorEdited (value : jsstring) (caret : nat).

Section WithBrowser.

(** [marked.parse] and [turndownService.turndown]; [None] is a thrown
    exception. *)
Variable marked_parse : jsstring -> option jsstring.
Variable turndown : jsstring -> option jsstring.

(** [document.queryCommandSupported('insertText')]. *)
Variable insertText_supported : bool.

(** The editing commands [execCmd] forwards to the browser ([bold], [undo],
    ...), applied to the current selection. *)
Variable document_execCommand :
  jsstring -> option jsstring -> State -> Effect.

Definition call_marked_parse (markdown : jsstring) : M jsstring :=
  write (fun s => set_calls (calls s ++ [Parse markdown]) s);;
  match marked_parse markdown with
  | Some html => ret html
  | None => throw (ConverterError CodeToVisual)
  end.

Definition call_turndown (html : jsstring) : M jsstring :=
  write (fun s => set_calls (calls s ++ [Turndown html]) s);;
  match turndown html with
  | Some markdown => ret markdown
  | None => throw (ConverterError VisualToCode)
  end.

(** ** Sync logic *)

(** The arrow function given to [debounce] for [syncCodeToVisual]. *)
Definition syncCodeToVisual_func : M unit :=
  v ← read editor_value;
  html ← call_marked_parse v;
  write (set_visual_innerHTML html);;
  updateGutter;;
  saveToLocal.

(** The arrow function given to [debounce] for [syncVisualToCode]. *)
Definition syncVisualToCode_func : M unit :=
  h ← read visual_innerHTML;
  markdown ← call_turndown h;
  assign_editor_value markdown;;
  updateGutter;;
  saveToLocal.

Definition func_of (f : Sync) : M unit :=
  match f with
  | CodeToVisual => syncCodeToVisual_func
  | VisualToCode => syncVisualToCode_func
  end.

Definition syncCodeToVisual : M unit := debounce CodeToVisual 50.
Definition syncVisualToCode : M unit := debounce VisualToCode 50.

(** ** Event listeners *)

Definition editor_oninput : M unit := syncCodeToVisual.
Definition visual_oninput : M unit := syncVisualToCode.

(** ** Commands *)

(** [document.execCommand(command, false, value)] as [execCmd] calls it:
    the browser edits one of the two views, or neither, and the listener of
    the edited view runs. *)
Definition execCommand (command : jsstring) (value : option jsstring)
  : M unit :=
  eff ← read (document_execCommand command value);
  match eff with
  | NoEffect => ret tt
  | VisualEdited html => write (set_visual_innerHTML html);; visual_oninput
  | EditorEdited v caret =>
      write (fun s => set_editor_selectionEnd caret
                        (set_editor_selectionStart caret
                           (set_editor_value v s)));;
      editor_oninput
  end.

(** [execCmd(command, value = null)]: [None] is [null]. *)
Definition execCmd (command : jsstring) (value : option jsstring) : M unit :=
  execCommand command value;;
  syncVisualToCode.

(** [document.execCommand('insertText', false, text)] with the text control
    focused: the selection is replaced by [text], the cursor is put after
    it, and the [input] event of the control is dispatched. *)
Definition execCommand_insertText (text : jsstring) : M unit :=
  write (fun s =>
    let a := editor_selectionStart s in
    let b := editor_selectionEnd s in
    let v := take a (editor_value s) ++ text ++ drop b (editor_value s) in
    set_editor_selectionEnd (a + length text)
      (set_editor_selectionStart (a + length text)
         (set_editor_value v s)));;
  editor_oninput.

(** [insertTextAtCursor(text, selectionOffset = 0)]; the first statement
    is [editor.focus()]. *)
Definition insertTextAtCursor (text : jsstring) (selectionOffset : nat)
  : M unit :=
  write (set_activeElement TheEditor);;
  (if insertText_supported then execCommand_insertText text
   else
     start ← read editor_selectionStart;
     end_ ← read editor_selectionEnd;
     v ← read editor_value;
     assign_editor_value
       (substring v 0 start ++ text ++ substring_from v end_);;
     assign_selectionEnd (Z.of_nat (start + length text));;
     assign_selectionStart (Z.of_nat (start + length text));;
     syncCodeToVisual);;
  if 0 <? selectionOffset then
    e ← read editor_selectionEnd;
    let newPos := (Z.of_nat e - Z.of_nat selectionOffset)%Z in
    assign_selectionEnd newPos;;
    assign_selectionStart newPos
  else ret tt.

Definition code_block : jsstring :=
  nl ++ js "```javascript" ++ nl ++ js "// כתוב את הקוד שלך כאן" ++ nl
  ++ js "```" ++ nl ++ nl.

Definition insertCode : M unit := insertTextAtCursor code_block 4.

(** ** Modal *)

Definition input_of (f : Field) : Input :=
  mkInput (field_id f)
          (match field_type f with Some t => str_or t (js "text")
                                 | None => js "text" end)
          (match field_defaultValue f with Some v => v | None => [] end).

(** [showCustomPrompt(title, fields)], called by the function [k] that
    awaits the promise: the dialog is filled and shown, and the two buttons
    get handlers that settle this promise.  Handlers left by an earlier
    call are replaced, so the promise of that call is never settled. *)
Definition showCustomPrompt (title : jsstring) (fields : list Field)
  (k : Await) : M unit :=
  write (set_modal_title title);;
  write (set_modal_inputs (map input_of fields));;
  write (set_modal_open true);;
  write (set_modal_onclick (Some (fields, k))).

(** [document.getElementById(id).value]: the first input with that id. *)
Definition getElementById_value (id : jsstring) : M jsstring :=
  inputs ← read modal_inputs;
  match List.find (fun i => bool_decide (input_id i = id)) inputs with
  | Some i => ret (input_value i)
  | None => throw TypeError
  end.

(** [fields.forEach(f => res[f.id] = document.getElementById(f.id).value)]. *)
Fixpoint collect (fields : list Field) (res : gmap jsstring jsstring)
  : M (gmap jsstring jsstring) :=
  match fields with
  | [] => ret res
  | f :: r =>
      v ← getElementById_value (field_id f);
      collect r (<[field_id f := v]> res)
  end.

Definition image_fields : list Field :=
  [ mkField (js "url") (js "כתובת URL לתמונה") None (Some (js "https://"));
    mkField (js "alt") (js "טקסט חלופי (Alt Text)") None None ].

Definition table_fields : list Field :=
  [ mkField (js "rows") (js "שורות") (Some (js "number")) (Some (js "3"));
    mkField (js "cols") (js "עמודות") (Some (js "number")) (Some (js "2")) ].

Definition insertImage : M unit :=
  showCustomPrompt (js "הוספת תמונה") image_fields AwaitImage.

Definition insertMarkdownTable : M unit :=
  showCustomPrompt (js "יצירת טבלה") table_fields AwaitTable.

(** A property read on the object the prompt resolved to; a property that
    is missing reads as [undefined]. *)
Definition prop_string (results : gmap jsstring jsstring) (k : jsstring)
  : jsstring :=
  match results !! k with Some v => v | None => js "undefined" end.

Definition image_text (results : gmap jsstring jsstring) : jsstring :=
  let alt := match results !! js "alt" with
             | Some a => str_or a (js "תמונה")
             | None => js "תמונה"
             end in
  js "![" ++ alt ++ js "](" ++ prop_string results (js "url") ++ js ")"
  ++ nl ++ nl.

(** [insertImage] after its [await]. *)
Definition insertImage_resume (results : option (gmap jsstring jsstring))
  : M unit :=
  match results with
  | Some r => insertTextAtCursor (image_text r) 0
  | None => ret tt
  end.

(** The three template strings of [insertMarkdownTable]. *)
Definition table_header (cols : nat) : jsstring :=
  js "| "
  ++ join (js " | ")
       (mapi_index (fun i => js "כותרת " ++ Number_toString (i + 1))
          (Array_fill cols 0%Z))
  ++ js " |" ++ nl.

Definition table_sep (cols : nat) : jsstring :=
  js "| " ++ join (js " | ") (Array_fill cols (js "---")) ++ js " |" ++ nl.

Definition table_data (rows cols : nat) : jsstring :=
  repeat_str
    (js "| " ++ join (js " | ") (Array_fill cols (js "נתונים")) ++ js " |"
     ++ nl)
    (rows - 1).

Definition table_text (rows cols : nat) : jsstring :=
  nl ++ table_header cols ++ table_sep cols ++ table_data rows cols ++ nl.

Definition table_rows (results : gmap jsstring jsstring) : Z :=
  Z.max 2 (parseInt_or (prop_string results (js "rows")) 3).

Definition table_cols (results : gmap jsstring jsstring) : Z :=
  Z.max 1 (parseInt_or (prop_string results (js "cols")) 2).

(** [insertMarkdownTable] after its [await].  [Array(cols)] throws above
    [2^32 - 1]. *)
Definition insertMarkdownTable_resume
  (results : option (gmap jsstring jsstring)) : M unit :=
  match results with
  | None => ret tt
  | Some r =>
      let rows := table_rows r in
      let cols := table_cols r in
      if (4294967295 <? cols)%Z then throw RangeError
      else insertTextAtCursor (table_text (Z.to_nat rows) (Z.to_nat cols)) 0
  end.

Definition resume (k : Await) (results : option (gmap jsstring jsstring))
  : M unit :=
  match k with
  | AwaitImage => insertImage_resume results
  | AwaitTable => insertMarkdownTable_resume results
  end.

(** [close(val)] inside [showCustomPrompt]; resolving the promise lets the
    awaiting function continue before any other event is handled. *)
Definition close (val : option (gmap jsstring jsstring)) (k : Await)
  : M unit :=
  write (set_modal_open false);;
  write (set_modal_onclick None);;
  resume k val.

Definition modalConfirm_onclick : M unit :=
  h ← read modal_onclick;
  match h with
  | Some (fields, k) => res ← collect fields ∅; close (Some res) k
  | None => ret tt
  end.

Definition modalCancel_onclick : M unit :=
  h ← read modal_onclick;
  match h with
  | Some (_, k) => close None k
  | None => ret tt
  end.

(** ** Export *)

(** [copyCode]: [editor.select()] selects the whole text; the clipboard and
    the [alert] are outside the page state. *)
Definition copyCode : M unit :=
  write (fun s => set_editor_selectionEnd (length (editor_value s))
                    (set_editor_selectionStart 0 s)).

(** ** Clearing and loading *)

(** [clearAll], with the answer given to [confirm]. *)
Definition clearAll (answer : bool) : M unit :=
  if answer then
    assign_editor_value [];;
    write (set_visual_innerHTML []);;
    updateGutter;;
    saveToLocal
  else ret tt.

Definition default_document : jsstring :=
  js "# עורך היברידי" ++ nl ++ nl ++ js "התחל לכתוב...".

(** [window.onload], without the theme icon. *)
Definition onload : M unit :=
  saved ← read (fun s => localStorage s !! md_content);
  assign_editor_value
    (match saved with
     | Some v => str_or v default_document
     | None => default_document
     end);;
  syncCodeToVisual.

(** [key.toLowerCase() === c] for a lower-case ASCII letter [c]. *)
Definition lower_is (c : N) (key : jsstring) : bool :=
  bool_decide (key = [c]) || bool_decide (key = [(c - 32)%N]).

(** The [keydown] listener of the document: [key] is [e.key]. *)
Definition onkeydown (ctrlKey : bool) (key : jsstring) : M unit :=
  active ← read activeElement;
  if ctrlKey && negb (bool_decide (active = TheEditor)) then
    (if lower_is 122 key then execCmd (js "undo") None else ret tt);;
    (if lower_is 121 key then execCmd (js "redo") None else ret tt)
  else ret tt.

(** ** The browser

    The browser runs one task at a time: an event handler or a timer
    callback.  An exception that leaves the task is reported and the page
    goes on. *)

Definition run_task (c : M unit) (s : State) : State :=
  match c s with
  | Ret _ s1 => s1
  | Exc e s1 => set_reported (reported s1 ++ [e]) s1
  end.

(** The active timer that is due first; of two that are due together, the
    older one. *)
Fixpoint earliest (ts : list Timer) : option Timer :=
  match ts with
  | [] => None
  | t :: r =>
      match earliest r with
      | Some u => if timer_due u <? timer_due t then Some u else Some t
      | None => Some t
      end
  end.

(** A timer fires: it leaves the table and its callback runs. *)
Definition fire (t : Timer) (s : State) : State :=
  run_task (func_of (timer_fn t))
    (set_clock (Nat.max (clock s) (timer_due t))
       (set_timers (cancel (timer_id t) (timers s)) s)).

(** Fires, in order, the timers due by [limit]. *)
Fixpoint run_timers (fuel limit : nat) (s : State) : State :=
  match fuel with
  | O => s
  | S n =>
      match earliest (timers s) with
      | Some t =>
          if timer_due t <=? limit then run_timers n limit (fire t s) else s
      | None => s
      end
  end.

(** [d] milliseconds pass with no other event.  No callback of this script
    starts a timer, so the number of active timers bounds the number of
    callbacks to run (lemma [elapse_quiet] below). *)
Definition elapse (d : nat) (s : State) : State :=
  let limit := clock s + d in
  set_clock limit (run_timers (length (timers s)) limit s).

(** What can happen to the page. *)
Inductive Event :=
| Load
| Elapse (d : nat)
| EditorInput (value : jsstring) (caret : nat)   (* the user edits the text *)
| VisualInput (html : jsstring)        (* the user edits the rendered view *)
| FocusOn (e : Element)
| KeyDown (ctrlKey : bool) (key : jsstring)
| Click_execCmd (command : jsstring) (value : option jsstring)
| Click_insertCode
| Click_insertImage
| Click_insertMarkdownTable
| ModalInput (id value : jsstring)     (* the user fills a field *)
| Click_modalConfirm
| Click_modalCancel
| Click_copyCode
| Click_clearAll (answer : bool).

Definition step (ev : Event) (s : State) : State :=
  match ev with
  | Load => run_task onload s
  | Elapse d => elapse d s
  | EditorInput v caret =>
      run_task editor_oninput
        (set_editor_selectionEnd caret
           (set_editor_selectionStart caret
              (set_editor_value v (set_activeElement TheEditor s))))
  | VisualInput html =>
      run_task visual_oninput
        (set_visual_innerHTML html (set_activeElement TheVisual s))
  | FocusOn e => set_activeElement e s
  | KeyDown ctrlKey key => run_task (onkeydown ctrlKey key) s
  | Click_execCmd command value => run_task (execCmd command value) s
  | Click_insertCode => run_task insertCode s
  | Click_insertImage => run_task insertImage s
  | Click_insertMarkdownTable => run_task insertMarkdownTable s
  | ModalInput id value => set_modal_inputs (fill id value (modal_inputs s)) s
  | Click_modalConfirm => run_task modalConfirm_onclick s
  | Click_modalCancel => run_task modalCancel_onclick s
  | Click_copyCode => run_task copyCode s
  | Click_clearAll answer => run_task (clearAll answer) s
  end.

(** A sequence of events, oldest first. *)
Definition steps (evs : list Event) (s : State) : State :=
  fold_left (fun s ev => step ev s) evs s.

End WithBrowser.

End Script.

Import Script.

(** A page just opened: nothing typed, nothing rendered, no timer. *)
Definition opened (storage : gmap jsstring jsstring) : State :=
  mkState [] 0 0 [] [] storage OtherElement None None [] 1 0
          false [] [] None [] [].

(** Converters for the examples: both total, neither the inverse of the
    other, and neither maps the empty document to the empty document. *)
Definition demo_parse (m : jsstring) : option jsstring :=
  Some (js "<p>" ++ m ++ js "</p>").

Definition demo_turndown (h : jsstring) : option jsstring :=
  Some (js "md:" ++ h).

(** A renderer that rejects the empty document. *)
Definition strict_parse (m : jsstring) : option jsstring :=
  match m with [] => None | _ => Some (js "<p>" ++ m ++ js "</p>") end.

(** [bold] wraps the rendered document, other commands do nothing. *)
Definition demo_execCommand (c : jsstring) (v : option jsstring) (s : State)
  : Effect :=
  if bool_decide (c = js "bold")
  then VisualEdited (js "<b>" ++ visual_innerHTML s ++ js "</b>")
  else NoEffect.

(** The page with the demonstration converters, where [insertText] is
    supported. *)
Definition demo_steps : list Event -> State -> State :=
  steps demo_parse demo_turndown true demo_execCommand.

(** A page on which the user typed a title and waited for the sync. *)
Definition titled_page : State :=
  demo_steps [Load; Elapse 50; EditorInput (js "# Title") 7; Elapse 50]
    (opened ∅).

(** A page on which the user has just typed a title. *)
Definition typing_page : State :=
  demo_steps [EditorInput (js "# Title") 7] (opened ∅).

(** A page on which the user has just edited the rendered view. *)
Definition painting_page : State :=
  demo_steps [VisualInput (js "<h1>Title</h1>")] (opened ∅).

(** A page showing the dialog of [insertMarkdownTable]. *)
Definition table_dialog_page : State :=
  demo_steps [Click_insertMarkdownTable] titled_page.


(** * The rest of the script

    The functions below read or write nothing the syncs use; they are
    embedded on their own. *)

(** ** Files

    [exportToDocx] and [downloadFile] hand a [Blob] to the browser as a
    download: its parts, its type, and the name of the link. *)

Record File := mkFile {
  file_name : jsstring;
  file_type : jsstring;
  file_parts : list jsstring
}.

(** The template literal of [exportToDocx] around [visual.innerHTML]. *)
Definition export_head : jsstring :=
  nl ++ js "        <html xmlns:o='urn:schemas-microsoft-com:office:office' xmlns:w='urn:schemas-microsoft-com:office:word'>"
  ++ nl ++ js "        <head><meta charset='utf-8'><title>Export</title>"
  ++ nl ++ js "        <style>"
  ++ nl ++ js "            body { font-family: 'Arial', sans-serif; direction: rtl; text-align: right; }"
  ++ nl ++ js "            table { border-collapse: collapse; width: 100%; margin-bottom: 20px; }"
  ++ nl ++ js "            td, th { border: 1px solid #000; padding: 8px; }"
  ++ nl ++ js "            img { max-width: 100%; height: auto; }"
  ++ nl ++ js "        </style></head><body>".

Definition export_tail : jsstring := js "</body></html>".

(** The byte order mark, [\ufeff] in the script. *)
Definition BOM : jsstring := [65279%N].

Definition exportToDocx (s : State) : File :=
  let html := export_head ++ visual_innerHTML s ++ export_tail in
  mkFile (js "document.doc") (js "application/msword") [BOM; html].

Definition downloadFile (s : State) : File :=
  mkFile (js "document.md") (js "text/markdown") [editor_value s].

(** ** Theme and direction

    The attribute [data-theme] of the body ([None] when it is absent), the
    classes of the theme icon and the classes of the body.  A class list is
    a set of tokens; their order is not modelled. *)

Record Look := mkLook {
  data_theme : option jsstring;
  themeIcon_classList : gset jsstring;
  body_classList : gset jsstring
}.

(** [classList.toggle(token)]. *)
Definition classList_toggle (token : jsstring) (l : gset jsstring)
  : gset jsstring :=
  if decide (token ∈ l) then l ∖ {[token]} else l ∪ {[token]}.

(** [classList.replace(old, new)]: nothing happens when [old] is absent. *)
Definition classList_replace (old new : jsstring) (l : gset jsstring)
  : gset jsstring :=
  if decide (old ∈ l) then l ∖ {[old]} ∪ {[new]} else l.

Definition toggleTheme (p : Look) : Look :=
  let isDark := bool_decide (data_theme p = Some (js "dark")) in
  mkLook (Some (if isDark then js "light" else js "dark"))
         (classList_toggle (js "fa-moon")
            (classList_toggle (js "fa-sun") (themeIcon_classList p)))
         (body_classList p).

Definition toggleDir (p : Look) : Look :=
  mkLook (data_theme p) (themeIcon_classList p)
         (classList_toggle (js "ltr-content")
            (classList_toggle (js "rtl-content") (body_classList p))).

(** The last statement of [window.onload]. *)
Definition onload_themeIcon (p : Look) : Look :=
  if bool_decide (data_theme p = Some (js "dark"))
  then mkLook (data_theme p)
              (classList_replace (js "fa-moon") (js "fa-sun")
                 (themeIcon_classList p))
              (body_classList p)
  else p.

(** * Properties *)

Section Properties.

Variable marked_parse : jsstring -> option jsstring.
Variable turndown : jsstring -> option jsstring.
Variable insertText_supported : bool.
Variable document_execCommand :
  jsstring -> option jsstring -> State -> Effect.

Local Abbreviation fire := (fire marked_parse turndown).
Local Abbreviation func_of := (func_of marked_parse turndown).
Local Abbreviation elapse := (elapse marked_parse turndown).
Local Abbreviation step :=
  (step marked_parse turndown insertText_supported document_execCommand).
Local Abbreviation steps :=
  (steps marked_parse turndown insertText_supported document_execCommand).

(** Unfolds the monad down to matches on the state. *)
Ltac unfold_js :=
  unfold syncCodeToVisual_func, syncVisualToCode_func, call_marked_parse,
    call_turndown, updateGutter, saveToLocal, assign_editor_value,
    syncCodeToVisual, syncVisualToCode, editor_oninput, visual_oninput,
    debounce, clearTimeout, setTimeout,
    mbind, mret, M_bind, M_ret, bind, ret, read, write, throw in *.

(** ** The setter of [editor.value] *)

Lemma with_editor_value_value v s : editor_value (with_editor_value v s) = v.
Proof. unfold with_editor_value. case_decide; [congruence | by destruct s]. Qed.

Lemma with_editor_value_frame v s :
  let s' := with_editor_value v s in
  visual_innerHTML s' = visual_innerHTML s /\
  gutter_innerHTML s' = gutter_innerHTML s /\
  localStorage s' = localStorage s /\
  timers s' = timers s /\
  next_timer s' = next_timer s /\
  clock s' = clock s /\
  timeout_CodeToVisual s' = timeout_CodeToVisual s /\
  timeout_VisualToCode s' = timeout_VisualToCode s /\
  reported s' = reported s /\
  calls s' = calls s.
Proof. unfold with_editor_value. case_decide; by destruct s. Qed.

(** ** What a sync does when it runs *)

Lemma syncCodeToVisual_func_ok s html :
  marked_parse (editor_value s) = Some html ->
  syncCodeToVisual_func marked_parse s =
    Ret tt
      (set_localStorage (<[md_content := editor_value s]> (localStorage s))
         (set_gutter_innerHTML (gutter_of (editor_value s))
            (set_visual_innerHTML html
               (set_calls (calls s ++ [Parse (editor_value s)]) s)))).
Proof.
  intros H. unfold_js. destruct s; simpl in *. by rewrite H.
Qed.

Lemma syncCodeToVisual_func_throws s :
  marked_parse (editor_value s) = None ->
  syncCodeToVisual_func marked_parse s =
    Exc (ConverterError CodeToVisual)
        (set_calls (calls s ++ [Parse (editor_value s)]) s).
Proof.
  intros H. unfold_js. destruct s; simpl in *. by rewrite H.
Qed.

Lemma syncVisualToCode_func_ok s markdown :
  turndown (visual_innerHTML s) = Some markdown ->
  syncVisualToCode_func turndown s =
    Ret tt
      (let s1 := with_editor_value markdown
                   (set_calls (calls s ++ [Turndown (visual_innerHTML s)]) s)
       in set_localStorage (<[md_content := markdown]> (localStorage s1))
            (set_gutter_innerHTML (gutter_of markdown) s1)).
Proof.
  intros H. unfold_js. destruct s; simpl in *. rewrite H.
  unfold with_editor_value; simpl. by case_decide; subst.
Qed.

Lemma syncVisualToCode_func_throws s :
  turndown (visual_innerHTML s) = None ->
  syncVisualToCode_func turndown s =
    Exc (ConverterError VisualToCode)
        (set_calls (calls s ++ [Turndown (visual_innerHTML s)]) s).
Proof.
  intros H. unfold_js. destruct s; simpl in *. by rewrite H.
Qed.

(** The view a sync reads, the view it writes, its converter, and the
    record of the converter call. *)
Definition source (f : Sync) (s : State) : jsstring :=
  match f with
  | CodeToVisual => editor_value s
  | VisualToCode => visual_innerHTML s
  end.

Definition target (f : Sync) (s : State) : jsstring :=
  match f with
  | CodeToVisual => visual_innerHTML s
  | VisualToCode => editor_value s
  end.

Definition convert (f : Sync) (x : jsstring) : option jsstring :=
  match f with
  | CodeToVisual => marked_parse x
  | VisualToCode => turndown x
  end.

Definition call (f : Sync) (x : jsstring) : Call :=
  match f with
  | CodeToVisual => Parse x
  | VisualToCode => Turndown x
  end.

(** A timer that fires touches the timer table only to leave it. *)
Lemma fire_frame t s :
  timers (fire t s) = cancel (timer_id t) (timers s) /\
  next_timer (fire t s) = next_timer s /\
  timeout_CodeToVisual (fire t s) = timeout_CodeToVisual s /\
  timeout_VisualToCode (fire t s) = timeout_VisualToCode s /\
  clock (fire t s) = Nat.max (clock s) (timer_due t) /\
  calls (fire t s) = calls s ++ [call (timer_fn t) (source (timer_fn t) s)].
Proof.
  unfold Script.fire, run_task. destruct t as [i due [|]]; simpl.
  - destruct (marked_parse (editor_value s)) as [html|] eqn:E.
    + rewrite (syncCodeToVisual_func_ok _ html) by (by destruct s).
      by destruct s.
    + rewrite syncCodeToVisual_func_throws by (by destruct s).
      by destruct s.
  - destruct (turndown (visual_innerHTML s)) as [md|] eqn:E.
    + rewrite (syncVisualToCode_func_ok _ md) by (by destruct s).
      simpl. unfold with_editor_value. case_decide; by destruct s.
    + rewrite syncVisualToCode_func_throws by (by destruct s).
      by destruct s.
Qed.

(** A sync whose converter returns: the target view is the converter's
    result, the source view is untouched, the gutter is recomputed and the
    markdown is stored. *)
Lemma fire_ok t s y :
  convert (timer_fn t) (source (timer_fn t) s) = Some y ->
  target (timer_fn t) (fire t s) = y /\
  source (timer_fn t) (fire t s) = source (timer_fn t) s /\
  gutter_innerHTML (fire t s) = gutter_of (editor_value (fire t s)) /\
  localStorage (fire t s)
    = <[md_content := editor_value (fire t s)]> (localStorage s) /\
  reported (fire t s) = reported s.
Proof.
  unfold Script.fire, run_task. destruct t as [i due [|]]; simpl; intros E.
  - rewrite (syncCodeToVisual_func_ok _ y) by (by destruct s).
    by destruct s.
  - rewrite (syncVisualToCode_func_ok _ y) by (by destruct s).
    simpl. unfold with_editor_value. case_decide; subst; by destruct s.
Qed.

(** A sync whose converter throws: only the report and the record of the
    call are added. *)
Lemma fire_throws t s :
  convert (timer_fn t) (source (timer_fn t) s) = None ->
  editor_value (fire t s) = editor_value s /\
  editor_selectionStart (fire t s) = editor_selectionStart s /\
  editor_selectionEnd (fire t s) = editor_selectionEnd s /\
  visual_innerHTML (fire t s) = visual_innerHTML s /\
  gutter_innerHTML (fire t s) = gutter_innerHTML s /\
  localStorage (fire t s) = localStorage s /\
  reported (fire t s) = reported s ++ [ConverterError (timer_fn t)].
Proof.
  unfold Script.fire, run_task. destruct t as [i due [|]]; simpl; intros E.
  - rewrite syncCodeToVisual_func_throws by (by destruct s). by destruct s.
  - rewrite syncVisualToCode_func_throws by (by destruct s). by destruct s.
Qed.

(** The two directions spelled out. *)
Lemma fire_CodeToVisual_ok t s html :
  timer_fn t = CodeToVisual ->
  marked_parse (editor_value s) = Some html ->
  visual_innerHTML (fire t s) = html /\
  editor_value (fire t s) = editor_value s /\
  gutter_innerHTML (fire t s) = gutter_of (editor_value s) /\
  localStorage (fire t s) = <[md_content := editor_value s]> (localStorage s) /\
  reported (fire t s) = reported s.
Proof.
  intros Hf Hp. destruct (fire_ok t s html) as (Ht & Hs & Hg & Hl & Hr).
  { rewrite Hf. exact Hp. }
  rewrite Hf in Ht, Hs. simpl in Ht, Hs. rewrite Hg, Hl, Hs. by repeat split.
Qed.

Lemma fire_VisualToCode_ok t s markdown :
  timer_fn t = VisualToCode ->
  turndown (visual_innerHTML s) = Some markdown ->
  editor_value (fire t s) = markdown /\
  visual_innerHTML (fire t s) = visual_innerHTML s /\
  gutter_innerHTML (fire t s) = gutter_of markdown /\
  localStorage (fire t s) = <[md_content := markdown]> (localStorage s) /\
  reported (fire t s) = reported s.
Proof.
  intros Hf Hp. destruct (fire_ok t s markdown) as (Ht & Hs & Hg & Hl & Hr).
  { rewrite Hf. exact Hp. }
  rewrite Hf in Ht, Hs. simpl in Ht, Hs. rewrite Hg, Hl, Ht. by repeat split.
Qed.

(** ** Claims about one sync *)

(** C1.  When the markdown-to-rendered sync fires while the text control
    holds [m], and [marked.parse] returns [html] for [m], then afterwards
    the rendered view is [html], the text is still [m], the gutter is the
    one computed from [m], and the stored value is [m]. *)
Theorem sync_from_markup_renders_and_persists t s m html :
  timer_fn t = CodeToVisual ->
  editor_value s = m ->
  marked_parse m = Some html ->
  visual_innerHTML (fire t s) = html /\
  editor_value (fire t s) = m /\
  gutter_innerHTML (fire t s) = gutter_of m /\
  localStorage (fire t s) !! md_content = Some m.
Proof.
  intros Hf Hm Hp.
  destruct (fire_ok t s html) as (Ht & Hs & Hg & Hl & _).
  { rewrite Hf. simpl. by rewrite Hm. }
  rewrite Hf in Ht, Hs. simpl in Ht, Hs.
  rewrite Hg, Hl, Hs, Hm. repeat split; try done.
  apply lookup_insert_eq.
Qed.

(** In either direction, a sync that does not throw stores the markdown
    text, never the rendered form. *)
Lemma sync_stores_markdown t s :
  reported (fire t s) = reported s ->
  localStorage (fire t s) !! md_content = Some (editor_value (fire t s)).
Proof.
  intros Hr.
  destruct (convert (timer_fn t) (source (timer_fn t) s)) as [y|] eqn:E.
  - destruct (fire_ok t s y E) as (_ & _ & _ & Hl & _).
    rewrite Hl. apply lookup_insert_eq.
  - destruct (fire_throws t s E) as (_ & _ & _ & _ & _ & _ & Hx).
    rewrite Hx in Hr. apply (f_equal length) in Hr.
    rewrite length_app in Hr. simpl in Hr. lia.
Qed.

(** C2.  When the rendered-to-markdown sync fires while the rendered view
    holds [html], and [turndown] returns [markdown] for it, then afterwards
    the text control holds [markdown], the rendered view is untouched, and
    the stored value is that same [markdown].  In either direction, what a
    sync that completes stores is the content of the text control, the
    markdown. *)
Theorem sync_from_tree_writes_and_persists t s html markdown :
  timer_fn t = VisualToCode ->
  visual_innerHTML s = html ->
  turndown html = Some markdown ->
  editor_value (fire t s) = markdown /\
  visual_innerHTML (fire t s) = html /\
  gutter_innerHTML (fire t s) = gutter_of markdown /\
  localStorage (fire t s) !! md_content = Some markdown /\
  (forall t' s',
     reported (fire t' s') = reported s' ->
     localStorage (fire t' s') !! md_content
     = Some (editor_value (fire t' s'))).
Proof.
  intros Hf Hh Hp.
  destruct (fire_ok t s markdown) as (Ht & Hs & Hg & Hl & _).
  { rewrite Hf. simpl. by rewrite Hh. }
  rewrite Hf in Ht, Hs. simpl in Ht, Hs.
  rewrite Hg, Hl, Hs, Ht. repeat split; try done.
  - apply lookup_insert_eq.
  - apply sync_stores_markdown.
Qed.

(** ** Timers *)

Lemma cancel_single i due f : cancel i [mkTimer i due f] = [].
Proof. unfold cancel. rewrite filter_cons. simpl. by case_decide. Qed.

Lemma cancel_single' t : cancel (timer_id t) [t] = [].
Proof. unfold cancel. rewrite filter_cons. by case_decide. Qed.

(** The state a call of a debounced function leaves when it had nothing
    pending, or only its own timer: one fresh timer, 50 ms from now. *)
Definition armed_state (f : Sync) (s : State) : State :=
  set_timeout f (Some (next_timer s))
    (set_next_timer (S (next_timer s))
       (set_timers [mkTimer (next_timer s) (clock s + 50) f] s)).

(** Nothing is pending, or only the timer that [f]'s closure remembers. *)
Definition startable (f : Sync) (s : State) : Prop :=
  timers s = [] \/
  exists i due, timers s = [mkTimer i due f] /\ timeout f s = Some i.

(** Reading a field after the clock or the timers were written. *)
Lemma set_clock_frame c s :
  editor_value (set_clock c s) = editor_value s /\
  visual_innerHTML (set_clock c s) = visual_innerHTML s /\
  gutter_innerHTML (set_clock c s) = gutter_innerHTML s /\
  localStorage (set_clock c s) = localStorage s /\
  timers (set_clock c s) = timers s /\
  next_timer (set_clock c s) = next_timer s /\
  timeout_CodeToVisual (set_clock c s) = timeout_CodeToVisual s /\
  timeout_VisualToCode (set_clock c s) = timeout_VisualToCode s /\
  reported (set_clock c s) = reported s /\
  calls (set_clock c s) = calls s /\
  clock (set_clock c s) = c.
Proof. by destruct s. Qed.

Lemma armed_state_frame f s :
  editor_value (armed_state f s) = editor_value s /\
  visual_innerHTML (armed_state f s) = visual_innerHTML s /\
  gutter_innerHTML (armed_state f s) = gutter_innerHTML s /\
  localStorage (armed_state f s) = localStorage s /\
  reported (armed_state f s) = reported s /\
  calls (armed_state f s) = calls s /\
  clock (armed_state f s) = clock s /\
  next_timer (armed_state f s) = S (next_timer s) /\
  timeout f (armed_state f s) = Some (next_timer s) /\
  timers (armed_state f s) = [mkTimer (next_timer s) (clock s + 50) f].
Proof. by destruct s, f. Qed.

Lemma debounce_ret f s :
  startable f s -> debounce f 50 s = Ret tt (armed_state f s).
Proof.
  unfold armed_state. unfold_js.
  intros [H | (i & due & H & Ht)].
  - destruct (timeout f s) as [h|]; simpl;
      destruct s, f; simpl in *; by subst.
  - rewrite Ht. simpl. rewrite H, cancel_single.
    destruct s, f; simpl in *; by subst.
Qed.

Lemma debounce_startable f s :
  startable f s -> run_task (debounce f 50) s = armed_state f s.
Proof. intros H. unfold run_task. by rewrite debounce_ret. Qed.

Lemma elapse_wait d t s :
  timers s = [t] -> clock s + d < timer_due t ->
  elapse d s = set_clock (clock s + d) s.
Proof.
  intros H Hlt. unfold Script.elapse. rewrite H. simpl. rewrite H. simpl.
  destruct (Nat.leb_spec (timer_due t) (clock s + d)); [lia | done].
Qed.

Lemma elapse_fire d t s :
  timers s = [t] -> timer_due t <= clock s + d ->
  elapse d s = set_clock (clock s + d) (fire t s).
Proof.
  intros H Hle. unfold Script.elapse. rewrite H. simpl. rewrite H. simpl.
  destruct (Nat.leb_spec (timer_due t) (clock s + d)); [done | lia].
Qed.

(** ** Quiescence

    Callbacks start no timer, so the fuel [elapse] gives [run_timers] is
    enough: when the time has passed, no timer that was due is left. *)

Lemma earliest_None ts : earliest ts = None -> ts = [].
Proof.
  destruct ts as [| t r]; [done |]. simpl.
  destruct (earliest r) as [u|]; [| done]. by destruct (_ <? _).
Qed.

Lemma earliest_elem ts t : earliest ts = Some t -> t ∈ ts.
Proof.
  revert t. induction ts as [| a r IH]; intros t; [done |]. simpl.
  destruct (earliest r) as [u|].
  - destruct (_ <? _); intros [= <-]; [right; by apply IH | left].
  - intros [= <-]. left.
Qed.

Lemma earliest_least ts t u :
  earliest ts = Some t -> u ∈ ts -> timer_due t <= timer_due u.
Proof.
  revert t. induction ts as [| a r IH]; intros t; [done |]. simpl.
  intros H Hu. apply elem_of_cons in Hu.
  destruct (earliest r) as [w|] eqn:E.
  - specialize (IH w eq_refl).
    destruct (Nat.ltb_spec (timer_due w) (timer_due a));
      injection H as <-; destruct Hu as [-> | Hu]; try lia.
    + by apply IH.
    + specialize (IH Hu). lia.
  - injection H as <-. destruct Hu as [-> | Hu]; [lia |].
    apply earliest_None in E. subst. by apply elem_of_nil in Hu.
Qed.

Lemma cancel_shorter t ts :
  t ∈ ts -> length (cancel (timer_id t) ts) < length ts.
Proof.
  unfold cancel. induction ts as [| a r IH]; intros H.
  - by apply elem_of_nil in H.
  - rewrite filter_cons. apply elem_of_cons in H.
    pose proof (length_filter (fun u => timer_id u ≠ timer_id t) r).
    case_decide; simpl.
    + destruct H as [-> | H]; [done |]. specialize (IH H). lia.
    + lia.
Qed.

Lemma run_timers_quiet fuel limit : forall s u,
  length (timers s) <= fuel ->
  u ∈ timers (run_timers marked_parse turndown fuel limit s) ->
  limit < timer_due u.
Proof.
  induction fuel as [| n IH]; intros s u Hn Hu; simpl in Hu.
  - destruct (timers s); [by apply elem_of_nil in Hu | simpl in Hn; lia].
  - destruct (earliest (timers s)) as [t|] eqn:E.
    + destruct (Nat.leb_spec (timer_due t) limit).
      * apply (IH (fire t s)); [| done].
        destruct (fire_frame t s) as (-> & _).
        pose proof (cancel_shorter t (timers s) (earliest_elem _ _ E)). lia.
      * pose proof (earliest_least _ _ _ E Hu). lia.
    + apply earliest_None in E. rewrite E in Hu. by apply elem_of_nil in Hu.
Qed.

Lemma elapse_quiet d s u :
  u ∈ timers (elapse d s) -> clock s + d < timer_due u.
Proof.
  unfold Script.elapse. intros Hu. eapply run_timers_quiet; [done |].
  by destruct (set_clock_frame (clock s + d)
                 (run_timers marked_parse turndown (length (timers s))
                    (clock s + d) s)) as (_ & _ & _ & _ & <- & _).
Qed.

(** ** Bursts of edits *)

(** The user edits the view that [f] reads: the new content, and for the
    text control the cursor position. *)
Definition edit (f : Sync) (v : jsstring) (caret : nat) : Event :=
  match f with
  | CodeToVisual => EditorInput v caret
  | VisualToCode => VisualInput v
  end.

(** Further edits of the same view, each after a pause. *)
Definition more_edits (f : Sync) (rest : list (nat * (jsstring * nat)))
  : list Event :=
  flat_map (fun '(gap, (v, caret)) => [Elapse gap; edit f v caret]) rest.

Definition gaps (rest : list (nat * (jsstring * nat))) : list nat :=
  map fst rest.

(** The content after the last edit. *)
Definition last_content (v : jsstring) (rest : list (nat * (jsstring * nat)))
  : jsstring :=
  List.last (map (fun x => fst (snd x)) rest) v.

Lemma last_content_cons v gap v' caret' rest :
  last_content v ((gap, (v', caret')) :: rest) = last_content v' rest.
Proof.
  unfold last_content. simpl map.
  generalize (map (fun x : nat * (jsstring * nat) => fst (snd x)) rest).
  intros l. revert v v'. induction l as [| a l IH]; intros v v'; [done |].
  change (List.last (v' :: a :: l) v) with (List.last (a :: l) v).
  rewrite IH. simpl. destruct l; [done |]. by rewrite <- (IH v').
Qed.

Lemma edit_startable f v caret s :
  startable f s ->
  let s1 := step (edit f v caret) s in
  timers s1 = [mkTimer (next_timer s) (clock s + 50) f] /\
  timeout f s1 = Some (next_timer s) /\
  clock s1 = clock s /\
  calls s1 = calls s /\
  source f s1 = v.
Proof.
  intros Hs. destruct f; simpl;
    unfold editor_oninput, visual_oninput, syncCodeToVisual, syncVisualToCode;
    (rewrite debounce_startable;
     [ by destruct s
     | destruct Hs as [H | (i & due & H & Ht)];
       [left | right; exists i, due]; by destruct s ]).
Qed.

Lemma steps_cons ev evs s : steps (ev :: evs) s = steps evs (step ev s).
Proof. reflexivity. Qed.

Lemma steps_nil s : steps [] s = s.
Proof. reflexivity. Qed.

Lemma steps_app evs1 evs2 s : steps (evs1 ++ evs2) s = steps evs2 (steps evs1 s).
Proof. apply fold_left_app. Qed.

Lemma step_Elapse d s : step (Elapse d) s = elapse d s.
Proof. reflexivity. Qed.

Lemma burst_fires_once f rest : forall v caret d s,
  startable f s ->
  Forall (fun gap => gap < 50) (gaps rest) ->
  50 <= d ->
  let s' := steps (edit f v caret :: more_edits f rest ++ [Elapse d]) s in
  calls s' = calls s ++ [call f (last_content v rest)] /\ timers s' = [].
Proof.
  induction rest as [| [gap [v' caret']] rest IH]; intros v caret d s Hs Hg Hd;
    destruct (edit_startable f v caret s Hs) as (Ht & Hto & Hc & Hcalls & Hv);
    cbv zeta; rewrite steps_cons.
  - change (more_edits f [] ++ [Elapse d]) with [Elapse d].
    rewrite steps_cons, steps_nil, step_Elapse.
    rewrite (elapse_fire d _ _ Ht) by (simpl; lia).
    destruct (fire_frame (mkTimer (next_timer s) (clock s + 50) f)
                (step (edit f v caret) s)) as (F1 & _ & _ & _ & _ & F2).
    simpl in F1, F2. rewrite Ht, cancel_single in F1.
    rewrite Hcalls, Hv in F2. split.
    + etransitivity; [| exact F2]. reflexivity.
    + etransitivity; [| exact F1]. reflexivity.
  - inversion Hg as [| ? ? Hgap Hg']; subst.
    change (more_edits f ((gap, (v', caret')) :: rest) ++ [Elapse d])
      with (Elapse gap :: edit f v' caret' :: more_edits f rest ++ [Elapse d]).
    rewrite steps_cons, step_Elapse.
    rewrite (elapse_wait gap _ _ Ht) by (simpl; lia).
    destruct (IH v' caret' d
                (set_clock (clock (step (edit f v caret) s) + gap)
                   (step (edit f v caret) s))) as (I1 & I2); try done.
    { right. exists (next_timer s), (clock s + 50). split.
      - rewrite <- Ht. by destruct (step (edit f v caret) s).
      - rewrite <- Hto. by destruct (step (edit f v caret) s), f. }
    split; [| exact I2].
    rewrite I1, last_content_cons.
    change (calls (set_clock (clock (step (edit f v caret) s) + gap)
                     (step (edit f v caret) s)))
      with (calls (step (edit f v caret) s)).
    by rewrite Hcalls.
Qed.

(** ** Loading *)

(** The text [window.onload] puts in the text control. *)
Definition initial_text (saved : option jsstring) : jsstring :=
  match saved with
  | Some v => str_or v default_document
  | None => default_document
  end.

Lemma onload_eq s :
  onload s =
    debounce CodeToVisual 50
      (with_editor_value (initial_text (localStorage s !! md_content)) s).
Proof. reflexivity. Qed.

Lemma step_Load s :
  step Load s =
    run_task (debounce CodeToVisual 50)
      (with_editor_value (initial_text (localStorage s !! md_content)) s).
Proof. reflexivity. Qed.

Lemma onload_startable s :
  startable CodeToVisual s ->
  step Load s =
    armed_state CodeToVisual
      (with_editor_value (initial_text (localStorage s !! md_content)) s).
Proof.
  intros Hs. simpl. unfold run_task. rewrite onload_eq.
  rewrite debounce_ret; [done |].
  destruct (with_editor_value_frame
              (initial_text (localStorage s !! md_content)) s)
    as (_ & _ & _ & T & _ & _ & TC & _).
  unfold startable in *. simpl in *. by rewrite T, TC.
Qed.

(** The storage area is not read by the setter of [editor.value] nor by a
    debounced function. *)
Lemma with_editor_value_storage v m s :
  with_editor_value v (set_localStorage m s)
  = set_localStorage m (with_editor_value v s).
Proof. unfold with_editor_value. simpl. by case_decide. Qed.

Lemma debounce_storage f wait m s :
  run_task (debounce f wait) (set_localStorage m s)
  = set_localStorage m (run_task (debounce f wait) s).
Proof.
  unfold run_task. unfold_js. destruct (timeout f s) as [h|] eqn:E.
  - replace (timeout f (set_localStorage m s)) with (Some h)
      by (rewrite <- E; by destruct f). by destruct f.
  - replace (timeout f (set_localStorage m s)) with (@None nat)
      by (rewrite <- E; by destruct f). by destruct f.
Qed.

(** A debounced function touches timers only. *)
Lemma debounce_frame f wait s :
  let s' := run_task (debounce f wait) s in
  editor_value s' = editor_value s /\
  editor_selectionStart s' = editor_selectionStart s /\
  editor_selectionEnd s' = editor_selectionEnd s /\
  visual_innerHTML s' = visual_innerHTML s /\
  gutter_innerHTML s' = gutter_innerHTML s /\
  localStorage s' = localStorage s /\
  reported s' = reported s /\
  calls s' = calls s /\
  clock s' = clock s.
Proof.
  unfold run_task. unfold_js. destruct (timeout f s); by destruct s, f.
Qed.

Lemma set_localStorage_same s : set_localStorage (localStorage s) s = s.
Proof. by destruct s. Qed.

Lemma set_localStorage_twice m m' s :
  set_localStorage m (set_localStorage m' s) = set_localStorage m s.
Proof. reflexivity. Qed.

(** C9.  A page loaded with nothing stored and no timer pending: the text
    control gets the built-in welcome document, and once the first sync has
    fired the rendered view is what [marked.parse] returns for it. *)
Theorem load_without_stored_value s d html :
  localStorage s !! md_content = None ->
  timers s = [] ->
  50 <= d ->
  marked_parse default_document = Some html ->
  editor_value (step Load s) = default_document /\
  editor_value (steps [Load; Elapse d] s) = default_document /\
  visual_innerHTML (steps [Load; Elapse d] s) = html.
Proof.
  intros Hnone Hidle Hd Hp.
  rewrite !steps_cons, steps_nil, step_Elapse.
  rewrite onload_startable by (by left). rewrite Hnone.
  change (initial_text None) with default_document.
  generalize (with_editor_value_value default_document s).
  generalize (with_editor_value default_document s). intros s0 Hv0.
  destruct (armed_state_frame CodeToVisual s0)
    as (Hv & _ & _ & _ & _ & _ & Hc & _ & _ & Htm).
  rewrite Hv0 in Hv. split; [exact Hv |].
  rewrite (elapse_fire d _ _ Htm) by (simpl; lia).
  destruct (fire_CodeToVisual_ok
              (mkTimer (next_timer s0) (clock s0 + 50) CodeToVisual)
              (armed_state CodeToVisual s0) html) as (Ht & Hs & _);
    [done | by rewrite Hv |].
  destruct (set_clock_frame (clock (armed_state CodeToVisual s0) + d)
              (fire (mkTimer (next_timer s0) (clock s0 + 50) CodeToVisual)
                 (armed_state CodeToVisual s0))) as (E1 & E2 & _).
  by rewrite E1, E2, Ht, Hs.
Qed.

(** C10.  A stored value that is the empty string is treated as no stored
    value: the text control gets the welcome document, and apart from the
    storage area the page is in the state it would be in had nothing been
    stored. *)
Theorem load_with_empty_stored_value s :
  localStorage s !! md_content = Some [] ->
  editor_value (step Load s) = default_document /\
  step Load s =
    set_localStorage (localStorage s)
      (step Load (set_localStorage (delete md_content (localStorage s)) s)).
Proof.
  intros H. rewrite !step_Load.
  change (localStorage (set_localStorage ?m s)) with m.
  rewrite H, lookup_delete_eq.
  change (initial_text (Some [])) with default_document.
  change (initial_text None) with default_document.
  rewrite with_editor_value_storage, debounce_storage, set_localStorage_twice.
  pose proof (debounce_frame CodeToVisual 50
                (with_editor_value default_document s))
    as (Hv & _ & _ & _ & _ & Hl & _).
  destruct (with_editor_value_frame default_document s) as (_ & _ & Hl' & _).
  split.
  - rewrite Hv. apply with_editor_value_value.
  - rewrite <- Hl', <- Hl. symmetry. apply set_localStorage_same.
Qed.

(** ** The prompt *)

(** Everything in the page except the dialog. *)
Definition document (s : State) :=
  (editor_value s, editor_selectionStart s, editor_selectionEnd s,
   visual_innerHTML s, gutter_innerHTML s, localStorage s, activeElement s,
   (timers s, next_timer s, timeout_CodeToVisual s, timeout_VisualToCode s,
    clock s),
   reported s, calls s).

Lemma showCustomPrompt_eq title fields k s :
  run_task (showCustomPrompt title fields k) s =
    set_modal_onclick (Some (fields, k))
      (set_modal_open true
         (set_modal_inputs (map input_of fields) (set_modal_title title s))).
Proof. reflexivity. Qed.

Definition click_of (k : Await) : Event :=
  match k with
  | AwaitImage => Click_insertImage
  | AwaitTable => Click_insertMarkdownTable
  end.

Definition fields_of (k : Await) : list Field :=
  match k with
  | AwaitImage => image_fields
  | AwaitTable => table_fields
  end.

Lemma click_opens_prompt k s :
  document (step (click_of k) s) = document s /\
  modal_onclick (step (click_of k) s) = Some (fields_of k, k).
Proof.
  destruct k; simpl; unfold insertImage, insertMarkdownTable;
    rewrite showCustomPrompt_eq; by destruct s.
Qed.

(** The user fills fields of the dialog, one [(id, value)] at a time. *)
Definition typing (typed : list (jsstring * jsstring)) : list Event :=
  map (fun '(id, v) => ModalInput id v) typed.

Lemma typing_keeps_document typed : forall s,
  document (steps (typing typed) s) = document s /\
  modal_onclick (steps (typing typed) s) = modal_onclick s.
Proof.
  induction typed as [| [id v] typed IH]; intros s; [done |].
  change (typing ((id, v) :: typed)) with (ModalInput id v :: typing typed).
  rewrite steps_cons.
  destruct (IH (step (ModalInput id v) s)) as (H1 & H2).
  rewrite H1, H2. by destruct s.
Qed.

Lemma cancel_closes_prompt fields k s :
  modal_onclick s = Some (fields, k) ->
  step Click_modalCancel s = set_modal_onclick None (set_modal_open false s).
Proof.
  intros H. simpl. unfold run_task, modalCancel_onclick, close.
  unfold mbind, M_bind, bind, read, write. rewrite H. by destruct k.
Qed.

(** C8.  [insertImage] or [insertMarkdownTable] is started, the user types
    whatever into the fields and presses Cancel: the text, the rendered
    view, the gutter, the stored value, the timers and the converter calls
    are what they were before the command, and the dialog is closed. *)
Theorem cancelled_prompt_changes_nothing k typed s :
  let s' := steps (click_of k :: typing typed ++ [Click_modalCancel]) s in
  editor_value s' = editor_value s /\
  visual_innerHTML s' = visual_innerHTML s /\
  gutter_innerHTML s' = gutter_innerHTML s /\
  localStorage s' = localStorage s /\
  timers s' = timers s /\
  timeout CodeToVisual s' = timeout CodeToVisual s /\
  timeout VisualToCode s' = timeout VisualToCode s /\
  calls s' = calls s /\
  modal_open s' = false.
Proof.
  cbv zeta. rewrite steps_cons, steps_app, steps_cons, steps_nil.
  destruct (click_opens_prompt k s) as (D1 & O1).
  destruct (typing_keeps_document typed (step (click_of k) s)) as (D2 & O2).
  rewrite O1 in O2. rewrite (cancel_closes_prompt _ _ _ O2).
  assert (D : document (steps (typing typed) (step (click_of k) s))
              = document s) by congruence.
  revert D. generalize (steps (typing typed) (step (click_of k) s)).
  intros s2 D. unfold document in D. simpl. by simplify_eq.
Qed.

(** ** Inserting text *)

Lemma substring_0 v a : substring v 0 a = take a v.
Proof.
  unfold substring. change (Nat.min 0 (length v)) with 0.
  rewrite Nat.max_0_l, Nat.min_0_l, Nat.sub_0_r, drop_0.
  destruct (Nat.min_spec a (length v)) as [[? ->] | [? ->]]; [done |].
  by rewrite !take_ge by lia.
Qed.

Lemma substring_from_drop v b : substring_from v b = drop b v.
Proof.
  unfold substring_from, substring. rewrite Nat.min_id.
  destruct (Nat.min_spec b (length v)) as [[? ->] | [? ->]].
  - rewrite Nat.max_r, Nat.min_l by lia.
    apply take_ge. rewrite length_drop. lia.
  - rewrite Nat.max_id, Nat.min_id, Nat.sub_diag.
    by rewrite !drop_ge by lia.
Qed.

(** The text control after [text] replaced the selection. *)
Definition spliced (text : jsstring) (s : State) : jsstring :=
  take (editor_selectionStart s) (editor_value s) ++ text
  ++ drop (editor_selectionEnd s) (editor_value s).

(** Whether a sync can be started depends on the timers only. *)
Lemma startable_timers f s s' :
  timers s' = timers s -> timeout f s' = timeout f s ->
  startable f s -> startable f s'.
Proof. unfold startable. intros -> ->. done. Qed.

(** The adjustment of the cursor at the end of [insertTextAtCursor] moves
    the selection only. *)
Definition adjust_cursor (selectionOffset : nat) : M unit :=
  if 0 <? selectionOffset then
    e ← read editor_selectionEnd;
    let newPos := (Z.of_nat e - Z.of_nat selectionOffset)%Z in
    assign_selectionEnd newPos;;
    assign_selectionStart newPos
  else ret tt.

Lemma adjust_cursor_frame offset s :
  exists s1,
    adjust_cursor offset s = Ret tt s1 /\
    editor_value s1 = editor_value s /\
    timers s1 = timers s /\
    timeout CodeToVisual s1 = timeout CodeToVisual s /\
    visual_innerHTML s1 = visual_innerHTML s /\
    gutter_innerHTML s1 = gutter_innerHTML s /\
    localStorage s1 = localStorage s /\
    reported s1 = reported s /\
    calls s1 = calls s /\
    clock s1 = clock s.
Proof.
  unfold adjust_cursor. destruct (0 <? offset).
  - eexists. split; [reflexivity |]. by destruct s.
  - eexists. split; [reflexivity |]. by destruct s.
Qed.

(** The part of [insertTextAtCursor] that inserts, in either branch. *)
Definition insert_part (text : jsstring) : M unit :=
  if insertText_supported then execCommand_insertText text
  else
    start ← read editor_selectionStart;
    end_ ← read editor_selectionEnd;
    v ← read editor_value;
    assign_editor_value
      (substring v 0 start ++ text ++ substring_from v end_);;
    assign_selectionEnd (Z.of_nat (start + length text));;
    assign_selectionStart (Z.of_nat (start + length text));;
    syncCodeToVisual.

Lemma insertTextAtCursor_parts text offset :
  insertTextAtCursor insertText_supported text offset =
    (write (set_activeElement TheEditor);;
     insert_part text;;
     adjust_cursor offset).
Proof. reflexivity. Qed.

Lemma insert_part_startable text s :
  startable CodeToVisual s ->
  exists s0,
    insert_part text s = Ret tt (armed_state CodeToVisual s0) /\
    editor_value s0 = spliced text s /\
    timers s0 = timers s /\
    next_timer s0 = next_timer s /\
    timeout CodeToVisual s0 = timeout CodeToVisual s /\
    visual_innerHTML s0 = visual_innerHTML s /\
    gutter_innerHTML s0 = gutter_innerHTML s /\
    localStorage s0 = localStorage s /\
    reported s0 = reported s /\
    calls s0 = calls s /\
    clock s0 = clock s.
Proof.
  intros Hs. unfold insert_part, spliced. destruct insertText_supported.
  - unfold execCommand_insertText, editor_oninput, syncCodeToVisual.
    unfold mbind, M_bind, bind, write.
    eexists. split.
    + apply debounce_ret. revert Hs. apply startable_timers; by destruct s.
    + by destruct s.
  - unfold syncCodeToVisual, assign_editor_value, assign_selectionEnd,
      assign_selectionStart.
    unfold mbind, M_bind, bind, write, read.
    rewrite substring_0, substring_from_drop.
    eexists. split.
    + apply debounce_ret. revert Hs.
      apply startable_timers; unfold with_editor_value;
        case_decide; by destruct s.
    + unfold with_editor_value. case_decide; [| by destruct s].
      repeat split; by destruct s.
Qed.

(** [insertTextAtCursor], in a state where a markdown sync can be started:
    the text is spliced in, one markdown-to-rendered sync is scheduled, and
    nothing else of the document changes. *)
Lemma insertTextAtCursor_startable text offset s :
  startable CodeToVisual s ->
  exists s1,
    insertTextAtCursor insertText_supported text offset s = Ret tt s1 /\
    editor_value s1 = spliced text s /\
    timers s1 = [mkTimer (next_timer s) (clock s + 50) CodeToVisual] /\
    timeout CodeToVisual s1 = Some (next_timer s) /\
    visual_innerHTML s1 = visual_innerHTML s /\
    gutter_innerHTML s1 = gutter_innerHTML s /\
    localStorage s1 = localStorage s /\
    reported s1 = reported s /\
    calls s1 = calls s /\
    clock s1 = clock s.
Proof.
  intros Hs. rewrite insertTextAtCursor_parts.
  unfold mbind, M_bind, bind, write.
  destruct (insert_part_startable text (set_activeElement TheEditor s))
    as (s0 & E & V & T & N & TO & Vi & G & L & R & C & K).
  { revert Hs. apply startable_timers; by destruct s. }
  rewrite E.
  destruct (adjust_cursor_frame offset (armed_state CodeToVisual s0))
    as (s1 & E1 & V1 & T1 & TO1 & Vi1 & G1 & L1 & R1 & C1 & K1).
  exists s1. split; [exact E1 |].
  destruct (armed_state_frame CodeToVisual s0)
    as (A1 & A2 & A3 & A4 & A5 & A6 & A7 & A8 & A9 & A10).
  rewrite V1, T1, TO1, Vi1, G1, L1, R1, C1, K1.
  rewrite A1, A2, A3, A4, A5, A6, A7, A9, A10.
  rewrite V, N, Vi, G, L, R, C, K. by destruct s.
Qed.

(** ** The table *)

Lemma collect_table_fields s t1 t2 rows cols :
  modal_inputs s = [mkInput (js "rows") t1 rows; mkInput (js "cols") t2 cols] ->
  collect table_fields ∅ s
  = Ret (<[js "cols" := cols]> (<[js "rows" := rows]> ∅)) s.
Proof.
  intros H. unfold table_fields, collect, getElementById_value.
  unfold mbind, M_bind, bind, read. rewrite H.
  unfold field_id.
  assert (F1 : List.find (fun i => bool_decide (input_id i = js "rows"))
            [mkInput (js "rows") t1 rows; mkInput (js "cols") t2 cols]
          = Some (mkInput (js "rows") t1 rows)) by (by vm_compute).
  assert (F2 : List.find (fun i => bool_decide (input_id i = js "cols"))
            [mkInput (js "rows") t1 rows; mkInput (js "cols") t2 cols]
          = Some (mkInput (js "cols") t2 cols)) by (by vm_compute).
  rewrite F1. unfold ret at 1. cbv beta iota. rewrite H, F2. reflexivity.
Qed.

Lemma table_rows_of rows cols :
  table_rows (<[js "cols" := cols]> (<[js "rows" := rows]> ∅))
  = Z.max 2 (parseInt_or rows 3).
Proof.
  unfold table_rows, prop_string.
  rewrite lookup_insert_ne by (by vm_compute). by rewrite lookup_insert_eq.
Qed.

Lemma table_cols_of rows cols :
  table_cols (<[js "cols" := cols]> (<[js "rows" := rows]> ∅))
  = Z.max 1 (parseInt_or cols 2).
Proof. unfold table_cols, prop_string. by rewrite lookup_insert_eq. Qed.

(** Confirm, with the dialog of [insertMarkdownTable] open: the function
    continues with the two values read from the fields. *)
Lemma confirm_table s t1 t2 rows cols :
  modal_onclick s = Some (table_fields, AwaitTable) ->
  modal_inputs s = [mkInput (js "rows") t1 rows; mkInput (js "cols") t2 cols] ->
  (Z.max 1 (parseInt_or cols 2) <= 4294967295)%Z ->
  step Click_modalConfirm s =
    run_task
      (insertTextAtCursor insertText_supported
         (table_text (Z.to_nat (Z.max 2 (parseInt_or rows 3)))
                     (Z.to_nat (Z.max 1 (parseInt_or cols 2)))) 0)
      (set_modal_onclick None (set_modal_open false s)).
Proof.
  intros Ho Hi Hc. simpl. unfold run_task at 1, modalConfirm_onclick.
  unfold mbind, M_bind, bind, read. rewrite Ho.
  rewrite (collect_table_fields _ _ _ _ _ Hi).
  unfold close, resume, insertMarkdownTable_resume.
  unfold mbind, M_bind, bind, write.
  rewrite table_rows_of, table_cols_of.
  destruct (Z.ltb_spec 4294967295 (Z.max 1 (parseInt_or cols 2))); [lia |].
  reflexivity.
Qed.

Lemma run_insertTextAtCursor text offset s :
  startable CodeToVisual s ->
  let s1 := run_task (insertTextAtCursor insertText_supported text offset) s in
  editor_value s1 = spliced text s /\
  timers s1 = [mkTimer (next_timer s) (clock s + 50) CodeToVisual] /\
  timeout CodeToVisual s1 = Some (next_timer s) /\
  visual_innerHTML s1 = visual_innerHTML s /\
  gutter_innerHTML s1 = gutter_innerHTML s /\
  localStorage s1 = localStorage s /\
  reported s1 = reported s /\
  calls s1 = calls s /\
  clock s1 = clock s.
Proof.
  intros Hs. unfold run_task.
  destruct (insertTextAtCursor_startable text offset s Hs) as (s1 & E & H).
  by rewrite E.
Qed.

(** One row of a markdown table: the cells between bars. *)
Definition table_row (cells : list jsstring) : jsstring :=
  js "| " ++ join (js " | ") cells ++ js " |" ++ nl.

Lemma table_text_3_2 :
  table_text 3 2
  = nl ++ table_row [js "כותרת 1"; js "כותרת 2"]
       ++ table_row [js "---"; js "---"]
       ++ table_row [js "נתונים"; js "נתונים"]
       ++ table_row [js "נתונים"; js "נתונים"]
       ++ nl.
Proof. by vm_compute. Qed.

Lemma table_size_3_2 :
  Z.to_nat (Z.max 2 (parseInt_or (js "3") 3)) = 3 /\
  Z.to_nat (Z.max 1 (parseInt_or (js "2") 2)) = 2.
Proof. by vm_compute. Qed.

(** ** Commands and the sync path *)

(** The view the last sync wrote is the conversion of the view it read. *)
Lemma synced_after_CodeToVisual t s c :
  timer_fn t = CodeToVisual ->
  is_Some (marked_parse (editor_value s)) ->
  let s' := set_clock c (fire t s) in
  editor_value s' = editor_value s /\
  marked_parse (editor_value s') = Some (visual_innerHTML s').
Proof.
  intros Hf [html Hp]. cbv zeta.
  destruct (fire_CodeToVisual_ok t s html Hf Hp) as (V & E & _).
  destruct (set_clock_frame c (fire t s)) as (-> & -> & _).
  by rewrite V, E.
Qed.

Lemma synced_after_VisualToCode t s c :
  timer_fn t = VisualToCode ->
  is_Some (turndown (visual_innerHTML s)) ->
  let s' := set_clock c (fire t s) in
  visual_innerHTML s' = visual_innerHTML s /\
  turndown (visual_innerHTML s') = Some (editor_value s').
Proof.
  intros Hf [md Hp]. cbv zeta.
  destruct (fire_VisualToCode_ok t s md Hf Hp) as (E & V & _).
  destruct (set_clock_frame c (fire t s)) as (-> & -> & _).
  by rewrite V, E.
Qed.

Lemma clearAll_eq s :
  run_task (clearAll true) s =
    let s1 := set_visual_innerHTML [] (with_editor_value [] s) in
    set_localStorage (<[md_content := []]> (localStorage s1))
      (set_gutter_innerHTML (gutter_of []) s1).
Proof.
  unfold run_task, clearAll. unfold_js. cbv zeta.
  generalize (with_editor_value_value [] s).
  generalize (with_editor_value [] s). intros s0 V.
  destruct s0. simpl in V. by subst.
Qed.

(** ** Pages the script can reach

    What the timer table and the two [timeout] variables look like on every
    page the script can reach: handles are handed out once, a pending timer
    is the one its closure remembers, the two closures never remember the
    same handle, and no timer is due more than 50 ms from now. *)

Record well_formed (s : State) : Prop := {
  wf_nodup : NoDup (map timer_id (timers s));
  wf_handle : forall t, t ∈ timers s -> timer_id t < next_timer s;
  wf_owner : forall t, t ∈ timers s ->
             timeout (timer_fn t) s = Some (timer_id t);
  wf_fresh : forall f h, timeout f s = Some h -> h < next_timer s;
  wf_apart : forall h, timeout CodeToVisual s = Some h ->
             timeout VisualToCode s <> Some h;
  wf_due : forall t, t ∈ timers s -> timer_due t <= clock s + 50
}.

(** The part of the state [well_formed] looks at. *)
Definition timer_state (s : State) :=
  (timers s, next_timer s, timeout_CodeToVisual s, timeout_VisualToCode s,
   clock s).

Lemma well_formed_ext s s' :
  timer_state s' = timer_state s -> well_formed s -> well_formed s'.
Proof.
  unfold timer_state. intros [= T N C V K] [W1 W2 W3 W4 W5 W6].
  assert (TO : forall f, timeout f s' = timeout f s) by (by intros []).
  split.
  - by rewrite T.
  - intros t. rewrite T, N. apply W2.
  - intros t. rewrite T, TO. apply W3.
  - intros f h. rewrite TO, N. apply W4.
  - intros h. rewrite !TO. apply W5.
  - intros t. rewrite T, K. apply W6.
Qed.

(** Time passing keeps a page well-formed. *)
Lemma well_formed_later c s :
  clock s <= c -> well_formed s -> well_formed (set_clock c s).
Proof.
  intros Hc [W1 W2 W3 W4 W5 W6].
  destruct (set_clock_frame c s)
    as (_ & _ & _ & _ & T & N & C & V & _ & _ & K).
  assert (TO : forall f, timeout f (set_clock c s) = timeout f s)
    by (intros []; [exact C | exact V]).
  split.
  - by rewrite T.
  - intros t. rewrite T, N. apply W2.
  - intros t. rewrite T, TO. apply W3.
  - intros f h. rewrite TO, N. apply W4.
  - intros h. rewrite !TO. apply W5.
  - intros t. rewrite T, K. intros H. specialize (W6 t H). lia.
Qed.

Lemma opened_well_formed storage : well_formed (opened storage).
Proof.
  split; simpl; try done.
  - constructor.
  - intros t H. by apply elem_of_nil in H.
  - intros t H. by apply elem_of_nil in H.
  - by intros [] h.
  - intros t H. by apply elem_of_nil in H.
Qed.

Lemma cancel_ids i ts :
  map timer_id (cancel i ts) = filter (fun j => j ≠ i) (map timer_id ts).
Proof.
  unfold cancel. induction ts as [| t r IH]; [done |].
  rewrite filter_cons. simpl map. rewrite filter_cons.
  case_decide; simpl; by rewrite IH.
Qed.

Lemma cancel_nodup i ts :
  NoDup (map timer_id ts) -> NoDup (map timer_id (cancel i ts)).
Proof. rewrite cancel_ids. apply NoDup_filter. Qed.

Lemma elem_of_cancel i u ts : u ∈ cancel i ts <-> timer_id u ≠ i /\ u ∈ ts.
Proof. unfold cancel. rewrite list_elem_of_filter. tauto. Qed.

(** A timer that fires leaves a well-formed page well-formed. *)
Lemma fire_well_formed t s : well_formed s -> well_formed (fire t s).
Proof.
  intros [W1 W2 W3 W4 W5 W6].
  destruct (fire_frame t s) as (T & N & C & V & K & _).
  assert (TO : forall f, timeout f (fire t s) = timeout f s)
    by (intros []; [exact C | exact V]).
  split.
  - rewrite T. by apply cancel_nodup.
  - intros u. rewrite T, N. intros H. apply W2.
    by apply elem_of_cancel in H as [_ H].
  - intros u. rewrite T, TO. intros H. apply W3.
    by apply elem_of_cancel in H as [_ H].
  - intros f h. rewrite TO, N. apply W4.
  - intros h. rewrite !TO. apply W5.
  - intros u. rewrite T, K. intros H.
    apply elem_of_cancel in H as [_ H]. specialize (W6 u H). lia.
Qed.

(** The page a debounced function leaves, whatever was pending. *)
Definition rearmed (f : Sync) (wait : nat) (s : State) : State :=
  set_timeout f (Some (next_timer s))
    (set_next_timer (S (next_timer s))
       (set_timers
          (match timeout f s with
           | Some h => cancel h (timers s)
           | None => timers s
           end ++ [mkTimer (next_timer s) (clock s + wait) f])
          s)).

Lemma debounce_eq f wait s : debounce f wait s = Ret tt (rearmed f wait s).
Proof.
  unfold rearmed. unfold_js. destruct (timeout f s) eqn:E; by destruct s, f.
Qed.

Lemma rearmed_frame f wait s :
  timers (rearmed f wait s)
    = match timeout f s with
      | Some h => cancel h (timers s)
      | None => timers s
      end ++ [mkTimer (next_timer s) (clock s + wait) f] /\
  next_timer (rearmed f wait s) = S (next_timer s) /\
  timeout f (rearmed f wait s) = Some (next_timer s) /\
  (forall g, g <> f -> timeout g (rearmed f wait s) = timeout g s) /\
  calls (rearmed f wait s) = calls s /\
  clock (rearmed f wait s) = clock s.
Proof.
  unfold rearmed. repeat split; try by destruct s, f.
  intros g Hg. by destruct s, f, g.
Qed.

Lemma rearmed_well_formed f wait s :
  wait <= 50 -> well_formed s -> well_formed (rearmed f wait s).
Proof.
  intros Hwait [W1 W2 W3 W4 W5 W6].
  destruct (rearmed_frame f wait s) as (T & N & TF & TG & _ & K).
  set (kept := match timeout f s with
               | Some h => cancel h (timers s)
               | None => timers s
               end) in *.
  assert (Hkept : forall t, t ∈ kept -> t ∈ timers s /\ timer_fn t <> f).
  { intros t Ht. subst kept. destruct (timeout f s) as [h|] eqn:E.
    - apply elem_of_cancel in Ht as [Hne Ht]. split; [done |].
      intros <-. rewrite (W3 t Ht) in E. congruence.
    - split; [done |]. intros <-. rewrite (W3 t Ht) in E. congruence. }
  assert (Hnd : NoDup (map timer_id kept)).
  { subst kept. destruct (timeout f s); [by apply cancel_nodup | done]. }
  split.
  - rewrite T, map_app. apply NoDup_app. split; [done |]. split.
    + intros i Hi Hn. apply list_elem_of_fmap in Hi as (t & -> & Ht).
      apply list_elem_of_singleton in Hn. simpl in Hn.
      destruct (Hkept t Ht) as [Ht' _]. specialize (W2 t Ht'). lia.
    + apply NoDup_singleton.
  - intros t. rewrite T, N, elem_of_app, list_elem_of_singleton.
    intros [Ht | ->]; [| simpl; lia].
    destruct (Hkept t Ht) as [Ht' _]. specialize (W2 t Ht'). lia.
  - intros t. rewrite T, elem_of_app, list_elem_of_singleton.
    intros [Ht | ->]; [| exact TF].
    destruct (Hkept t Ht) as [Ht' Hf]. rewrite (TG _ Hf). by apply W3.
  - intros g h. rewrite N. destruct (decide (g = f)) as [-> | Hg].
    + rewrite TF. intros [= <-]. lia.
    + rewrite (TG _ Hg). intros H. specialize (W4 g h H). lia.
  - intros h. destruct f.
    + rewrite TF, (TG VisualToCode) by done. intros [= <-] H.
      specialize (W4 VisualToCode _ H). lia.
    + rewrite TF, (TG CodeToVisual) by done. intros H [= <-].
      specialize (W4 CodeToVisual _ H). lia.
  - intros t. rewrite T, K, elem_of_app, list_elem_of_singleton.
    intros [Ht | ->]; [| simpl; lia].
    destruct (Hkept t Ht) as [Ht' _]. by apply W6.
Qed.

(** A computation that leaves well-formed pages well-formed, whether it
    returns or throws. *)
Definition keeps_well_formed {A} (c : M A) : Prop :=
  forall s, well_formed s -> well_formed (final (c s)).

Lemma keeps_ret {A} (a : A) : keeps_well_formed (ret a).
Proof. by intros s. Qed.

Lemma keeps_throw {A} e : keeps_well_formed (@throw A e).
Proof. by intros s. Qed.

Lemma keeps_read {A} (g : State -> A) : keeps_well_formed (read g).
Proof. by intros s. Qed.

Lemma keeps_write g :
  (forall s, timer_state (g s) = timer_state s) -> keeps_well_formed (write g).
Proof. intros H s. simpl. by apply well_formed_ext. Qed.

Lemma keeps_bind {A B} (c : M A) (k : A -> M B) :
  keeps_well_formed c -> (forall a, keeps_well_formed (k a)) ->
  keeps_well_formed (c ≫= k).
Proof.
  intros Hc Hk s W. specialize (Hc s W).
  unfold mbind, M_bind, bind. destruct (c s) as [a s1 | e s1]; [| done].
  by apply Hk.
Qed.

Lemma keeps_debounce f : keeps_well_formed (debounce f 50).
Proof. intros s W. rewrite debounce_eq. by apply rearmed_well_formed. Qed.

Lemma run_task_well_formed c s :
  keeps_well_formed c -> well_formed s -> well_formed (run_task c s).
Proof.
  intros Hc W. specialize (Hc s W). unfold run_task.
  destruct (c s) as [a s1 | e s1]; [done |].
  revert Hc. by apply well_formed_ext.
Qed.

Lemma with_editor_value_timer_state v s :
  timer_state (with_editor_value v s) = timer_state s.
Proof. unfold with_editor_value. case_decide; by destruct s. Qed.

(** Goes through a function body statement by statement. *)
Ltac keeps :=
  repeat match goal with
    | |- keeps_well_formed (debounce _ 50) => apply keeps_debounce
    | |- keeps_well_formed (_ ≫= _) => apply keeps_bind; [| intros ?]
    | |- keeps_well_formed (ret _) => apply keeps_ret
    | |- keeps_well_formed (throw _) => apply keeps_throw
    | |- keeps_well_formed (read _) => apply keeps_read
    | |- keeps_well_formed (write (with_editor_value _)) =>
        apply keeps_write, with_editor_value_timer_state
    | |- keeps_well_formed (write _) => apply keeps_write; by intros []
    | |- keeps_well_formed (match ?x with _ => _ end) => destruct x
    end.

Lemma keeps_insertTextAtCursor text offset :
  keeps_well_formed (insertTextAtCursor insertText_supported text offset).
Proof.
  unfold insertTextAtCursor, execCommand_insertText, editor_oninput,
    syncCodeToVisual, assign_editor_value, assign_selectionEnd,
    assign_selectionStart.
  keeps.
Qed.

Lemma keeps_execCmd command value :
  keeps_well_formed (execCmd document_execCommand command value).
Proof.
  unfold execCmd, execCommand, visual_oninput, editor_oninput,
    syncCodeToVisual, syncVisualToCode.
  keeps.
Qed.

Lemma keeps_showCustomPrompt title fields k :
  keeps_well_formed (showCustomPrompt title fields k).
Proof. unfold showCustomPrompt. keeps. Qed.

Lemma keeps_collect fields : forall res, keeps_well_formed (collect fields res).
Proof.
  induction fields as [| f r IH]; intros res; simpl; [apply keeps_ret |].
  unfold getElementById_value. keeps. apply IH.
Qed.

Lemma keeps_resume k results :
  keeps_well_formed (resume insertText_supported k results).
Proof.
  unfold resume, insertImage_resume, insertMarkdownTable_resume.
  destruct k, results as [r|]; try apply keeps_ret.
  - apply keeps_insertTextAtCursor.
  - destruct (_ <? _)%Z; [apply keeps_throw | apply keeps_insertTextAtCursor].
Qed.

Lemma keeps_modalConfirm :
  keeps_well_formed (modalConfirm_onclick insertText_supported).
Proof.
  unfold modalConfirm_onclick, close.
  apply keeps_bind; [apply keeps_read |]. intros [[fields k] |];
    [| apply keeps_ret].
  apply keeps_bind; [apply keeps_collect |]. intros res.
  keeps. apply keeps_resume.
Qed.

Lemma keeps_modalCancel :
  keeps_well_formed (modalCancel_onclick insertText_supported).
Proof.
  unfold modalCancel_onclick, close.
  apply keeps_bind; [apply keeps_read |]. intros [[fields k] |];
    [| apply keeps_ret].
  keeps. apply keeps_resume.
Qed.

Lemma keeps_clearAll answer : keeps_well_formed (clearAll answer).
Proof.
  unfold clearAll, assign_editor_value, updateGutter, saveToLocal. keeps.
Qed.

Lemma keeps_onload : keeps_well_formed onload.
Proof. unfold onload, assign_editor_value, syncCodeToVisual. keeps. Qed.

Lemma keeps_onkeydown ctrlKey key :
  keeps_well_formed (onkeydown document_execCommand ctrlKey key).
Proof. unfold onkeydown. keeps; apply keeps_execCmd. Qed.

Lemma run_timers_well_formed fuel limit : forall s,
  well_formed s -> well_formed (run_timers marked_parse turndown fuel limit s).
Proof.
  induction fuel as [| n IH]; intros s W; simpl; [done |].
  destruct (earliest (timers s)) as [t|]; [| done].
  destruct (_ <=? _); [| done]. apply IH. by apply fire_well_formed.
Qed.

Lemma run_timers_clock fuel limit : forall s,
  clock s <= limit ->
  clock (run_timers marked_parse turndown fuel limit s) <= limit.
Proof.
  induction fuel as [| n IH]; intros s Hc; simpl; [done |].
  destruct (earliest (timers s)) as [t|]; [| done].
  destruct (Nat.leb_spec (timer_due t) limit); [| done].
  apply IH. destruct (fire_frame t s) as (_ & _ & _ & _ & -> & _). lia.
Qed.

Lemma elapse_well_formed d s : well_formed s -> well_formed (elapse d s).
Proof.
  intros W. unfold Script.elapse. apply well_formed_later.
  - apply run_timers_clock. lia.
  - by apply run_timers_well_formed.
Qed.

(** Every event leaves a well-formed page well-formed: the pages reached
    from a freshly opened one are all well-formed. *)
Lemma step_well_formed ev s : well_formed s -> well_formed (step ev s).
Proof.
  intros W. destruct ev; simpl.
  - by apply run_task_well_formed; [apply keeps_onload |].
  - by apply elapse_well_formed.
  - apply run_task_well_formed; [apply keeps_debounce |].
    revert W. apply well_formed_ext. by destruct s.
  - apply run_task_well_formed; [apply keeps_debounce |].
    revert W. apply well_formed_ext. by destruct s.
  - revert W. apply well_formed_ext. by destruct s.
  - by apply run_task_well_formed; [apply keeps_onkeydown |].
  - by apply run_task_well_formed; [apply keeps_execCmd |].
  - by apply run_task_well_formed; [apply keeps_insertTextAtCursor |].
  - by apply run_task_well_formed; [apply keeps_showCustomPrompt |].
  - by apply run_task_well_formed; [apply keeps_showCustomPrompt |].
  - revert W. apply well_formed_ext. by destruct s.
  - by apply run_task_well_formed; [apply keeps_modalConfirm |].
  - by apply run_task_well_formed; [apply keeps_modalCancel |].
  - apply run_task_well_formed; [| done]. unfold copyCode. keeps.
  - by apply run_task_well_formed; [apply keeps_clearAll |].
Qed.

Lemma steps_well_formed evs : forall s,
  well_formed s -> well_formed (steps evs s).
Proof.
  induction evs as [| ev evs IH]; intros s W; [done |].
  rewrite steps_cons. apply IH. by apply step_well_formed.
Qed.

(** Whatever happens to a freshly opened page, it stays well-formed. *)
Lemma reachable_well_formed storage evs :
  well_formed (steps evs (opened storage)).
Proof. apply steps_well_formed, opened_well_formed. Qed.

(** ** Conversions on any reachable page *)

Definition direction (c : Call) : Sync :=
  match c with
  | Parse _ => CodeToVisual
  | Turndown _ => VisualToCode
  end.

(** How often the converter of direction [f] has been called. *)
Definition conversions (f : Sync) (s : State) : nat :=
  length (filter (fun c => direction c = f) (calls s)).

(** The timers of direction [f] that are pending. *)
Definition pending (f : Sync) (s : State) : list Timer :=
  filter (fun t => timer_fn t = f) (timers s).

Lemma direction_call f x : direction (call f x) = f.
Proof. by destruct f. Qed.

Lemma conversions_fire f t s :
  conversions f (fire t s)
  = conversions f s + (if decide (timer_fn t = f) then 1 else 0).
Proof.
  unfold conversions. destruct (fire_frame t s) as (_ & _ & _ & _ & _ & ->).
  rewrite filter_app, length_app, filter_cons, filter_nil.
  rewrite direction_call. by case_decide.
Qed.

Lemma nodup_timer_id ts t u :
  NoDup (map timer_id ts) -> t ∈ ts -> u ∈ ts ->
  timer_id t = timer_id u -> t = u.
Proof.
  induction ts as [| a r IH]; intros Hnd Ht Hu E.
  - by apply elem_of_nil in Ht.
  - simpl in Hnd. apply NoDup_cons in Hnd as [Ha Hr].
    apply elem_of_cons in Ht. apply elem_of_cons in Hu.
    destruct Ht as [-> | Ht], Hu as [-> | Hu]; [done | | | by apply IH].
    + exfalso. apply Ha. rewrite E. by apply list_elem_of_fmap_2.
    + exfalso. apply Ha. rewrite <- E. by apply list_elem_of_fmap_2.
Qed.

Lemma cancel_absent i ts : i ∉ map timer_id ts -> cancel i ts = ts.
Proof.
  unfold cancel. induction ts as [| a r IH]; [done |]. simpl.
  intros H. apply not_elem_of_cons in H as [Ha Hr].
  rewrite filter_cons, decide_True by congruence. f_equal. by apply IH.
Qed.

Lemma filter_agree {A} (P Q : A -> Prop)
    `{!forall x, Decision (P x), !forall x, Decision (Q x)} (l : list A) :
  (forall x, x ∈ l -> P x <-> Q x) -> filter P l = filter Q l.
Proof.
  induction l as [| a l IH]; intros Hag; [done |].
  rewrite !filter_cons.
  rewrite IH by (intros x Hx; apply Hag; by right).
  assert (Ha : P a <-> Q a) by (apply Hag; left).
  destruct (decide (P a)) as [Hp | Hp], (decide (Q a)) as [Hq | Hq];
    try done; tauto.
Qed.

(** Cancelling the handle of a pending timer removes that timer and no
    other. *)
Lemma filter_cancel (R : Timer -> Prop) `{!forall t, Decision (R t)} ts t :
  NoDup (map timer_id ts) -> t ∈ ts ->
  length (filter R ts)
  = length (filter R (cancel (timer_id t) ts))
    + (if decide (R t) then 1 else 0).
Proof.
  induction ts as [| a r IH]; intros Hnd Ht.
  - by apply elem_of_nil in Ht.
  - pose proof Hnd as Hnd'. simpl in Hnd'.
    apply NoDup_cons in Hnd' as [Ha Hr].
    destruct (decide (timer_id a = timer_id t)) as [E | E].
    + assert (a = t) as ->
        by (apply (nodup_timer_id (a :: r)); [done | left | done | done]).
      replace (cancel (timer_id t) (t :: r)) with r.
      2:{ unfold cancel. rewrite filter_cons.
          rewrite decide_False by (intros X; by apply X).
          symmetry. by apply cancel_absent. }
      rewrite filter_cons.
      case_decide; simpl; by rewrite ?Nat.add_0_r, ?Nat.add_1_r.
    + apply elem_of_cons in Ht as [-> | Ht]; [done |].
      replace (cancel (timer_id t) (a :: r))
        with (a :: cancel (timer_id t) r)
        by (unfold cancel; by rewrite filter_cons, decide_True).
      rewrite !filter_cons. specialize (IH Hr Ht).
      destruct (decide (R a)); simpl; by rewrite IH.
Qed.

Lemma filter_after_cancel limit ts t :
  NoDup (map timer_id ts) -> t ∈ ts -> timer_due t <= limit ->
  filter (fun u => limit < timer_due u) (cancel (timer_id t) ts)
  = filter (fun u => limit < timer_due u) ts.
Proof.
  intros Hnd Ht Hdue. unfold cancel. rewrite list_filter_filter.
  apply filter_agree. intros u Hu. split; [tauto |].
  intros H. split; [done |]. intros E.
  assert (u = t) as -> by (by apply (nodup_timer_id ts)). lia.
Qed.

Lemma filter_none {A} (P : A -> Prop) `{!forall x, Decision (P x)} (l : list A) :
  (forall x, x ∈ l -> ~ P x) -> filter P l = [].
Proof.
  induction l as [| a l IH]; intros Hno; [done |].
  rewrite filter_cons, decide_False by (apply Hno; left).
  apply IH. intros x Hx. apply Hno. by right.
Qed.

Lemma filter_all {A} (P : A -> Prop) `{!forall x, Decision (P x)} (l : list A) :
  (forall x, x ∈ l -> P x) -> filter P l = l.
Proof.
  induction l as [| a l IH]; intros Hall; [done |].
  rewrite filter_cons, decide_True by (apply Hall; left).
  f_equal. apply IH. intros x Hx. apply Hall. by right.
Qed.

(** The timers of direction [f] that are due by [limit]. *)
Definition due_by (f : Sync) (limit : nat) (s : State) : list Timer :=
  filter (fun t => timer_fn t = f /\ timer_due t <= limit) (timers s).

(** Running the timers due by [limit] on a well-formed page: each of them
    fires once and the others stay. *)
Lemma run_timers_count f fuel limit : forall s,
  well_formed s ->
  length (timers s) <= fuel ->
  conversions f (run_timers marked_parse turndown fuel limit s)
    = conversions f s + length (due_by f limit s) /\
  timers (run_timers marked_parse turndown fuel limit s)
    = filter (fun u => limit < timer_due u) (timers s).
Proof.
  unfold due_by.
  induction fuel as [| n IH]; intros s W Hn; simpl.
  - destruct (timers s); [by rewrite Nat.add_0_r | simpl in Hn; lia].
  - destruct (earliest (timers s)) as [t|] eqn:E.
    2:{ apply earliest_None in E. rewrite E. by rewrite Nat.add_0_r. }
    pose proof (earliest_elem _ _ E) as Ht.
    destruct (Nat.leb_spec (timer_due t) limit) as [Hdue | Hdue].
    + destruct (IH (fire t s)) as (IH1 & IH2).
      { by apply fire_well_formed. }
      { destruct (fire_frame t s) as (-> & _).
        pose proof (cancel_shorter t (timers s) Ht). lia. }
      destruct (fire_frame t s) as (T & _). rewrite T in IH1, IH2.
      rewrite IH1, IH2, conversions_fire. split.
      * rewrite (filter_cancel
                   (fun u => timer_fn u = f /\ timer_due u <= limit)
                   (timers s) t (wf_nodup s W) Ht).
        destruct (decide (timer_fn t = f)) as [Hf | Hf].
        -- rewrite decide_True by done. lia.
        -- rewrite decide_False by tauto. lia.
      * by apply filter_after_cancel; [apply W | |].
    + split.
      * rewrite filter_none; [by rewrite Nat.add_0_r |].
        intros u Hu [_ Hle]. pose proof (earliest_least _ _ _ E Hu). lia.
      * symmetry. apply filter_all.
        intros u Hu. pose proof (earliest_least _ _ _ E Hu). lia.
Qed.

Lemma elapse_count f d s :
  well_formed s ->
  conversions f (elapse d s)
    = conversions f s + length (due_by f (clock s + d) s) /\
  timers (elapse d s)
    = filter (fun u => clock s + d < timer_due u) (timers s) /\
  clock (elapse d s) = clock s + d /\
  well_formed (elapse d s).
Proof.
  intros W.
  destruct (run_timers_count f (length (timers s)) (clock s + d) s W)
    as (C & T); [done |].
  split; [| split; [| split; [| by apply elapse_well_formed]]];
    unfold Script.elapse; revert C T;
    generalize (run_timers marked_parse turndown (length (timers s))
                  (clock s + d) s);
    intros s1 C T.
  - by rewrite <- C.
  - by rewrite <- T.
  - done.
Qed.

(** The timers a debounced function of direction [f] keeps are not its
    own. *)
Lemma kept_other f s t :
  well_formed s ->
  t ∈ match timeout f s with
      | Some h => cancel h (timers s)
      | None => timers s
      end ->
  t ∈ timers s /\ timer_fn t <> f.
Proof.
  intros W Ht. destruct (timeout f s) as [h|] eqn:E.
  - apply elem_of_cancel in Ht as [Hne Ht]. split; [done |].
    intros <-. rewrite (wf_owner s W t Ht) in E. congruence.
  - split; [done |]. intros <-. rewrite (wf_owner s W t Ht) in E. congruence.
Qed.

(** After a debounced function ran, exactly one timer of its direction is
    pending, due [wait] ms from now. *)
Lemma rearmed_pending f wait s :
  well_formed s ->
  pending f (rearmed f wait s) = [mkTimer (next_timer s) (clock s + wait) f].
Proof.
  intros W. unfold pending.
  destruct (rearmed_frame f wait s) as (-> & _).
  rewrite filter_app, filter_cons, filter_nil, decide_True by done.
  rewrite filter_none; [done |].
  intros t Ht. by apply (kept_other f s t W) in Ht as [_ ?].
Qed.

Lemma due_by_pending f limit s :
  due_by f limit s = filter (fun t => timer_due t <= limit) (pending f s).
Proof.
  unfold due_by, pending. rewrite list_filter_filter.
  apply list_filter_iff. tauto.
Qed.

Lemma pending_ext f s s' : timers s' = timers s -> pending f s' = pending f s.
Proof. unfold pending. by intros ->. Qed.

Lemma conversions_ext f s s' :
  calls s' = calls s -> conversions f s' = conversions f s.
Proof. unfold conversions. by intros ->. Qed.

(** An edit of the view that [f] reads, on any well-formed page. *)
Lemma edit_any f v caret s :
  well_formed s ->
  let s1 := step (edit f v caret) s in
  well_formed s1 /\
  pending f s1 = [mkTimer (next_timer s) (clock s + 50) f] /\
  conversions f s1 = conversions f s /\
  clock s1 = clock s.
Proof.
  intros W. cbv zeta.
  assert (E : exists s0,
    step (edit f v caret) s = rearmed f 50 s0 /\
    timer_state s0 = timer_state s /\ calls s0 = calls s /\
    clock s0 = clock s).
  { destruct f; simpl;
      unfold editor_oninput, visual_oninput, syncCodeToVisual,
        syncVisualToCode, run_task; rewrite debounce_eq;
      eexists; (split; [reflexivity |]); by destruct s. }
  destruct E as (s0 & -> & T & C & K).
  assert (W0 : well_formed s0) by (by apply (well_formed_ext s)).
  injection T as T N _ _ _.
  destruct (rearmed_frame f 50 s0) as (_ & _ & _ & _ & C' & K').
  split; [by apply rearmed_well_formed |].
  split; [by rewrite rearmed_pending, N, K |].
  split; [apply conversions_ext; by rewrite C' | by rewrite K'].
Qed.

(** The same burst as in [burst_fires_once], on any well-formed page: the
    converter of the edited direction is called exactly once. *)
Lemma burst_count f rest : forall v caret d s,
  well_formed s ->
  Forall (fun gap => gap < 50) (gaps rest) ->
  50 <= d ->
  conversions f
    (steps (edit f v caret :: more_edits f rest ++ [Elapse d]) s)
  = conversions f s + 1.
Proof.
  induction rest as [| [gap [v' caret']] rest IH]; intros v caret d s W Hg Hd;
    destruct (edit_any f v caret s W) as (W1 & P & C & K);
    rewrite steps_cons.
  - change (more_edits f [] ++ [Elapse d]) with [Elapse d].
    rewrite steps_cons, steps_nil, step_Elapse.
    destruct (elapse_count f d _ W1) as (-> & _).
    rewrite due_by_pending, P, filter_cons, filter_nil, C.
    rewrite decide_True by (simpl; lia). done.
  - inversion Hg as [| ? ? Hgap Hg']; subst.
    change (more_edits f ((gap, (v', caret')) :: rest) ++ [Elapse d])
      with (Elapse gap :: edit f v' caret' :: more_edits f rest ++ [Elapse d]).
    rewrite steps_cons, step_Elapse.
    destruct (elapse_count f gap _ W1) as (C2 & _ & _ & W2).
    rewrite (IH v' caret' d _ W2 Hg' Hd), C2.
    rewrite due_by_pending, P, filter_cons, filter_nil, C.
    rewrite decide_False by (simpl; lia). simpl. lia.
Qed.

(** C3.  A burst of [N = 1 + length rest] edits of one view, each less than
    50 ms after the one before, then at least 50 ms of quiet.
    - On every page the script can reach, whatever else is pending, the
      converter of that direction is called exactly once.
    - When nothing else is pending, that call is the only conversion; its
      argument is the content of the view after the last edit, which is
      what the view holds when the timer fires; and no timer is left. *)
Theorem debounced_burst_converts_once f v caret rest d s :
  Forall (fun gap => gap < 50) (gaps rest) ->
  50 <= d ->
  let s' := steps (edit f v caret :: more_edits f rest ++ [Elapse d]) s in
  (well_formed s -> conversions f s' = conversions f s + 1) /\
  (startable f s ->
   calls s' = calls s ++ [call f (last_content v rest)] /\ timers s' = []).
Proof.
  intros Hg Hd. split.
  - intros W. by apply burst_count.
  - intros Hs. by apply burst_fires_once.
Qed.

Lemma rearmed_editor_value f wait s :
  editor_value (rearmed f wait s) = editor_value s.
Proof. by destruct s, f. Qed.

(** [insertTextAtCursor] on any well-formed page. *)
Lemma insert_part_any text s :
  exists s0,
    insert_part text s = Ret tt (rearmed CodeToVisual 50 s0) /\
    editor_value s0 = spliced text s /\
    timer_state s0 = timer_state s /\
    calls s0 = calls s /\
    clock s0 = clock s.
Proof.
  unfold insert_part, spliced. destruct insertText_supported.
  - unfold execCommand_insertText, editor_oninput, syncCodeToVisual.
    unfold mbind, M_bind, bind, write. rewrite debounce_eq.
    eexists. split; [reflexivity |]. by destruct s.
  - unfold syncCodeToVisual, assign_editor_value, assign_selectionEnd,
      assign_selectionStart.
    unfold mbind, M_bind, bind, write, read.
    rewrite substring_0, substring_from_drop, debounce_eq.
    eexists. split; [reflexivity |].
    unfold with_editor_value. case_decide; by destruct s.
Qed.

Lemma run_insertTextAtCursor_any text offset s :
  well_formed s ->
  let s1 := run_task (insertTextAtCursor insertText_supported text offset) s in
  editor_value s1 = spliced text s /\
  well_formed s1 /\
  pending CodeToVisual s1
    = [mkTimer (next_timer s) (clock s + 50) CodeToVisual] /\
  calls s1 = calls s /\
  clock s1 = clock s.
Proof.
  intros W. cbv zeta.
  split; [| split; [by apply run_task_well_formed;
                      [apply keeps_insertTextAtCursor |] |]].
  all: unfold run_task; rewrite insertTextAtCursor_parts;
    unfold mbind, M_bind, bind, write;
    destruct (insert_part_any text (set_activeElement TheEditor s))
      as (s0 & -> & V & T & C & K);
    destruct (adjust_cursor_frame offset (rearmed CodeToVisual 50 s0))
      as (s1 & -> & V1 & T1 & _ & _ & _ & _ & _ & C1 & K1);
    destruct (rearmed_frame CodeToVisual 50 s0)
      as (_ & _ & _ & _ & C0 & K0).
  - rewrite V1, rearmed_editor_value, V. reflexivity.
  - assert (W0 : well_formed s0).
    { apply (well_formed_ext s); [| done]. rewrite T. by destruct s. }
    assert (N : next_timer s0 = next_timer s)
      by (injection T as _ N _ _ _; rewrite N; by destruct s).
    rewrite (pending_ext _ _ _ T1), rearmed_pending by done.
    rewrite N, K, C1, C0, C, K1, K0, K. by destruct s.
Qed.

(** ** The sync requested last fires last *)

Lemma run_timers_idle fuel limit s :
  timers s = [] -> run_timers marked_parse turndown fuel limit s = s.
Proof. intros H. destruct fuel; simpl; [done |]. by rewrite H. Qed.

Lemma earliest_before_last ts t :
  ts <> [] ->
  (forall u, u ∈ ts -> timer_due u <= timer_due t) ->
  exists u, earliest (ts ++ [t]) = Some u /\ u ∈ ts.
Proof.
  induction ts as [| a r IH]; intros Hne Hle; [done |].
  destruct r as [| b r].
  - exists a. split; [| left]. simpl.
    destruct (Nat.ltb_spec (timer_due t) (timer_due a)); [| done].
    specialize (Hle a). ospecialize (Hle _); [left |]. lia.
  - destruct IH as (w & E & Hw); [done | |].
    { intros u Hu. apply Hle. by right. }
    change (earliest ((a :: b :: r) ++ [t]))
      with (match earliest ((b :: r) ++ [t]) with
            | Some u => if timer_due u <? timer_due a then Some u else Some a
            | None => Some a
            end).
    rewrite E. destruct (timer_due w <? timer_due a).
    + exists w. split; [done | by right].
    + exists a. split; [done | left].
Qed.

(** When the youngest timer is also the one due last, it is the last to
    fire. *)
Lemma run_timers_last limit fuel : forall ts s t,
  well_formed s ->
  timers s = ts ++ [t] ->
  (forall u, u ∈ ts -> timer_due u <= timer_due t) ->
  timer_due t <= limit ->
  length ts < fuel ->
  exists s0, run_timers marked_parse turndown fuel limit s = fire t s0.
Proof.
  induction fuel as [| n IH]; intros ts s t W T Hle Hdue Hn; [lia |].
  simpl. destruct (decide (ts = [])) as [-> | Hne].
  - rewrite T. simpl.
    destruct (Nat.leb_spec (timer_due t) limit); [| lia].
    exists s. apply run_timers_idle.
    destruct (fire_frame t s) as (-> & _). rewrite T. apply cancel_single'.
  - destruct (earliest_before_last ts t Hne Hle) as (u & E & Hu).
    rewrite T, E.
    destruct (Nat.leb_spec (timer_due u) limit);
      [| specialize (Hle u Hu); lia].
    assert (Hid : timer_id t <> timer_id u).
    { pose proof (wf_nodup s W) as Hnd. rewrite T, map_app in Hnd.
      apply NoDup_app in Hnd as (_ & Hnd & _). intros Eid.
      apply (Hnd (timer_id u)); [by apply list_elem_of_fmap_2 |].
      rewrite <- Eid. simpl. left. }
    apply (IH (cancel (timer_id u) ts)).
    + by apply fire_well_formed.
    + destruct (fire_frame u s) as (-> & _). rewrite T.
      unfold cancel. rewrite filter_app, filter_cons, filter_nil.
      by rewrite decide_True.
    + intros w Hw. apply Hle. by apply elem_of_cancel in Hw as [_ Hw].
    + done.
    + assert (Hnd : NoDup (map timer_id ts)).
      { pose proof (wf_nodup s W) as Hnd. rewrite T, map_app in Hnd.
        by apply NoDup_app in Hnd as (Hnd & _). }
      pose proof (cancel_shorter u ts Hu). lia.
Qed.

Lemma elapse_last d s ts t :
  well_formed s ->
  timers s = ts ++ [t] ->
  timer_due t = clock s + 50 ->
  50 <= d ->
  exists s0, elapse d s = set_clock (clock s + d) (fire t s0).
Proof.
  intros W T Hdue Hd. unfold Script.elapse.
  destruct (run_timers_last (clock s + d) (length (timers s)) ts s t)
    as (s0 & ->); try done.
  - intros u Hu. rewrite Hdue. apply (wf_due s W). rewrite T.
    apply elem_of_app. by left.
  - lia.
  - rewrite T, length_app. simpl. lia.
  - by exists s0.
Qed.

(** The timer table after [insertTextAtCursor]: what was kept, then the
    new timer. *)
Lemma run_insertTextAtCursor_timers text offset s :
  exists kept,
    timers (run_task (insertTextAtCursor insertText_supported text offset) s)
    = kept ++ [mkTimer (next_timer s) (clock s + 50) CodeToVisual].
Proof.
  unfold run_task. rewrite insertTextAtCursor_parts.
  unfold mbind, M_bind, bind, write.
  destruct (insert_part_any text (set_activeElement TheEditor s))
    as (s0 & -> & _ & T & _ & K).
  destruct (adjust_cursor_frame offset (rearmed CodeToVisual 50 s0))
    as (s1 & -> & _ & -> & _).
  destruct (rearmed_frame CodeToVisual 50 s0) as (-> & _).
  injection T as _ -> _ _ _. rewrite K. eexists. by destruct s.
Qed.

(** [execCmd] ends with a call of [syncVisualToCode], whatever the
    browser did with the command. *)
Lemma execCmd_any command value s :
  well_formed s ->
  exists s0,
    run_task (execCmd document_execCommand command value) s
    = rearmed VisualToCode 50 s0 /\
    well_formed s0 /\ clock s0 = clock s.
Proof.
  intros W. unfold run_task, execCmd, execCommand.
  unfold mbind, M_bind, bind, read.
  destruct (document_execCommand command value s) as [| html | v caret].
  - unfold ret, syncVisualToCode. rewrite debounce_eq. by exists s.
  - unfold write, visual_oninput, syncVisualToCode. rewrite !debounce_eq.
    eexists. split; [reflexivity |]. split.
    + apply rearmed_well_formed; [done |].
      revert W. apply well_formed_ext. by destruct s.
    + by destruct s.
  - unfold write, editor_oninput, syncCodeToVisual, syncVisualToCode.
    rewrite !debounce_eq.
    eexists. split; [reflexivity |]. split.
    + apply rearmed_well_formed; [done |].
      revert W. apply well_formed_ext. by destruct s.
    + by destruct s.
Qed.

(** C6, as the script has it.  On every page the script can reach, with
    converters that do not throw:
    - [insertTextAtCursor], through which [insertCode], [insertImage] and
      [insertMarkdownTable] change the text, splices the text in and leaves
      one markdown-to-rendered sync pending; 50 ms later the rendered view
      is [marked.parse] of the text;
    - [execCmd] leaves one rendered-to-markdown sync pending; 50 ms later
      the text is [turndown] of the rendered view;
    - [clearAll], confirmed, takes another road: it empties both views,
      recomputes the gutter and stores the empty text, starts no timer and
      calls no converter. *)
Theorem commands_and_the_sync_path s d :
  well_formed s ->
  50 <= d ->
  (forall x, is_Some (marked_parse x)) ->
  (forall x, is_Some (turndown x)) ->
  (forall text offset,
     let s1 := run_task (insertTextAtCursor insertText_supported
                           text offset) s in
     editor_value s1 = spliced text s /\
     pending CodeToVisual s1
       = [mkTimer (next_timer s) (clock s + 50) CodeToVisual] /\
     marked_parse (editor_value (elapse d s1))
       = Some (visual_innerHTML (elapse d s1))) /\
  (forall command value,
     let s1 := run_task (execCmd document_execCommand command value) s in
     (exists i, pending VisualToCode s1
                = [mkTimer i (clock s + 50) VisualToCode]) /\
     turndown (visual_innerHTML (elapse d s1))
       = Some (editor_value (elapse d s1))) /\
  (let s' := run_task (clearAll true) s in
   editor_value s' = [] /\
   visual_innerHTML s' = [] /\
   gutter_innerHTML s' = gutter_of [] /\
   localStorage s' !! md_content = Some [] /\
   timers s' = timers s /\
   timeout CodeToVisual s' = timeout CodeToVisual s /\
   timeout VisualToCode s' = timeout VisualToCode s /\
   calls s' = calls s).
Proof.
  intros W Hd Hparse Hturn. split; [| split].
  - intros text offset. cbv zeta.
    destruct (run_insertTextAtCursor_any text offset s W)
      as (V & W1 & P & _ & K).
    destruct (run_insertTextAtCursor_timers text offset s) as (kept & T).
    split; [exact V |]. split; [exact P |].
    destruct (elapse_last d _ kept _ W1 T) as (s0 & ->);
      [by rewrite K | done |].
    apply synced_after_CodeToVisual; [done | apply Hparse].
  - intros command value. cbv zeta.
    destruct (execCmd_any command value s W) as (s0 & -> & W0 & K).
    split.
    + eexists. rewrite rearmed_pending by done. by rewrite K.
    + destruct (rearmed_frame VisualToCode 50 s0) as (T & _ & _ & _ & _ & K').
      destruct (elapse_last d _ _ _
                  (rearmed_well_formed VisualToCode 50 s0 (le_n 50) W0) T)
        as (s2 & ->); [by rewrite K' | done |].
      apply synced_after_VisualToCode; [done | apply Hturn].
  - cbv zeta. rewrite clearAll_eq. cbv zeta.
    destruct (with_editor_value_frame [] s)
      as (_ & _ & _ & T & _ & _ & TC & TV & _ & C).
    generalize (with_editor_value_value [] s). revert T TC TV C.
    generalize (with_editor_value [] s). intros s0 T TC TV C V.
    destruct s0. simpl in *. subst. repeat split.
    apply lookup_insert_eq.
Qed.

(** C7.  Confirm is pressed in the dialog of [insertMarkdownTable] with
    [3] in the rows field and [2] in the columns field, on any page the
    script can reach.  The text put at the cursor is a blank line, a header
    row of 2 cells, a separator row of 2 cells, 2 data rows of 2 cells, and
    a blank line.  Exactly one markdown-to-rendered sync is then pending,
    and 50 ms later [marked.parse] has been called exactly once more; on a
    page where nothing else was pending that call is the only conversion
    and its argument is the text with the table in it. *)
Theorem table_3_by_2_inserted_with_one_sync s d t1 t2 :
  modal_onclick s = Some (table_fields, AwaitTable) ->
  modal_inputs s
    = [mkInput (js "rows") t1 (js "3"); mkInput (js "cols") t2 (js "2")] ->
  well_formed s ->
  50 <= d ->
  let s1 := step Click_modalConfirm s in
  table_text 3 2
    = nl ++ table_row [js "כותרת 1"; js "כותרת 2"]
         ++ table_row [js "---"; js "---"]
         ++ table_row [js "נתונים"; js "נתונים"]
         ++ table_row [js "נתונים"; js "נתונים"]
         ++ nl /\
  editor_value s1 = spliced (table_text 3 2) s /\
  pending CodeToVisual s1
    = [mkTimer (next_timer s) (clock s + 50) CodeToVisual] /\
  calls s1 = calls s /\
  conversions CodeToVisual (step (Elapse d) s1)
    = conversions CodeToVisual s + 1 /\
  (timers s = [] ->
   calls (step (Elapse d) s1) = calls s ++ [Parse (editor_value s1)] /\
   timers (step (Elapse d) s1) = []).
Proof.
  intros Ho Hi W Hd. cbv zeta. split; [exact table_text_3_2 |].
  rewrite (confirm_table s t1 t2 _ _ Ho Hi) by (by vm_compute).
  destruct table_size_3_2 as (-> & ->).
  generalize (table_text 3 2). intros text.
  set (s0 := set_modal_onclick None (set_modal_open false s)).
  assert (W0 : well_formed s0)
    by (revert W; apply well_formed_ext; by destruct s).
  destruct (run_insertTextAtCursor_any text 0 s0 W0) as (V & W1 & P & C & K).
  replace (spliced text s0) with (spliced text s) in V by (by destruct s).
  replace (next_timer s0) with (next_timer s) in P by (by destruct s).
  replace (clock s0) with (clock s) in P, K by (by destruct s).
  replace (calls s0) with (calls s) in C by (by destruct s).
  split; [exact V |]. split; [exact P |]. split; [exact C |]. split.
  - rewrite step_Elapse.
    destruct (elapse_count CodeToVisual d _ W1) as (-> & _).
    rewrite due_by_pending, P, filter_cons, filter_nil.
    rewrite decide_True by (rewrite K; simpl; lia).
    by rewrite (conversions_ext _ _ _ C).
  - intros Hidle.
    destruct (run_insertTextAtCursor text 0 s0) as (_ & T & _);
      [left; by destruct s |].
    replace (next_timer s0) with (next_timer s) in T by (by destruct s).
    replace (clock s0) with (clock s) in T by (by destruct s).
    rewrite step_Elapse, (elapse_fire d _ _ T) by (rewrite K; simpl; lia).
    destruct (fire_frame (mkTimer (next_timer s) (clock s + 50) CodeToVisual)
                (run_task (insertTextAtCursor insertText_supported text 0) s0))
      as (F1 & _ & _ & _ & _ & F2).
    destruct (set_clock_frame
                (clock (run_task (insertTextAtCursor insertText_supported
                                    text 0) s0) + d)
                (fire (mkTimer (next_timer s) (clock s + 50) CodeToVisual)
                   (run_task (insertTextAtCursor insertText_supported
                                text 0) s0)))
      as (_ & _ & _ & _ & E1 & _ & _ & _ & _ & E2 & _).
    rewrite E1, E2, F1, F2, T, cancel_single, C. by split.
Qed.

(** ** After a sync *)

(** On a well-formed page the timer that fires was the only one of its
    direction. *)
Lemma fire_pending t s :
  well_formed s -> t ∈ timers s -> pending (timer_fn t) (fire t s) = [].
Proof.
  intros W Ht. unfold pending. destruct (fire_frame t s) as (-> & _).
  apply filter_none. intros u Hu Hf.
  apply elem_of_cancel in Hu as [Hne Hu].
  pose proof (wf_owner s W u Hu) as Eu.
  pose proof (wf_owner s W t Ht) as Et.
  rewrite Hf, Et in Eu. congruence.
Qed.

(** C4.  A sync that fires starts no timer: the timer table afterwards is
    the table before without the timer that fired, the [timeout] variable
    of neither closure is written, and no timer handle is used up; writing
    [visual.innerHTML] or [editor.value] from the script runs no [input]
    listener.  On a page the script can reach, no sync of that direction is
    pending afterwards, and however long the page is then left alone the
    converter of that direction is not called again. *)
Theorem sync_schedules_no_sync t s :
  timers (fire t s) = cancel (timer_id t) (timers s) /\
  next_timer (fire t s) = next_timer s /\
  timeout CodeToVisual (fire t s) = timeout CodeToVisual s /\
  timeout VisualToCode (fire t s) = timeout VisualToCode s /\
  (well_formed s -> t ∈ timers s ->
   pending (timer_fn t) (fire t s) = [] /\
   forall d, conversions (timer_fn t) (elapse d (fire t s))
             = conversions (timer_fn t) s + 1).
Proof.
  destruct (fire_frame t s) as (H1 & H2 & H3 & H4 & _).
  split; [exact H1 |]. split; [exact H2 |]. split; [exact H3 |].
  split; [exact H4 |]. intros W Ht.
  pose proof (fire_pending t s W Ht) as P. split; [exact P |]. intros d.
  destruct (elapse_count (timer_fn t) d (fire t s)) as (-> & _);
    [by apply fire_well_formed |].
  rewrite due_by_pending, P, filter_nil, conversions_fire.
  rewrite decide_True by done. simpl. lia.
Qed.

(** C5.  When the converter of a sync throws, the text, the rendered view,
    the gutter and the stored value are what they were before the sync; the
    exception is reported by the browser; the other timers stay scheduled;
    and the failure ends with this sync: on a page the script can reach, a
    later edit of either view is converted as usual. *)
Theorem failed_conversion_changes_nothing t s :
  convert (timer_fn t) (source (timer_fn t) s) = None ->
  editor_value (fire t s) = editor_value s /\
  visual_innerHTML (fire t s) = visual_innerHTML s /\
  gutter_innerHTML (fire t s) = gutter_innerHTML s /\
  localStorage (fire t s) = localStorage s /\
  reported (fire t s) = reported s ++ [ConverterError (timer_fn t)] /\
  timers (fire t s) = cancel (timer_id t) (timers s) /\
  (well_formed s ->
   forall f v caret d, 50 <= d ->
     conversions f (steps [edit f v caret; Elapse d] (fire t s))
     = conversions f (fire t s) + 1).
Proof.
  intros E.
  destruct (fire_throws t s E) as (H1 & _ & _ & H2 & H3 & H4 & H5).
  destruct (fire_frame t s) as (H6 & _).
  split; [exact H1 |]. split; [exact H2 |]. split; [exact H3 |].
  split; [exact H4 |]. split; [exact H5 |]. split; [exact H6 |].
  intros W f v caret d Hd.
  apply (burst_count f [] v caret d (fire t s)); [| constructor | done].
  by apply fire_well_formed.
Qed.


(** ** Pending syncs on the pages the script can reach *)

Lemma pending_at_most_one f s : well_formed s -> length (pending f s) <= 1.
Proof.
  intros W.
  assert (Hnd : NoDup (pending f s)).
  { apply NoDup_filter. eapply NoDup_fmap_1, (wf_nodup s W). }
  assert (Hin : forall t, t ∈ pending f s ->
                  t ∈ timers s /\ timeout f s = Some (timer_id t)).
  { intros t Ht. apply list_elem_of_filter in Ht as [Ft Ht].
    split; [done |]. rewrite <- Ft. by apply W. }
  destruct (pending f s) as [| t [| u r]]; simpl; [lia | lia |].
  exfalso.
  destruct (Hin t) as [Ht Et]; [left |].
  destruct (Hin u) as [Hu Eu]; [right; left |].
  assert (t = u) as ->
    by (apply (nodup_timer_id (timers s)); [apply W | done | done | congruence]).
  apply NoDup_cons in Hnd as [Hn _]. apply Hn. left.
Qed.

(** X1.  On every page reached from a freshly opened one, whatever the
    events were, at most one sync of each direction is pending. *)
Theorem at_most_one_pending_sync storage evs f :
  length (pending f (steps evs (opened storage))) <= 1.
Proof. apply pending_at_most_one, reachable_well_formed. Qed.

Lemma elapse_50_idle d s : well_formed s -> 50 <= d -> timers (elapse d s) = [].
Proof.
  intros W Hd. destruct (elapse_count CodeToVisual d s W) as (_ & -> & _).
  apply filter_none. intros u Hu. pose proof (wf_due s W u Hu). lia.
Qed.

(** X2.  Whatever happened to the page, once it has been left alone for
    50 ms or more no timer is left: every sync that was requested has
    fired. *)
Theorem no_sync_pending_after_50ms storage evs d :
  timers (steps (evs ++ [Elapse (50 + d)]) (opened storage)) = [].
Proof.
  rewrite steps_app, steps_cons, steps_nil, step_Elapse.
  apply elapse_50_idle; [apply reachable_well_formed | lia].
Qed.

(** A debounced function cancels the timer of its own closure only. *)
Lemma rearmed_pending_other f g wait s :
  well_formed s -> g <> f -> pending g (rearmed f wait s) = pending g s.
Proof.
  intros W Hg. unfold pending.
  destruct (rearmed_frame f wait s) as (-> & _).
  rewrite filter_app, filter_cons, filter_nil.
  rewrite decide_False by (simpl; congruence). rewrite app_nil_r.
  destruct (timeout f s) as [h|] eqn:E; [| done].
  unfold cancel. rewrite list_filter_filter. apply filter_agree.
  intros u Hu. split; [tauto |]. intros Fu. split; [done |]. intros Eid.
  pose proof (wf_owner s W u Hu) as Eu. rewrite Fu, Eid in Eu.
  destruct f, g; try done.
  - exact (wf_apart s W h E Eu).
  - exact (wf_apart s W h Eu E).
Qed.

(** An edit of the view that [f] reads runs the debounced function of [f]
    on the page with the edit in it. *)
Lemma edit_rearmed f v caret s :
  exists s0,
    step (edit f v caret) s = rearmed f 50 s0 /\
    timer_state s0 = timer_state s /\ calls s0 = calls s /\
    source f s0 = v.
Proof.
  destruct f; simpl;
    unfold editor_oninput, visual_oninput, syncCodeToVisual,
      syncVisualToCode, run_task; rewrite debounce_eq;
    eexists; (split; [reflexivity |]); by destruct s.
Qed.

Lemma edit_pending_other f g v caret s :
  well_formed s -> g <> f ->
  pending g (step (edit f v caret) s) = pending g s.
Proof.
  intros W Hg. destruct (edit_rearmed f v caret s) as (s0 & -> & T & _).
  rewrite rearmed_pending_other; [| by apply (well_formed_ext s) | done].
  apply pending_ext. by injection T.
Qed.

(** X3.  The two debounced functions do not interfere: on every page the
    script can reach, an edit of the text leaves the pending
    rendered-to-markdown sync as it is, due at the same time, and an edit
    of the rendered view leaves the pending markdown-to-rendered sync as it
    is. *)
Theorem edit_keeps_the_other_sync storage evs v caret html :
  let s := steps evs (opened storage) in
  pending VisualToCode (step (EditorInput v caret) s)
    = pending VisualToCode s /\
  pending CodeToVisual (step (VisualInput html) s)
    = pending CodeToVisual s.
Proof.
  cbv zeta. split.
  - apply (edit_pending_other CodeToVisual VisualToCode v caret);
      [apply reachable_well_formed | done].
  - apply (edit_pending_other VisualToCode CodeToVisual html 0);
      [apply reachable_well_formed | done].
Qed.

(** Edits of one view, each followed by 50 ms of quiet or more: the
    content, the cursor position, and the time waited beyond 50 ms. *)
Definition spaced_edits (f : Sync) (edits : list (jsstring * nat * nat))
  : list Event :=
  flat_map (fun '(v, caret, more) => [edit f v caret; Elapse (50 + more)])
    edits.

Lemma spaced_edits_cons f v caret more edits :
  spaced_edits f ((v, caret, more) :: edits)
  = edit f v caret :: Elapse (50 + more) :: spaced_edits f edits.
Proof. reflexivity. Qed.

Lemma spaced_edits_count f edits : forall s,
  well_formed s ->
  conversions f (steps (spaced_edits f edits) s)
  = conversions f s + length edits.
Proof.
  induction edits as [| [[v caret] more] edits IH]; intros s W.
  - simpl. by rewrite Nat.add_0_r.
  - rewrite spaced_edits_cons, !steps_cons, step_Elapse.
    destruct (edit_any f v caret s W) as (W1 & P & C & K).
    destruct (elapse_count f (50 + more) _ W1) as (C2 & _ & _ & W2).
    rewrite (IH _ W2), C2, due_by_pending, P, filter_cons, filter_nil, C.
    rewrite decide_True by (simpl; lia). simpl. lia.
Qed.

Lemma spaced_edits_calls f edits : forall s,
  timers s = [] ->
  calls (steps (spaced_edits f edits) s)
  = calls s ++ map (fun e => call f (fst (fst e))) edits.
Proof.
  induction edits as [| [[v caret] more] edits IH]; intros s Hidle.
  - simpl. by rewrite app_nil_r.
  - rewrite spaced_edits_cons, !steps_cons, step_Elapse.
    destruct (edit_startable f v caret s) as (Ht & _ & Hc & Hcalls & Hv);
      [by left |].
    rewrite (elapse_fire (50 + more) _ _ Ht) by (simpl; lia).
    destruct (fire_frame (mkTimer (next_timer s) (clock s + 50) f)
                (step (edit f v caret) s)) as (F1 & _ & _ & _ & _ & F2).
    simpl in F1, F2. rewrite Ht, cancel_single in F1.
    rewrite Hcalls, Hv in F2.
    destruct (set_clock_frame
                (clock (step (edit f v caret) s) + (50 + more))
                (fire (mkTimer (next_timer s) (clock s + 50) f)
                   (step (edit f v caret) s)))
      as (_ & _ & _ & _ & E1 & _ & _ & _ & _ & E2 & _).
    rewrite IH by (by rewrite E1). rewrite E2, F2.
    by rewrite <- app_assoc.
Qed.

(** X4.  Edits that are 50 ms or more apart are each converted: on every
    page the script can reach, [n] such edits of one view add [n] calls of
    its converter; on a freshly opened page these are the only calls, one
    for the content of each edit, in order. *)
Theorem spaced_edits_convert_each storage evs f edits :
  conversions f (steps (evs ++ spaced_edits f edits) (opened storage))
  = conversions f (steps evs (opened storage)) + length edits /\
  calls (steps (spaced_edits f edits) (opened storage))
  = map (fun e => call f (fst (fst e))) edits.
Proof.
  split.
  - rewrite steps_app. apply spaced_edits_count, reachable_well_formed.
  - by rewrite spaced_edits_calls.
Qed.

Lemma filter_swap {A} (P Q : A -> Prop)
    `{!forall x, Decision (P x), !forall x, Decision (Q x)} (l : list A) :
  filter P (filter Q l) = filter Q (filter P l).
Proof. rewrite !list_filter_filter. apply list_filter_iff. tauto. Qed.

(** X5.  An edit is not converted before 50 ms have passed: on every page
    the script can reach, after an edit of one view and less than 50 ms of
    quiet, the converter of that direction has not been called and the
    sync is still pending. *)
Theorem edit_not_converted_before_50ms storage evs f v caret d :
  d < 50 ->
  let s := steps evs (opened storage) in
  let s1 := steps [edit f v caret; Elapse d] s in
  conversions f s1 = conversions f s /\
  pending f s1 = [mkTimer (next_timer s) (clock s + 50) f].
Proof.
  intros Hd. cbv zeta. rewrite !steps_cons, steps_nil, step_Elapse.
  destruct (edit_any f v caret (steps evs (opened storage)))
    as (W1 & P & C & K); [apply reachable_well_formed |].
  destruct (elapse_count f d _ W1) as (C2 & T2 & _).
  split.
  - rewrite C2, due_by_pending, P, filter_cons, filter_nil, C.
    rewrite decide_False by (simpl; lia). simpl. lia.
  - unfold pending in *. rewrite T2, filter_swap, P, filter_cons, filter_nil.
    by rewrite decide_True by (simpl; lia).
Qed.

Lemma edit_then_quiet f v caret d s :
  well_formed s ->
  (forall x, is_Some (marked_parse x)) ->
  (forall x, is_Some (turndown x)) ->
  let s' := steps [edit f v caret; Elapse (50 + d)] s in
  convert f (source f s') = Some (target f s') /\
  gutter_innerHTML s' = gutter_of (editor_value s') /\
  localStorage s' !! md_content = Some (editor_value s').
Proof.
  intros W Hparse Hturn. cbv zeta.
  rewrite !steps_cons, steps_nil, step_Elapse.
  destruct (edit_any f v caret _ W) as (W1 & _).
  revert W1.
  destruct (edit_rearmed f v caret s) as (s0 & -> & _). intros W1.
  destruct (rearmed_frame f 50 s0) as (T & _ & _ & _ & _ & K).
  destruct (elapse_last (50 + d) _ _ _ W1 T) as (s2 & ->);
    [by rewrite K | lia |].
  set (t := mkTimer (next_timer s0) (clock s0 + 50) f).
  assert (Hc : is_Some (convert f (source f s2)))
    by (destruct f; [apply Hparse | apply Hturn]).
  destruct Hc as [y Hy].
  destruct (fire_ok t s2 y Hy) as (Ht & Hs & Hg & Hl & _).
  simpl in Ht, Hs.
  destruct (set_clock_frame (clock (rearmed f 50 s0) + (50 + d)) (fire t s2))
    as (E1 & E2 & E3 & E4 & _).
  assert (Es : source f (set_clock (clock (rearmed f 50 s0) + (50 + d))
                           (fire t s2)) = source f s2)
    by (rewrite <- Hs; by destruct f).
  assert (Et : target f (set_clock (clock (rearmed f 50 s0) + (50 + d))
                           (fire t s2)) = y)
    by (rewrite <- Ht; by destruct f).
  rewrite Es, Et, E1, E3, E4, Hg, Hl. repeat split; [done |].
  apply lookup_insert_eq.
Qed.

(** X6.  After an edit of either view and 50 ms of quiet, on every page
    the script can reach and with converters that do not throw, the views
    agree: the view the sync writes is the conversion of the view the user
    edited, the gutter is the one of the text, and the stored value is the
    text. *)
Theorem edit_then_quiet_synchronises storage evs f v caret d :
  (forall x, is_Some (marked_parse x)) ->
  (forall x, is_Some (turndown x)) ->
  let s' := steps (evs ++ [edit f v caret; Elapse (50 + d)])
              (opened storage) in
  convert f (source f s') = Some (target f s') /\
  gutter_innerHTML s' = gutter_of (editor_value s') /\
  localStorage s' !! md_content = Some (editor_value s').
Proof.
  intros Hparse Hturn. cbv zeta. rewrite steps_app.
  apply edit_then_quiet; [apply reachable_well_formed | done | done].
Qed.

(** ** Decimal numerals

    [String(n)] and [parseInt] are inverse on the natural numbers. *)

(** The characters of a decimal numeral. *)
Fixpoint digits (d : Decimal.uint) : jsstring :=
  match d with
  | Decimal.Nil => []
  | Decimal.D0 d => 48%N :: digits d
  | Decimal.D1 d => 49%N :: digits d
  | Decimal.D2 d => 50%N :: digits d
  | Decimal.D3 d => 51%N :: digits d
  | Decimal.D4 d => 52%N :: digits d
  | Decimal.D5 d => 53%N :: digits d
  | Decimal.D6 d => 54%N :: digits d
  | Decimal.D7 d => 55%N :: digits d
  | Decimal.D8 d => 56%N :: digits d
  | Decimal.D9 d => 57%N :: digits d
  end.

Lemma bytes_of_uint d : bytes_of (NilEmpty.string_of_uint d) = digits d.
Proof.
  unfold bytes_of.
  induction d; simpl; [done | by rewrite IHd ..].
Qed.

Lemma Number_toString_digits n :
  Number_toString n
  = match Nat.to_uint n with Decimal.Nil => [48%N] | d => digits d end.
Proof.
  unfold Number_toString, NilZero.string_of_uint.
  destruct (Nat.to_uint n) eqn:E; [done | by rewrite bytes_of_uint ..].
Qed.




(** ** What is stored is what is loaded *)

Lemma load_text s :
  editor_value (step Load s) = initial_text (localStorage s !! md_content).
Proof.
  rewrite step_Load.
  destruct (debounce_frame CodeToVisual 50
              (with_editor_value
                 (initial_text (localStorage s !! md_content)) s))
    as (-> & _).
  apply with_editor_value_value.
Qed.

(** X7.  The text survives a reload: after an edit of either view and
    50 ms of quiet, with converters that do not throw, a page opened on the
    same storage area loads the text the old page held; only the empty text
    comes back as the welcome document. *)
Theorem reload_restores_the_text storage evs f v caret d :
  (forall x, is_Some (marked_parse x)) ->
  (forall x, is_Some (turndown x)) ->
  let s' := steps (evs ++ [edit f v caret; Elapse (50 + d)])
              (opened storage) in
  editor_value (step Load (opened (localStorage s')))
  = str_or (editor_value s') default_document.
Proof.
  intros Hparse Hturn. cbv zeta. rewrite load_text, steps_app.
  destruct (edit_then_quiet f v caret d (steps evs (opened storage)))
    as (_ & _ & L); [apply reachable_well_formed | done | done |].
  change (localStorage (opened ?m)) with m. by rewrite L.
Qed.

(** X8.  Clearing the page and opening it again brings the welcome
    document back, not an empty page: [clearAll] stores the empty text,
    which [window.onload] takes for no stored text. *)
Theorem clear_then_reload_shows_welcome s :
  localStorage (step (Click_clearAll true) s) !! md_content = Some [] /\
  editor_value (step Load (opened (localStorage (step (Click_clearAll true) s))))
  = default_document.
Proof.
  assert (L : localStorage (step (Click_clearAll true) s) !! md_content
              = Some []).
  { change (step (Click_clearAll true) s) with (run_task (clearAll true) s).
    rewrite clearAll_eq. cbv zeta.
    change (localStorage (set_localStorage ?m _)) with m.
    apply lookup_insert_eq. }
  split; [exact L |]. rewrite load_text.
  change (localStorage (opened ?m)) with m. by rewrite L.
Qed.

(** ** The gutter *)

Lemma split_on_length c v :
  length (split_on c v) = S (length (filter (fun x => x = c) v)).
Proof.
  induction v as [| x r IH]; [done |]. simpl. rewrite filter_cons.
  destruct (N.eqb_spec x c) as [-> | Hne].
  - rewrite decide_True by done. simpl. by rewrite IH.
  - rewrite decide_False by done.
    destruct (split_on c r) as [| w ws]; [done |]. exact IH.
Qed.

Lemma join_split_on c v : join [c] (split_on c v) = v.
Proof.
  induction v as [| x r IH]; [done |]. simpl.
  destruct (N.eqb_spec x c) as [-> | Hne].
  - pose proof (split_on_length c r) as L.
    destruct (split_on c r) as [| w ws]; [done |].
    change (join [c] ([] :: w :: ws)) with (c :: join [c] (w :: ws)).
    by rewrite IH.
  - pose proof (split_on_length c r) as L.
    destruct (split_on c r) as [| w ws]; [done |].
    destruct ws as [| w' ws].
    + simpl in *. by rewrite IH.
    + change (join [c] ((x :: w) :: w' :: ws))
        with (x :: join [c] (w :: w' :: ws)).
      by rewrite IH.
Qed.

(** X9.  The gutter numbers the lines of the text: it holds the numbers
    [1] to [n] separated by [<br>], where [n] is one more than the number
    of line feeds in the text; and the lines [updateGutter] counts, put
    together again with line feeds, are the text. *)
Theorem gutter_numbers_the_lines v :
  gutter_of v
  = join (js "<br>")
      (map Number_toString
         (seq 1 (S (length (filter (fun c => c = LF) v))))) /\
  join nl (split_on LF v) = v.
Proof.
  split; [| apply join_split_on].
  unfold gutter_of. cbv zeta. rewrite split_on_length. f_equal.
  rewrite <- seq_shift, map_map. apply map_ext. intros i.
  by rewrite Nat.add_1_r.
Qed.

(** ** The cursor after [insertTextAtCursor] *)

Lemma to_unsigned_long_small n :
  (Z.of_nat n < 4294967296)%Z -> to_unsigned_long (Z.of_nat n) = n.
Proof.
  intros H. unfold to_unsigned_long. rewrite Z.mod_small by lia.
  apply Nat2Z.id.
Qed.

(** The branch of [insertTextAtCursor] for a browser without
    [insertText]. *)
Definition insert_fallback (text : jsstring) : M unit :=
  start ← read editor_selectionStart;
  end_ ← read editor_selectionEnd;
  v ← read editor_value;
  assign_editor_value
    (substring v 0 start ++ text ++ substring_from v end_);;
  assign_selectionEnd (Z.of_nat (start + length text));;
  assign_selectionStart (Z.of_nat (start + length text));;
  syncCodeToVisual.

(** Two pages are equal when their fields are. *)
Lemma State_eq (s s' : State) :
  editor_value s = editor_value s' ->
  editor_selectionStart s = editor_selectionStart s' ->
  editor_selectionEnd s = editor_selectionEnd s' ->
  visual_innerHTML s = visual_innerHTML s' ->
  gutter_innerHTML s = gutter_innerHTML s' ->
  localStorage s = localStorage s' ->
  activeElement s = activeElement s' ->
  timeout_CodeToVisual s = timeout_CodeToVisual s' ->
  timeout_VisualToCode s = timeout_VisualToCode s' ->
  timers s = timers s' ->
  next_timer s = next_timer s' ->
  clock s = clock s' ->
  modal_open s = modal_open s' ->
  modal_title s = modal_title s' ->
  modal_inputs s = modal_inputs s' ->
  modal_onclick s = modal_onclick s' ->
  reported s = reported s' ->
  calls s = calls s' ->
  s = s'.
Proof. destruct s, s'; simpl; intros; by subst. Qed.

(** Reads a field through the updates, innermost last. *)
Ltac fields :=
  lazy beta iota delta
    [editor_value editor_selectionStart editor_selectionEnd visual_innerHTML
     gutter_innerHTML localStorage activeElement timeout_CodeToVisual
     timeout_VisualToCode timers next_timer clock modal_open modal_title
     modal_inputs modal_onclick reported calls
     set_editor_value set_editor_selectionStart set_editor_selectionEnd
     set_visual_innerHTML set_gutter_innerHTML set_localStorage
     set_activeElement set_timeout_CodeToVisual set_timeout_VisualToCode
     set_timers set_next_timer set_clock set_modal_open set_modal_title
     set_modal_inputs set_modal_onclick set_reported set_calls].

Lemma insert_fallback_eq text s :
  editor_selectionStart s <= editor_selectionEnd s ->
  editor_selectionEnd s <= length (editor_value s) ->
  (Z.of_nat (length (editor_value s) + length text) < 4294967296)%Z ->
  insert_fallback text s = execCommand_insertText text s.
Proof.
  intros H1 H2 H3.
  unfold insert_fallback, execCommand_insertText, editor_oninput,
    syncCodeToVisual, assign_editor_value, assign_selectionEnd,
    assign_selectionStart.
  unfold mbind, M_bind, bind, read, write.
  rewrite substring_0, substring_from_drop. f_equal.
  assert (L : length (take (editor_selectionStart s) (editor_value s) ++ text
                      ++ drop (editor_selectionEnd s) (editor_value s))
              = editor_selectionStart s + length text
                + (length (editor_value s) - editor_selectionEnd s)).
  { rewrite !length_app, length_take, length_drop. lia. }
  revert L.
  generalize (take (editor_selectionStart s) (editor_value s) ++ text
              ++ drop (editor_selectionEnd s) (editor_value s)).
  intros v' L. unfold with_editor_value.
  case_decide as E; [subst v' |]; destruct s; simpl in H1, H2, H3, L;
    apply State_eq; fields; try reflexivity;
    rewrite !to_unsigned_long_small by lia; lia.
Qed.

Lemma insertTextAtCursor_false text offset :
  insertTextAtCursor false text offset
  = (write (set_activeElement TheEditor);;
     insert_fallback text;; adjust_cursor offset).
Proof.
  unfold insertTextAtCursor, insert_fallback, adjust_cursor. reflexivity.
Qed.

Lemma insertTextAtCursor_true text offset :
  insertTextAtCursor true text offset
  = (write (set_activeElement TheEditor);;
     execCommand_insertText text;; adjust_cursor offset).
Proof. unfold insertTextAtCursor, adjust_cursor. reflexivity. Qed.

Lemma insertTextAtCursor_fallback text offset s :
  editor_selectionStart s <= editor_selectionEnd s ->
  editor_selectionEnd s <= length (editor_value s) ->
  (Z.of_nat (length (editor_value s) + length text) < 4294967296)%Z ->
  insertTextAtCursor false text offset s
  = insertTextAtCursor true text offset s.
Proof.
  intros H1 H2 H3.
  rewrite insertTextAtCursor_false, insertTextAtCursor_true.
  unfold mbind, M_bind, bind, write.
  rewrite insert_fallback_eq; [done | by destruct s ..].
Qed.

(** X10.  While the selection lies inside the text, the branch of
    [insertTextAtCursor] for browsers without [insertText] leaves the page
    exactly as the [insertText] command does: the same text, the same
    cursor, the same pending sync. *)
Theorem insertText_fallback_agrees text offset s :
  editor_selectionStart s <= editor_selectionEnd s ->
  editor_selectionEnd s <= length (editor_value s) ->
  (Z.of_nat (length (editor_value s) + length text) < 4294967296)%Z ->
  run_task (insertTextAtCursor false text offset) s
  = run_task (insertTextAtCursor true text offset) s.
Proof.
  intros H1 H2 H3. unfold run_task.
  by rewrite insertTextAtCursor_fallback.
Qed.

Lemma rearmed_selection f wait s :
  editor_selectionStart (rearmed f wait s) = editor_selectionStart s /\
  editor_selectionEnd (rearmed f wait s) = editor_selectionEnd s /\
  activeElement (rearmed f wait s) = activeElement s.
Proof. by destruct s, f. Qed.

(** The adjustment at the end of [insertTextAtCursor], when the cursor is
    inside the text and the offset does not lead before its start. *)
Lemma adjust_cursor_cursor offset s :
  editor_selectionStart s = editor_selectionEnd s ->
  editor_selectionEnd s <= length (editor_value s) ->
  (Z.of_nat (length (editor_value s)) < 4294967296)%Z ->
  offset <= editor_selectionEnd s ->
  exists s1,
    adjust_cursor offset s = Ret tt s1 /\
    editor_selectionStart s1 = editor_selectionEnd s - offset /\
    editor_selectionEnd s1 = editor_selectionEnd s - offset /\
    activeElement s1 = activeElement s.
Proof.
  intros H1 H2 H3 H4. unfold adjust_cursor.
  destruct (Nat.ltb_spec 0 offset).
  - eexists. split; [reflexivity |].
    unfold assign_selectionEnd, assign_selectionStart, read, write.
    destruct s; simpl in H1, H2, H3, H4. fields.
    replace (Z.of_nat editor_selectionEnd0 - Z.of_nat offset)%Z
      with (Z.of_nat (editor_selectionEnd0 - offset)) by lia.
    rewrite !to_unsigned_long_small by lia.
    repeat split; lia.
  - eexists. split; [reflexivity |]. repeat split; lia.
Qed.

Lemma bind_write {A} g (c : M A) s : (write g;; c) s = c (g s).
Proof. reflexivity. Qed.

Lemma execCommand_insertText_cursor text offset s :
  editor_selectionStart s <= editor_selectionEnd s ->
  editor_selectionEnd s <= length (editor_value s) ->
  (Z.of_nat (length (editor_value s) + length text) < 4294967296)%Z ->
  offset <= editor_selectionStart s + length text ->
  exists s1,
    (execCommand_insertText text;; adjust_cursor offset) s = Ret tt s1 /\
    editor_selectionStart s1 = editor_selectionStart s + length text - offset /\
    editor_selectionEnd s1 = editor_selectionStart s + length text - offset /\
    activeElement s1 = activeElement s.
Proof.
  intros H1 H2 H3 H4.
  unfold execCommand_insertText, editor_oninput, syncCodeToVisual.
  unfold mbind, M_bind, bind, write. rewrite debounce_eq.
  assert (L : editor_selectionStart s + length text
              <= length (take (editor_selectionStart s) (editor_value s)
                         ++ text
                         ++ drop (editor_selectionEnd s) (editor_value s))
              <= length (editor_value s) + length text).
  { rewrite !length_app, length_take, length_drop. lia. }
  revert L.
  generalize (take (editor_selectionStart s) (editor_value s) ++ text
              ++ drop (editor_selectionEnd s) (editor_value s)).
  intros v' L.
  match goal with
  | |- context [adjust_cursor offset (rearmed CodeToVisual 50 ?x)] =>
      set (s0 := x)
  end.
  assert (F : editor_value s0 = v' /\
              editor_selectionStart s0
                = editor_selectionStart s + length text /\
              editor_selectionEnd s0
                = editor_selectionStart s + length text /\
              activeElement s0 = activeElement s)
    by (subst s0; clear; by destruct s).
  clearbody s0. destruct F as (F1 & F2 & F3 & F4).
  destruct (rearmed_selection CodeToVisual 50 s0) as (R1 & R2 & R3).
  destruct (adjust_cursor_cursor offset (rearmed CodeToVisual 50 s0))
    as (s1 & -> & A1 & A2 & A3).
  - by rewrite R1, R2, F2, F3.
  - rewrite R2, rearmed_editor_value, F1, F3. lia.
  - rewrite rearmed_editor_value, F1. lia.
  - rewrite R2, F3. lia.
  - exists s1. rewrite A1, A2, A3, R2, R3, F3, F4. done.
Qed.

Lemma insertTextAtCursor_true_cursor text offset s :
  editor_selectionStart s <= editor_selectionEnd s ->
  editor_selectionEnd s <= length (editor_value s) ->
  (Z.of_nat (length (editor_value s) + length text) < 4294967296)%Z ->
  offset <= editor_selectionStart s + length text ->
  let s1 := run_task (insertTextAtCursor true text offset) s in
  editor_selectionStart s1 = editor_selectionStart s + length text - offset /\
  editor_selectionEnd s1 = editor_selectionStart s + length text - offset /\
  activeElement s1 = TheEditor.
Proof.
  intros H1 H2 H3 H4. cbv zeta.
  unfold run_task. rewrite insertTextAtCursor_true, bind_write.
  destruct (execCommand_insertText_cursor text offset
              (set_activeElement TheEditor s))
    as (s1 & -> & A1 & A2 & A3); [by destruct s .. |].
  rewrite A1, A2, A3. by destruct s.
Qed.

(** X11.  Where [insertTextAtCursor] leaves the cursor: while the
    selection lies inside the text and the offset is not beyond the
    inserted text, the selection is replaced by the text and the cursor is
    put [selectionOffset] code units before the end of what was inserted,
    in either branch; the text control has the focus. *)
Theorem insertTextAtCursor_places_cursor text offset s :
  editor_selectionStart s <= editor_selectionEnd s ->
  editor_selectionEnd s <= length (editor_value s) ->
  (Z.of_nat (length (editor_value s) + length text) < 4294967296)%Z ->
  offset <= editor_selectionStart s + length text ->
  let s1 := run_task (insertTextAtCursor insertText_supported text offset) s in
  editor_value s1 = spliced text s /\
  editor_selectionStart s1 = editor_selectionStart s + length text - offset /\
  editor_selectionEnd s1 = editor_selectionStart s + length text - offset /\
  activeElement s1 = TheEditor.
Proof.
  intros H1 H2 H3 H4. cbv zeta. split.
  - unfold run_task. rewrite insertTextAtCursor_parts.
    unfold mbind, M_bind, bind, write.
    destruct (insert_part_any text (set_activeElement TheEditor s))
      as (s0 & -> & V & _).
    destruct (adjust_cursor_frame offset (rearmed CodeToVisual 50 s0))
      as (s1 & -> & V1 & _).
    rewrite V1, rearmed_editor_value, V. reflexivity.
  - assert (E : run_task (insertTextAtCursor insertText_supported
                            text offset) s
                = run_task (insertTextAtCursor true text offset) s).
    { destruct insertText_supported; [done |].
      unfold run_task. by rewrite insertTextAtCursor_fallback. }
    rewrite E. by apply insertTextAtCursor_true_cursor.
Qed.

(** ** Loading a stored text *)


(** ** The dialog and the rest of the page *)

Lemma document_fields s' s :
  document s' = document s ->
  editor_value s' = editor_value s /\
  editor_selectionStart s' = editor_selectionStart s /\
  editor_selectionEnd s' = editor_selectionEnd s /\
  visual_innerHTML s' = visual_innerHTML s /\
  gutter_innerHTML s' = gutter_innerHTML s /\
  localStorage s' = localStorage s /\
  timer_state s' = timer_state s /\
  reported s' = reported s /\
  calls s' = calls s.
Proof.
  unfold document, timer_state. intros [= -> -> -> -> -> -> _ -> -> -> -> -> -> ->].
  done.
Qed.

(** The dialog, and the report of uncaught exceptions. *)
Definition modal_state (s : State) :=
  (modal_open s, modal_title s, modal_inputs s, modal_onclick s, reported s).

(** A computation that leaves the dialog alone, whether it returns or
    throws. *)
Definition keeps_modal {A} (c : M A) : Prop :=
  forall s, modal_state (final (c s)) = modal_state s.

Lemma keeps_modal_ret {A} (a : A) : keeps_modal (ret a).
Proof. by intros s. Qed.

Lemma keeps_modal_throw {A} e : keeps_modal (@throw A e).
Proof. by intros s. Qed.

Lemma keeps_modal_read {A} (g : State -> A) : keeps_modal (read g).
Proof. by intros s. Qed.

Lemma keeps_modal_write g :
  (forall s, modal_state (g s) = modal_state s) -> keeps_modal (write g).
Proof. intros H s. apply H. Qed.

Lemma keeps_modal_bind {A B} (c : M A) (k : A -> M B) :
  keeps_modal c -> (forall a, keeps_modal (k a)) -> keeps_modal (c ≫= k).
Proof.
  intros Hc Hk s. specialize (Hc s).
  unfold mbind, M_bind, bind. destruct (c s) as [a s1 | e s1]; [| done].
  rewrite <- Hc. apply Hk.
Qed.

Lemma keeps_modal_debounce f wait : keeps_modal (debounce f wait).
Proof. intros s. rewrite debounce_eq. by destruct s, f. Qed.

Lemma with_editor_value_modal v s :
  modal_state (with_editor_value v s) = modal_state s.
Proof. unfold with_editor_value. case_decide; by destruct s. Qed.

Ltac keeps_modal :=
  repeat match goal with
    | |- keeps_modal (debounce _ _) => apply keeps_modal_debounce
    | |- keeps_modal (_ ≫= _) => apply keeps_modal_bind; [| intros ?]
    | |- keeps_modal (ret _) => apply keeps_modal_ret
    | |- keeps_modal (throw _) => apply keeps_modal_throw
    | |- keeps_modal (read _) => apply keeps_modal_read
    | |- keeps_modal (write (with_editor_value _)) =>
        apply keeps_modal_write, with_editor_value_modal
    | |- keeps_modal (write _) => apply keeps_modal_write; by intros []
    | |- keeps_modal (match ?x with _ => _ end) => destruct x
    end.

Lemma keeps_modal_insertTextAtCursor text offset :
  keeps_modal (insertTextAtCursor insertText_supported text offset).
Proof.
  unfold insertTextAtCursor, execCommand_insertText, editor_oninput,
    syncCodeToVisual, assign_editor_value, assign_selectionEnd,
    assign_selectionStart.
  keeps_modal.
Qed.

Lemma keeps_modal_execCmd command value :
  keeps_modal (execCmd document_execCommand command value).
Proof.
  unfold execCmd, execCommand, visual_oninput, editor_oninput,
    syncCodeToVisual, syncVisualToCode.
  keeps_modal.
Qed.

Lemma keeps_modal_func_of f : keeps_modal (func_of f).
Proof.
  destruct f; simpl;
    unfold syncCodeToVisual_func, syncVisualToCode_func, call_marked_parse,
      call_turndown, updateGutter, saveToLocal, assign_editor_value;
    keeps_modal.
Qed.

Lemma keeps_modal_clearAll answer : keeps_modal (clearAll answer).
Proof.
  unfold clearAll, assign_editor_value, updateGutter, saveToLocal.
  keeps_modal.
Qed.

Lemma keeps_modal_onload : keeps_modal onload.
Proof. unfold onload, assign_editor_value, syncCodeToVisual. keeps_modal. Qed.

Lemma keeps_modal_onkeydown ctrlKey key :
  keeps_modal (onkeydown document_execCommand ctrlKey key).
Proof. unfold onkeydown. keeps_modal; apply keeps_modal_execCmd. Qed.

Lemma keeps_modal_copyCode : keeps_modal copyCode.
Proof. unfold copyCode. keeps_modal. Qed.

(** ** Inserting after [copyCode] *)

Lemma run_insertTextAtCursor_value text offset s :
  editor_value (run_task (insertTextAtCursor insertText_supported
                            text offset) s)
  = spliced text s.
Proof.
  unfold run_task. rewrite insertTextAtCursor_parts.
  unfold mbind, M_bind, bind, write.
  destruct (insert_part_any text (set_activeElement TheEditor s))
    as (s0 & -> & V & _).
  destruct (adjust_cursor_frame offset (rearmed CodeToVisual 50 s0))
    as (s1 & -> & V1 & _).
  rewrite V1, rearmed_editor_value, V. reflexivity.
Qed.

(** X13.  [copyCode] leaves the whole text selected, so what is inserted
    next replaces the document: after the copy button, the code-block
    button leaves the text control holding the code block alone, and
    [insertTextAtCursor] with any text leaves that text alone. *)
Theorem insert_after_copy_replaces_the_text text offset s :
  editor_value (run_task (insertTextAtCursor insertText_supported
                            text offset) (step Click_copyCode s))
  = text /\
  editor_value (steps [Click_copyCode; Click_insertCode] s) = code_block.
Proof.
  assert (E : forall x, spliced x (step Click_copyCode s) = x).
  { intros x. unfold spliced.
    replace (editor_selectionStart (step Click_copyCode s)) with 0
      by (by destruct s).
    replace (editor_selectionEnd (step Click_copyCode s))
      with (length (editor_value (step Click_copyCode s)))
      by (by destruct s).
    by rewrite take_0, drop_all, app_nil_r. }
  split.
  - by rewrite run_insertTextAtCursor_value.
  - rewrite !steps_cons, steps_nil.
    change (step Click_insertCode ?x)
      with (run_task (insertTextAtCursor insertText_supported code_block 4) x).
    by rewrite run_insertTextAtCursor_value.
Qed.

(** ** The image *)

Lemma collect_image_fields s t1 t2 url alt :
  modal_inputs s = [mkInput (js "url") t1 url; mkInput (js "alt") t2 alt] ->
  collect image_fields ∅ s
  = Ret (<[js "alt" := alt]> (<[js "url" := url]> ∅)) s.
Proof.
  intros H. unfold image_fields, collect, getElementById_value.
  unfold mbind, M_bind, bind, read. rewrite H.
  unfold field_id.
  assert (F1 : List.find (fun i => bool_decide (input_id i = js "url"))
            [mkInput (js "url") t1 url; mkInput (js "alt") t2 alt]
          = Some (mkInput (js "url") t1 url)) by (by vm_compute).
  assert (F2 : List.find (fun i => bool_decide (input_id i = js "alt"))
            [mkInput (js "url") t1 url; mkInput (js "alt") t2 alt]
          = Some (mkInput (js "alt") t2 alt)) by (by vm_compute).
  rewrite F1. unfold ret at 1. cbv beta iota. rewrite H, F2. reflexivity.
Qed.

(** The markdown of an image with address [url] and alternative text
    [alt]; the alternative text left empty is replaced. *)
Definition image_markdown (url alt : jsstring) : jsstring :=
  js "![" ++ str_or alt (js "תמונה") ++ js "](" ++ url ++ js ")" ++ nl ++ nl.

Lemma image_text_of url alt :
  image_text (<[js "alt" := alt]> (<[js "url" := url]> ∅))
  = image_markdown url alt.
Proof.
  unfold image_text, image_markdown, prop_string.
  rewrite lookup_insert_eq.
  rewrite lookup_insert_ne by (by vm_compute). by rewrite lookup_insert_eq.
Qed.

Lemma confirm_image s t1 t2 url alt :
  modal_onclick s = Some (image_fields, AwaitImage) ->
  modal_inputs s = [mkInput (js "url") t1 url; mkInput (js "alt") t2 alt] ->
  step Click_modalConfirm s =
    run_task
      (insertTextAtCursor insertText_supported (image_markdown url alt) 0)
      (set_modal_onclick None (set_modal_open false s)).
Proof.
  intros Ho Hi. simpl. unfold run_task at 1, modalConfirm_onclick.
  unfold mbind, M_bind, bind, read. rewrite Ho.
  rewrite (collect_image_fields _ _ _ _ _ Hi).
  unfold close, resume, insertImage_resume.
  unfold mbind, M_bind, bind, write.
  by rewrite image_text_of.
Qed.

(** The dialog after a command opened it and the user filled its two
    fields. *)
Lemma image_dialog_filled url alt s :
  let s1 := steps [Click_insertImage; ModalInput (js "url") url;
                   ModalInput (js "alt") alt] s in
  modal_onclick s1 = Some (image_fields, AwaitImage) /\
  modal_inputs s1
    = [mkInput (js "url") (js "text") url; mkInput (js "alt") (js "text") alt] /\
  document s1 = document s.
Proof.
  cbv zeta. split; [| split].
  - by destruct s.
  - rewrite !steps_cons, steps_nil.
    change (modal_inputs (step (ModalInput ?i ?v) ?x))
      with (fill i v (modal_inputs x)).
    change (modal_inputs (step Click_insertImage s))
      with (map input_of image_fields).
    by vm_compute.
  - by destruct s.
Qed.

Lemma table_dialog_filled rows cols s :
  let s1 := steps [Click_insertMarkdownTable; ModalInput (js "rows") rows;
                   ModalInput (js "cols") cols] s in
  modal_onclick s1 = Some (table_fields, AwaitTable) /\
  modal_inputs s1
    = [mkInput (js "rows") (js "number") rows;
       mkInput (js "cols") (js "number") cols] /\
  document s1 = document s.
Proof.
  cbv zeta. split; [| split].
  - by destruct s.
  - rewrite !steps_cons, steps_nil.
    change (modal_inputs (step (ModalInput ?i ?v) ?x))
      with (fill i v (modal_inputs x)).
    change (modal_inputs (step Click_insertMarkdownTable s))
      with (map input_of table_fields).
    by vm_compute.
  - by destruct s.
Qed.

(** The page after Confirm, when the function that awaited the dialog
    inserts [text]. *)
Lemma confirmed_insert text s1 s :
  well_formed s ->
  document s1 = document s ->
  let s2 := run_task (insertTextAtCursor insertText_supported text 0)
              (set_modal_onclick None (set_modal_open false s1)) in
  editor_value s2 = spliced text s /\
  pending CodeToVisual s2
    = [mkTimer (next_timer s) (clock s + 50) CodeToVisual] /\
  calls s2 = calls s /\
  modal_open s2 = false /\
  modal_onclick s2 = None.
Proof.
  intros W D. cbv zeta.
  set (s0 := set_modal_onclick None (set_modal_open false s1)).
  assert (D0 : document s0 = document s) by (rewrite <- D; by destruct s1).
  assert (O : modal_open s0 = false /\ modal_onclick s0 = None) by done.
  clearbody s0. destruct O as (O1 & O2).
  apply document_fields in D0 as (D1 & D2 & D3 & _ & _ & _ & D4 & _ & D5).
  assert (W0 : well_formed s0) by (by apply (well_formed_ext s)).
  destruct (run_insertTextAtCursor_any text 0 s0 W0) as (V & _ & P & C & _).
  pose proof (keeps_modal_insertTextAtCursor text 0 s0) as M.
  unfold modal_state in M.
  assert (M' : modal_open
                 (run_task (insertTextAtCursor insertText_supported text 0) s0)
               = false /\
               modal_onclick
                 (run_task (insertTextAtCursor insertText_supported text 0) s0)
               = None).
  { unfold run_task.
    destruct (insertTextAtCursor insertText_supported text 0 s0)
      as [a s3 | e s3]; simpl in M; injection M as M1 _ _ M2 _.
    - by rewrite M1, M2.
    - rewrite <- O1, <- O2, <- M1, <- M2. by destruct s3. }
  destruct M' as (-> & ->). rewrite V, P, C. unfold spliced.
  injection D4 as _ -> _ _ ->. by rewrite D1, D2, D3, D5.
Qed.

Lemma steps_4 e1 e2 e3 e4 s :
  steps [e1; e2; e3; e4] s = step e4 (steps [e1; e2; e3] s).
Proof. reflexivity. Qed.

(** X14.  [insertImage], on every page the script can reach: the dialog is
    opened, the user types an address and an alternative text and presses
    Confirm.  The markdown of the image replaces the selection, with the
    built-in alternative text when the field was left empty; one
    markdown-to-rendered sync is pending, the command itself calls no
    converter, and the dialog is closed. *)
Theorem image_is_inserted_as_markdown storage evs url alt :
  let s := steps evs (opened storage) in
  let s2 := steps [Click_insertImage; ModalInput (js "url") url;
                   ModalInput (js "alt") alt; Click_modalConfirm] s in
  editor_value s2
    = spliced (js "![" ++ str_or alt (js "תמונה") ++ js "](" ++ url ++ js ")"
               ++ nl ++ nl) s /\
  pending CodeToVisual s2
    = [mkTimer (next_timer s) (clock s + 50) CodeToVisual] /\
  calls s2 = calls s /\
  modal_open s2 = false /\
  modal_onclick s2 = None.
Proof.
  cbv zeta. rewrite steps_4.
  destruct (image_dialog_filled url alt (steps evs (opened storage)))
    as (O & I & D).
  rewrite (confirm_image _ _ _ _ _ O I).
  apply (confirmed_insert (image_markdown url alt));
    [apply reachable_well_formed | exact D].
Qed.

(** ** Tables of any size *)




Lemma confirm_table_too_wide s t1 t2 rows cols :
  modal_onclick s = Some (table_fields, AwaitTable) ->
  modal_inputs s = [mkInput (js "rows") t1 rows; mkInput (js "cols") t2 cols] ->
  (4294967295 < Z.max 1 (parseInt_or cols 2))%Z ->
  step Click_modalConfirm s =
    set_reported (reported s ++ [RangeError])
      (set_modal_onclick None (set_modal_open false s)).
Proof.
  intros Ho Hi Hc. simpl. unfold run_task, modalConfirm_onclick.
  unfold mbind, M_bind, bind, read. rewrite Ho.
  rewrite (collect_table_fields _ _ _ _ _ Hi).
  unfold close, resume, insertMarkdownTable_resume.
  unfold mbind, M_bind, bind, write.
  rewrite table_cols_of.
  destruct (Z.ltb_spec 4294967295 (Z.max 1 (parseInt_or cols 2))); [| lia].
  reflexivity.
Qed.

(** X16.  A table too wide for an array: when the number in the columns
    field is above [2^32 - 1], [Array(cols)] throws.  The dialog is already
    closed, nothing is inserted, no sync is requested, and the browser
    reports the [RangeError]. *)
Theorem oversized_table_is_refused rows cols n s :
  parseInt cols = Some n ->
  (4294967295 < n)%Z ->
  let s2 := steps [Click_insertMarkdownTable; ModalInput (js "rows") rows;
                   ModalInput (js "cols") cols; Click_modalConfirm] s in
  editor_value s2 = editor_value s /\
  visual_innerHTML s2 = visual_innerHTML s /\
  timers s2 = timers s /\
  calls s2 = calls s /\
  reported s2 = reported s ++ [RangeError] /\
  modal_open s2 = false /\
  modal_onclick s2 = None.
Proof.
  intros Hp Hn. cbv zeta. rewrite steps_4.
  destruct (table_dialog_filled rows cols s) as (O & I & D).
  rewrite (confirm_table_too_wide _ _ _ _ _ O I).
  2:{ unfold parseInt_or. rewrite Hp.
      destruct (Z.eqb_spec n 0); lia. }
  clear. by destruct s.
Qed.

(** ** The shape of a table *)

(** The string [l] does not contain the character [c]. *)
Definition free (c : N) (l : jsstring) : Prop :=
  forallb (fun x => negb (x =? c)%N) l = true.

(** The number of bars in a line. *)
Definition bars (l : jsstring) : nat :=
  length (filter (fun x => x = 124%N) l).

(** A row of a table without its line feed. *)
Definition row_line (cells : list jsstring) : jsstring :=
  js "| " ++ join (js " | ") cells ++ js " |".

Lemma free_app c a b : free c (a ++ b) <-> free c a /\ free c b.
Proof. unfold free. rewrite forallb_app. apply andb_true_iff. Qed.

Lemma free_digits c d :
  (c < 48 \/ 57 < c)%N -> free c (digits d).
Proof.
  intros Hc. unfold free.
  induction d; cbn [digits forallb]; [done | ..];
    (apply andb_true_iff; split; [| done]);
    apply negb_true_iff, N.eqb_neq; lia.
Qed.

Lemma free_Number_toString c n :
  (c < 48 \/ 57 < c)%N -> free c (Number_toString n).
Proof.
  intros Hc. rewrite Number_toString_digits.
  destruct (Nat.to_uint n) eqn:E; try (rewrite <- E; by apply free_digits).
  unfold free. cbn [forallb]. rewrite andb_true_r.
  apply negb_true_iff, N.eqb_neq. lia.
Qed.

Lemma free_join c sep cells :
  free c sep -> Forall (free c) cells -> free c (join sep cells).
Proof.
  intros Hs. induction 1 as [| x r Hx Hr IH]; [done |].
  destruct r as [| y r]; [done |].
  change (join sep (x :: y :: r)) with (x ++ sep ++ join sep (y :: r)).
  rewrite !free_app. auto.
Qed.

Lemma free_row_line c cells :
  free c (js "| ") -> free c (js " | ") -> free c (js " |") ->
  Forall (free c) cells -> free c (row_line cells).
Proof.
  intros H1 H2 H3 H. unfold row_line. rewrite !free_app.
  split; [done |]. split; [by apply free_join | done].
Qed.

Lemma split_on_free c a b :
  free c a -> split_on c (a ++ c :: b) = a :: split_on c b.
Proof.
  unfold free. induction a as [| x a IH]; cbn [forallb app split_on];
    intros H.
  - by rewrite N.eqb_refl.
  - apply andb_true_iff in H as [Hx Ha]. apply negb_true_iff in Hx.
    rewrite Hx, IH by done. done.
Qed.

Lemma split_on_free_app c a b :
  free c a -> split_on c (a ++ [c] ++ b) = a :: split_on c b.
Proof. apply split_on_free. Qed.

Lemma bars_app a b : bars (a ++ b) = bars a + bars b.
Proof. unfold bars. by rewrite filter_app, length_app. Qed.

Lemma bars_free a : free 124 a -> bars a = 0.
Proof.
  unfold free, bars. induction a as [| x a IH]; cbn [forallb]; intros H;
    [done |].
  apply andb_true_iff in H as [Hx Ha].
  apply negb_true_iff, N.eqb_neq in Hx.
  rewrite filter_cons, decide_False by done. by apply IH.
Qed.

Lemma bars_join cells :
  Forall (free 124) cells ->
  bars (join (js " | ") cells) = length cells - 1.
Proof.
  induction 1 as [| x r Hx Hr IH]; [done |].
  destruct r as [| y r]; [simpl; by rewrite bars_free |].
  change (join (js " | ") (x :: y :: r))
    with (x ++ js " | " ++ join (js " | ") (y :: r)).
  rewrite !bars_app, IH, bars_free by done.
  change (bars (js " | ")) with 1. simpl. lia.
Qed.

Lemma bars_row_line cells :
  Forall (free 124) cells -> cells <> [] ->
  bars (row_line cells) = length cells + 1.
Proof.
  intros H Hne. unfold row_line. rewrite !bars_app, bars_join by done.
  change (bars (js "| ")) with 1. change (bars (js " |")) with 1.
  destruct cells; [done |]. simpl. lia.
Qed.

(** The cells of the header row. *)
Definition header_cells (cols : nat) : list jsstring :=
  map (fun i => js "כותרת " ++ Number_toString (i + 1)) (seq 0 cols).

Lemma header_cells_free c cols :
  (c < 48 \/ 57 < c)%N -> free c (js "כותרת ") ->
  Forall (free c) (header_cells cols).
Proof.
  intros Hc Hh. unfold header_cells. apply Forall_forall. intros x Hx.
  apply list_elem_of_fmap in Hx as (i & -> & _).
  apply free_app. split; [done | by apply free_Number_toString].
Qed.

Lemma split_on_repeat c line b n :
  free c line ->
  split_on c (repeat_str (line ++ [c]) n ++ b)
  = replicate n line ++ split_on c b.
Proof.
  intros H. induction n as [| n IH]; [done |]. simpl.
  rewrite <- !app_assoc. simpl. rewrite split_on_free by done.
  by rewrite IH.
Qed.

(** X17.  The table [insertMarkdownTable] builds is rectangular.  Split at
    its line feeds, the text for [rows] rows and [cols >= 1] columns is an
    empty line, the header row, the separator row, [rows - 1] equal data
    rows, and two empty lines; and every row holds [cols + 1] bars, that
    is [cols] cells. *)
Theorem table_is_rectangular rows cols :
  1 <= cols ->
  split_on LF (table_text rows cols)
  = [] :: row_line (header_cells cols)
       :: row_line (replicate cols (js "---"))
       :: replicate (rows - 1) (row_line (replicate cols (js "נתונים")))
       ++ [[]; []] /\
  bars (row_line (header_cells cols)) = cols + 1 /\
  bars (row_line (replicate cols (js "---"))) = cols + 1 /\
  bars (row_line (replicate cols (js "נתונים"))) = cols + 1.
Proof.
  intros Hc.
  assert (F : forall c, (c < 48 \/ 57 < c)%N ->
              free c (js "| ") -> free c (js " | ") -> free c (js " |") ->
              free c (js "כותרת ") -> free c (js "---") ->
              free c (js "נתונים") ->
              free c (row_line (header_cells cols)) /\
              free c (row_line (replicate cols (js "---"))) /\
              free c (row_line (replicate cols (js "נתונים")))).
  { intros c H0 H1 H2 H3 H4 H5 H6. split; [| split];
      apply free_row_line; try done.
    - by apply header_cells_free.
    - by apply Forall_replicate.
    - by apply Forall_replicate. }
  split.
  - destruct (F LF) as (F1 & F2 & F3); [by left | by vm_compute .. |].
    unfold table_text, table_header, table_sep, table_data, mapi_index,
      Array_fill.
    rewrite length_replicate.
    change (nl ++ ?x) with (LF :: x).
    change (split_on LF (LF :: ?x)) with ([] :: split_on LF x).
    f_equal.
    change (js "| " ++ join (js " | ")
              (map (fun i => js "כותרת " ++ Number_toString (i + 1))
                 (seq 0 cols)) ++ js " |" ++ nl)
      with (js "| " ++ join (js " | ") (header_cells cols) ++ js " |" ++ nl).
    replace (js "| " ++ join (js " | ") (header_cells cols) ++ js " |" ++ nl)
      with (row_line (header_cells cols) ++ [LF])
      by (unfold row_line; by rewrite <- !app_assoc).
    replace (js "| " ++ join (js " | ") (replicate cols (js "---"))
             ++ js " |" ++ nl)
      with (row_line (replicate cols (js "---")) ++ [LF])
      by (unfold row_line; by rewrite <- !app_assoc).
    replace (js "| " ++ join (js " | ") (replicate cols (js "נתונים"))
             ++ js " |" ++ nl)
      with (row_line (replicate cols (js "נתונים")) ++ [LF])
      by (unfold row_line; by rewrite <- !app_assoc).
    rewrite <- !app_assoc.
    rewrite !split_on_free_app by done.
    by rewrite split_on_repeat.
  - clear F.
    assert (L1 : length (header_cells cols) = cols)
      by (unfold header_cells; by rewrite length_map, length_seq).
    rewrite !bars_row_line.
    + by rewrite L1, !length_replicate.
    + apply Forall_replicate. by vm_compute.
    + destruct cols; [lia | done].
    + apply Forall_replicate. by vm_compute.
    + destruct cols; [lia | done].
    + apply header_cells_free; [by right | by vm_compute].
    + destruct cols; [lia | done].
Qed.

(** ** One dialog at a time *)

Lemma click_same k s' s :
  document s' = document s -> step (click_of k) s' = step (click_of k) s.
Proof.
  intros D. destruct k; simpl; unfold insertImage, insertMarkdownTable;
    rewrite !showCustomPrompt_eq; destruct s, s'; unfold document in D;
    simpl in D; injection D; intros; by subst.
Qed.

Lemma prompt_keeps_document k typed s :
  document (steps (click_of k :: typing typed) s) = document s /\
  modal_onclick (steps (click_of k :: typing typed) s) = Some (fields_of k, k).
Proof.
  rewrite steps_cons.
  destruct (click_opens_prompt k s) as (D1 & O1).
  destruct (typing_keeps_document typed (step (click_of k) s)) as (D2 & O2).
  split; congruence.
Qed.

(** X18.  A command that opens the dialog while the dialog of another
    command is open replaces it: the page is the one the second command
    would have left alone, whatever was typed into the first dialog, and
    the first command never continues. *)
Theorem second_prompt_replaces_the_first k1 k2 typed s :
  step (click_of k2) (steps (click_of k1 :: typing typed) s)
  = step (click_of k2) s.
Proof. apply click_same, prompt_keeps_document. Qed.

(** ** The dialog on the pages the script can reach *)

(** The dialog is shown exactly while its buttons have handlers, and then
    every field the handlers captured has its input. *)
Definition dialog_ok (s : State) : Prop :=
  match modal_onclick s with
  | Some (fields, _) =>
      modal_open s = true /\
      map field_id fields = map input_id (modal_inputs s)
  | None => modal_open s = false
  end.

Lemma dialog_ok_ext s' s :
  modal_state s' = modal_state s -> dialog_ok s -> dialog_ok s'.
Proof.
  unfold modal_state, dialog_ok. intros [= -> _ -> -> _]. done.
Qed.

Lemma run_task_modal c s :
  keeps_modal c ->
  modal_open (run_task c s) = modal_open s /\
  modal_title (run_task c s) = modal_title s /\
  modal_inputs (run_task c s) = modal_inputs s /\
  modal_onclick (run_task c s) = modal_onclick s.
Proof.
  intros Hc. specialize (Hc s). unfold run_task, modal_state in *.
  destruct (c s) as [a s1 | e s1]; simpl in Hc;
    injection Hc as <- <- <- <- _; by destruct s1.
Qed.

Lemma run_task_dialog_ok c s :
  keeps_modal c -> dialog_ok s -> dialog_ok (run_task c s).
Proof.
  intros Hc. destruct (run_task_modal c s Hc) as (M1 & _ & M3 & M4).
  unfold dialog_ok. by rewrite M1, M3, M4.
Qed.

Lemma fire_modal t s : modal_state (fire t s) = modal_state s \/
  exists e, modal_state (fire t s)
            = (modal_open s, modal_title s, modal_inputs s, modal_onclick s,
               reported s ++ [e]).
Proof.
  unfold Script.fire, run_task.
  pose proof (keeps_modal_func_of (timer_fn t)
                (set_clock (Nat.max (clock s) (timer_due t))
                   (set_timers (cancel (timer_id t) (timers s)) s))) as H.
  destruct (func_of (timer_fn t) _) as [a s1 | e s1]; simpl in H.
  - left. rewrite H. by destruct s.
  - right. exists e. unfold modal_state in *.
    injection H as H1 H2 H3 H4 H5.
    replace (reported (set_reported (reported s1 ++ [e]) s1))
      with (reported s1 ++ [e]) by (by destruct s1).
    rewrite H5. simpl.
    replace (modal_open (set_reported (reported s1 ++ [e]) s1))
      with (modal_open s1) by (by destruct s1).
    replace (modal_title (set_reported (reported s1 ++ [e]) s1))
      with (modal_title s1) by (by destruct s1).
    replace (modal_inputs (set_reported (reported s1 ++ [e]) s1))
      with (modal_inputs s1) by (by destruct s1).
    replace (modal_onclick (set_reported (reported s1 ++ [e]) s1))
      with (modal_onclick s1) by (by destruct s1).
    by rewrite H1, H2, H3, H4.
Qed.

Lemma fire_dialog_ok t s : dialog_ok s -> dialog_ok (fire t s).
Proof.
  unfold dialog_ok.
  destruct (fire_modal t s) as [H | (e & H)]; unfold modal_state in H;
    injection H as -> _ -> -> _; done.
Qed.

Lemma run_timers_dialog_ok fuel limit : forall s,
  dialog_ok s -> dialog_ok (run_timers marked_parse turndown fuel limit s).
Proof.
  induction fuel as [| n IH]; intros s H; simpl; [done |].
  destruct (earliest (timers s)) as [t|]; [| done].
  destruct (_ <=? _); [| done]. apply IH. by apply fire_dialog_ok.
Qed.

Lemma input_of_id fields :
  map field_id fields = map input_id (map input_of fields).
Proof. induction fields as [| f r IH]; [done |]. simpl. by rewrite <- IH. Qed.

Lemma fill_ids id v inputs : map input_id (fill id v inputs) = map input_id inputs.
Proof.
  induction inputs as [| i r IH]; [done |]. simpl.
  case_bool_decide; simpl; [done | by rewrite IH].
Qed.

Lemma find_input id inputs :
  id ∈ map input_id inputs ->
  is_Some (List.find (fun i => bool_decide (input_id i = id)) inputs).
Proof.
  induction inputs as [| i r IH]; simpl; intros H.
  - by apply elem_of_nil in H.
  - case_bool_decide; [by eexists |].
    apply elem_of_cons in H as [H | H]; [congruence | by apply IH].
Qed.

(** With an input for every field, the Confirm handler reads them all. *)
Lemma collect_returns fields : forall res s,
  (forall f, f ∈ fields -> field_id f ∈ map input_id (modal_inputs s)) ->
  exists res', collect fields res s = Ret res' s.
Proof.
  induction fields as [| f r IH]; intros res s H; simpl; [by eexists |].
  unfold getElementById_value, mbind, M_bind, bind, read.
  destruct (find_input (field_id f) (modal_inputs s)) as [i ->];
    [apply H; left |].
  unfold ret at 1. cbv beta iota. apply IH. intros g Hg. apply H. by right.
Qed.

Lemma keeps_modal_resume k results :
  keeps_modal (resume insertText_supported k results).
Proof.
  unfold resume, insertImage_resume, insertMarkdownTable_resume.
  destruct k, results as [r|]; try apply keeps_modal_ret.
  - apply keeps_modal_insertTextAtCursor.
  - destruct (_ <? _)%Z;
      [apply keeps_modal_throw | apply keeps_modal_insertTextAtCursor].
Qed.

(** Confirm on a page whose dialog is in order: the dialog is closed and
    the function that awaited it continues with the values read. *)
Lemma confirm_continues fields k s :
  dialog_ok s ->
  modal_onclick s = Some (fields, k) ->
  exists res,
    step Click_modalConfirm s
    = run_task (resume insertText_supported k (Some res))
        (set_modal_onclick None (set_modal_open false s)).
Proof.
  intros Hok Ho. unfold dialog_ok in Hok. rewrite Ho in Hok.
  destruct Hok as (_ & Hids).
  destruct (collect_returns fields ∅ s) as (res & Hres).
  { intros f Hf. rewrite <- Hids. by apply list_elem_of_fmap_2. }
  exists res. simpl. unfold run_task, modalConfirm_onclick.
  unfold mbind, M_bind, bind, read. rewrite Ho, Hres. reflexivity.
Qed.

Lemma cancel_continues fields k s :
  modal_onclick s = Some (fields, k) ->
  step Click_modalCancel s
  = run_task (resume insertText_supported k None)
      (set_modal_onclick None (set_modal_open false s)).
Proof.
  intros Ho. simpl. unfold run_task, modalCancel_onclick.
  unfold mbind, M_bind, bind, read. rewrite Ho. reflexivity.
Qed.

Lemma closed_dialog_ok c s :
  keeps_modal c ->
  let s' := run_task c (set_modal_onclick None (set_modal_open false s)) in
  modal_open s' = false /\ modal_onclick s' = None.
Proof.
  intros Hc. cbv zeta.
  destruct (run_task_modal c (set_modal_onclick None (set_modal_open false s))
              Hc) as (-> & _ & _ & ->).
  by destruct s.
Qed.

(** One of the two buttons of the dialog. *)
Definition button (confirm : bool) : Event :=
  if confirm then Click_modalConfirm else Click_modalCancel.

Lemma button_without_handler b s :
  modal_onclick s = None -> step (button b) s = s.
Proof.
  intros H. destruct b; simpl;
    unfold run_task, modalConfirm_onclick, modalCancel_onclick;
    unfold mbind, M_bind, bind, read; by rewrite H.
Qed.

Lemma button_closes b s :
  dialog_ok s ->
  modal_open (step (button b) s) = false /\
  modal_onclick (step (button b) s) = None.
Proof.
  intros Hok. destruct (modal_onclick s) as [[fields k] |] eqn:Ho.
  - destruct b.
    + destruct (confirm_continues fields k s Hok Ho) as (res & E).
      unfold button. rewrite E. apply closed_dialog_ok, keeps_modal_resume.
    + unfold button. rewrite (cancel_continues fields k s Ho).
      apply closed_dialog_ok, keeps_modal_resume.
  - rewrite button_without_handler by done.
    unfold dialog_ok in Hok. by rewrite Ho in Hok.
Qed.

Lemma prompt_dialog_ok title fields k s :
  dialog_ok (run_task (showCustomPrompt title fields k) s).
Proof.
  rewrite showCustomPrompt_eq. unfold dialog_ok. destruct s; simpl.
  split; [done | apply input_of_id].
Qed.

Lemma step_dialog_ok ev s : dialog_ok s -> dialog_ok (step ev s).
Proof.
  intros H. destruct ev.
  - apply run_task_dialog_ok; [apply keeps_modal_onload | done].
  - unfold Script.step, Script.elapse.
    apply (dialog_ok_ext _ (run_timers marked_parse turndown
                              (length (timers s)) (clock s + d) s));
      [| by apply run_timers_dialog_ok].
    generalize (run_timers marked_parse turndown (length (timers s))
                  (clock s + d) s). by intros [].
  - apply run_task_dialog_ok; [apply keeps_modal_debounce |].
    revert H. apply dialog_ok_ext. by destruct s.
  - apply run_task_dialog_ok; [apply keeps_modal_debounce |].
    revert H. apply dialog_ok_ext. by destruct s.
  - revert H. apply dialog_ok_ext. by destruct s.
  - apply run_task_dialog_ok; [apply keeps_modal_onkeydown | done].
  - apply run_task_dialog_ok; [apply keeps_modal_execCmd | done].
  - apply run_task_dialog_ok; [apply keeps_modal_insertTextAtCursor | done].
  - apply prompt_dialog_ok.
  - apply prompt_dialog_ok.
  - unfold dialog_ok in *. simpl.
    destruct (modal_onclick s) as [[fields k] |]; [| done].
    by rewrite fill_ids.
  - destruct (button_closes true s H) as (O & C).
    unfold dialog_ok. unfold button in O, C. by rewrite C, O.
  - destruct (button_closes false s H) as (O & C).
    unfold dialog_ok. unfold button in O, C. by rewrite C, O.
  - apply run_task_dialog_ok; [apply keeps_modal_copyCode | done].
  - apply run_task_dialog_ok; [apply keeps_modal_clearAll | done].
Qed.

Lemma steps_dialog_ok evs : forall s, dialog_ok s -> dialog_ok (steps evs s).
Proof.
  induction evs as [| ev evs IH]; intros s H; [done |].
  rewrite steps_cons. apply IH. by apply step_dialog_ok.
Qed.

Lemma reachable_dialog_ok storage evs : dialog_ok (steps evs (opened storage)).
Proof. by apply steps_dialog_ok. Qed.

(** X19.  On every page the script can reach, the dialog is shown exactly
    while its two buttons have handlers; pressing either button closes it
    and removes both handlers, so that a further press of either button
    changes nothing. *)
Theorem dialog_buttons_work_once storage evs b b' :
  let s := steps evs (opened storage) in
  (modal_open s = true <-> is_Some (modal_onclick s)) /\
  modal_open (step (button b) s) = false /\
  modal_onclick (step (button b) s) = None /\
  step (button b') (step (button b) s) = step (button b) s.
Proof.
  cbv zeta. pose proof (reachable_dialog_ok storage evs) as H.
  destruct (button_closes b _ H) as (O & C).
  split; [| split; [exact O | split; [exact C |]]].
  - unfold dialog_ok in H.
    destruct (modal_onclick (steps evs (opened storage))) as [[fields k] |].
    + destruct H as (-> & _). split; [by eexists | done].
    + rewrite H. split; [done | by intros [? ?]].
  - by apply button_without_handler.
Qed.

(** ** Uncaught exceptions *)























(** ** The keyboard *)

Lemma run_task_then_ret c s : run_task (c;; ret tt) s = run_task c s.
Proof.
  unfold run_task, mbind, M_bind, bind. by destruct (c s) as [[] s1 | e s1].
Qed.

Lemma two_letters key :
  lower_is 122 key = true -> lower_is 121 key = true -> False.
Proof.
  unfold lower_is. intros H1 H2.
  apply orb_true_iff in H1 as [H1 | H1];
    apply orb_true_iff in H2 as [H2 | H2];
    apply bool_decide_eq_true in H1; apply bool_decide_eq_true in H2;
    rewrite H1 in H2; discriminate.
Qed.

Lemma run_task_ext c c' s : c s = c' s -> run_task c s = run_task c' s.
Proof. unfold run_task. by intros ->. Qed.

(** The listener after it has read [document.activeElement]. *)
Lemma onkeydown_cases ctrlKey key s :
  onkeydown document_execCommand ctrlKey key s
  = (if ctrlKey && negb (bool_decide (activeElement s = TheEditor)) then
       (if lower_is 122 key
        then execCmd document_execCommand (js "undo") None else ret tt);;
       (if lower_is 121 key
        then execCmd document_execCommand (js "redo") None else ret tt)
     else ret tt) s.
Proof. reflexivity. Qed.

Lemma keydown_cases ctrlKey key s :
  step (KeyDown ctrlKey key) s
  = if ctrlKey && negb (bool_decide (activeElement s = TheEditor)) then
      if lower_is 122 key then step (Click_execCmd (js "undo") None) s
      else if lower_is 121 key then step (Click_execCmd (js "redo") None) s
      else s
    else s.
Proof.
  unfold Script.step.
  rewrite (run_task_ext _ _ s (onkeydown_cases ctrlKey key s)).
  destruct (ctrlKey && negb (bool_decide (activeElement s = TheEditor)));
    [| done].
  destruct (lower_is 122 key) eqn:Z, (lower_is 121 key) eqn:Y.
  - destruct (two_letters key Z Y).
  - apply run_task_then_ret.
  - reflexivity.
  - reflexivity.
Qed.

(** X21.  The keyboard shortcuts: a key press does nothing while Control
    is not held or the text control has the focus; otherwise it does
    nothing, or what the undo button does, or what the redo button does,
    never both. *)
Theorem keydown_forwards_at_most_one_command ctrlKey key s :
  (step (KeyDown ctrlKey key) s = s \/
   step (KeyDown ctrlKey key) s = step (Click_execCmd (js "undo") None) s \/
   step (KeyDown ctrlKey key) s = step (Click_execCmd (js "redo") None) s) /\
  step (KeyDown false key) s = s /\
  step (KeyDown ctrlKey key) (step (FocusOn TheEditor) s)
  = step (FocusOn TheEditor) s.
Proof.
  split; [| split].
  - rewrite keydown_cases.
    destruct (ctrlKey && negb (bool_decide (activeElement s = TheEditor)));
      [| by left].
    destruct (lower_is 122 key); [right; by left |].
    destruct (lower_is 121 key); [right; by right | by left].
  - by rewrite keydown_cases.
  - rewrite keydown_cases.
    replace (activeElement (step (FocusOn TheEditor) s)) with TheEditor
      by (by destruct s).
    by destruct ctrlKey.
Qed.

(** ** Clearing while a sync is pending *)

Lemma clearAll_frame s :
  exists s',
    step (Click_clearAll true) s = s' /\
    editor_value s' = [] /\
    visual_innerHTML s' = [] /\
    timer_state s' = timer_state s /\
    timers s' = timers s /\
    clock s' = clock s /\
    calls s' = calls s.
Proof.
  eexists. split; [reflexivity |].
  change (step (Click_clearAll true) s) with (run_task (clearAll true) s).
  rewrite clearAll_eq. cbv zeta.
  pose proof (with_editor_value_timer_state [] s) as T.
  destruct (with_editor_value_frame [] s)
    as (_ & _ & _ & T1 & _ & T2 & _ & _ & _ & C).
  generalize (with_editor_value_value [] s). revert T T1 T2 C.
  generalize (with_editor_value [] s). intros s0 T T1 T2 C V.
  rewrite <- T, <- T1, <- T2, <- C. by destruct s0.
Qed.

(** X22.  [clearAll] cancels nothing: a sync requested by an edit less than
    50 ms before the page is cleared still fires afterwards, and what it
    converts is the emptied view.  On every page the script can reach the
    converter is called once more; on a page where nothing else was pending
    that call is the only one, its argument is the empty string, and the
    view the sync writes is whatever the converter returns for it. *)
Theorem clearAll_keeps_the_pending_sync storage evs f v caret d y :
  convert f [] = Some y ->
  let s := steps evs (opened storage) in
  let s' := steps [edit f v caret; Click_clearAll true; Elapse (50 + d)] s in
  conversions f s' = conversions f s + 1 /\
  (timers s = [] -> calls s' = calls s ++ [call f []] /\ target f s' = y).
Proof.
  intros Hy. cbv zeta. rewrite !steps_cons, steps_nil, step_Elapse.
  pose proof (reachable_well_formed storage evs) as W.
  destruct (edit_any f v caret _ W) as (W1 & P & C & K).
  destruct (clearAll_frame (step (edit f v caret) (steps evs (opened storage))))
    as (s2 & -> & E1 & E2 & T & T1 & T5 & C2).
  assert (W2 : well_formed s2)
    by (by apply (well_formed_ext (step (edit f v caret)
                                     (steps evs (opened storage))))).
  assert (S0 : source f s2 = []) by (by destruct f).
  split.
  - destruct (elapse_count f (50 + d) s2 W2) as (-> & _).
    rewrite due_by_pending, (pending_ext _ _ _ T1), P.
    rewrite filter_cons, filter_nil.
    rewrite decide_True by (simpl; lia).
    rewrite (conversions_ext _ _ _ C2), C. done.
  - intros Hidle.
    destruct (edit_startable f v caret (steps evs (opened storage)))
      as (Ht & _ & Hc & Hcalls & _); [by left |].
    rewrite <- T1 in Ht.
    rewrite (elapse_fire (50 + d) _ _ Ht) by (simpl; lia).
    destruct (fire_frame (mkTimer (next_timer (steps evs (opened storage)))
                            (clock (steps evs (opened storage)) + 50) f) s2)
      as (_ & _ & _ & _ & _ & F).
    destruct (fire_ok (mkTimer (next_timer (steps evs (opened storage)))
                         (clock (steps evs (opened storage)) + 50) f) s2 y)
      as (Ft & _); [simpl; by rewrite S0 |].
    simpl in F, Ft. rewrite S0, C2, Hcalls in F.
    revert F Ft.
    generalize (fire (mkTimer (next_timer (steps evs (opened storage)))
                        (clock (steps evs (opened storage)) + 50) f) s2).
    intros s3 F Ft. split.
    + rewrite <- F. by destruct s3.
    + rewrite <- Ft. by destruct s3, f.
Qed.

(** ** Files *)

(** X23.  The two downloads are snapshots of two different views.  Right
    after the text was edited, [downloadFile] saves the new text, while
    [exportToDocx] still saves the rendered view of before the edit; once
    50 ms have passed, with a renderer that does not throw, it saves the
    rendering of the text. *)
Theorem export_lags_behind_the_text storage evs v caret d :
  (forall x, is_Some (marked_parse x)) ->
  (forall x, is_Some (turndown x)) ->
  let s := steps evs (opened storage) in
  let s1 := step (EditorInput v caret) s in
  let s2 := step (Elapse (50 + d)) s1 in
  file_parts (downloadFile s1) = [v] /\
  exportToDocx s1 = exportToDocx s /\
  exists html,
    marked_parse (editor_value s2) = Some html /\
    file_parts (downloadFile s2) = [editor_value s2] /\
    file_parts (exportToDocx s2) = [BOM; export_head ++ html ++ export_tail].
Proof.
  intros Hparse Hturn. cbv zeta.
  pose proof (reachable_well_formed storage evs) as W.
  destruct (edit_then_quiet CodeToVisual v caret d _ W Hparse Hturn)
    as (Q & _).
  rewrite !steps_cons, steps_nil in Q. simpl in Q.
  revert W Q. generalize (steps evs (opened storage)). intros s W Q.
  split; [| split].
  - unfold downloadFile. cbn [file_parts]. f_equal.
    unfold Script.step, editor_oninput, syncCodeToVisual.
    destruct (debounce_frame CodeToVisual 50
                (set_editor_selectionEnd caret
                   (set_editor_selectionStart caret
                      (set_editor_value v (set_activeElement TheEditor s)))))
      as (-> & _).
    by destruct s.
  - unfold exportToDocx. do 3 f_equal.
    unfold Script.step, editor_oninput, syncCodeToVisual.
    destruct (debounce_frame CodeToVisual 50
                (set_editor_selectionEnd caret
                   (set_editor_selectionStart caret
                      (set_editor_value v (set_activeElement TheEditor s)))))
      as (_ & _ & _ & -> & _).
    by destruct s.
  - eexists. split; [exact Q |]. done.
Qed.

End Properties.

(** * Theme and direction *)

Lemma classList_toggle_elem token x l :
  x ∈ classList_toggle token l
  <-> (x ∈ l /\ x <> token) \/ (x = token /\ token ∉ l).
Proof.
  unfold classList_toggle. destruct (decide (token ∈ l)) as [H | H].
  - rewrite elem_of_difference, elem_of_singleton.
    intuition (subst; tauto).
  - rewrite elem_of_union, elem_of_singleton.
    intuition (subst; tauto).
Qed.

Lemma classList_toggle_twice token l :
  classList_toggle token (classList_toggle token l) = l.
Proof.
  apply set_eq. intros x. rewrite !classList_toggle_elem.
  destruct (decide (token ∈ l)), (decide (x = token));
    intuition (subst; tauto).
Qed.

Lemma classList_toggle_comm a b l :
  classList_toggle a (classList_toggle b l)
  = classList_toggle b (classList_toggle a l).
Proof.
  apply set_eq. intros x. rewrite !classList_toggle_elem.
  destruct (decide (a ∈ l)), (decide (b ∈ l)), (decide (x = a)),
    (decide (x = b)), (decide (a = b)); intuition (subst; tauto).
Qed.

(** X24.  The direction button undoes itself: pressed twice, it leaves the
    look of the page as it was.  The theme button does so from its second
    press on: a page whose [data-theme] attribute is absent or has another
    value gets [dark], then [light], and never goes back; the classes of
    the icon are restored by every second press. *)
Theorem toggles_undo_themselves p :
  toggleDir (toggleDir p) = p /\
  toggleTheme (toggleTheme (toggleTheme p)) = toggleTheme p /\
  themeIcon_classList (toggleTheme (toggleTheme p)) = themeIcon_classList p /\
  (data_theme (toggleTheme p) = Some (js "dark") \/
   data_theme (toggleTheme p) = Some (js "light")).
Proof.
  assert (I : forall q, themeIcon_classList (toggleTheme (toggleTheme q))
                        = themeIcon_classList q).
  { intros q. unfold toggleTheme. cbn [themeIcon_classList].
    rewrite (classList_toggle_comm (js "fa-sun") (js "fa-moon")).
    by rewrite !classList_toggle_twice. }
  split; [| split; [| split]].
  - unfold toggleDir. destruct p as [t i b].
    cbn [data_theme themeIcon_classList body_classList]. f_equal.
    rewrite (classList_toggle_comm (js "rtl-content") (js "ltr-content")).
    by rewrite !classList_toggle_twice.
  - destruct (toggleTheme p) as [t i b] eqn:E.
    assert (Ht : t = Some (js "dark") \/ t = Some (js "light")).
    { unfold toggleTheme in E. injection E as <- _ _.
      destruct (bool_decide _); [by right | by left]. }
    pose proof (I (mkLook t i b)) as I'.
    unfold toggleTheme in *.
    cbn [data_theme themeIcon_classList body_classList] in *.
    f_equal; [| exact I'].
    destruct Ht as [-> | ->]; by vm_compute.
  - apply I.
  - unfold toggleTheme. cbn [data_theme].
    destruct (bool_decide _); [by right | by left].
Qed.

(** The icon shows the sun on a dark page and the moon otherwise. *)
Definition icon_follows_theme (p : Look) : Prop :=
  (js "fa-sun" ∈ themeIcon_classList p <-> data_theme p = Some (js "dark")) /\
  (js "fa-moon" ∈ themeIcon_classList p <-> data_theme p <> Some (js "dark")).

Lemma toggleTheme_icon p :
  icon_follows_theme p -> icon_follows_theme (toggleTheme p).
Proof.
  unfold icon_follows_theme, toggleTheme.
  cbn [data_theme themeIcon_classList]. intros (Hs & Hm).
  assert (Hne : js "fa-sun" <> js "fa-moon") by (by vm_compute).
  assert (Hld : Some (js "light") <> Some (js "dark")) by (by vm_compute).
  rewrite !classList_toggle_elem.
  case_bool_decide as E; split; split; tauto || congruence.
Qed.

Lemma onload_themeIcon_icon p :
  js "fa-moon" ∈ themeIcon_classList p ->
  js "fa-sun" ∉ themeIcon_classList p ->
  icon_follows_theme (onload_themeIcon p).
Proof.
  intros Hm Hs. unfold icon_follows_theme, onload_themeIcon.
  assert (Hne : js "fa-sun" <> js "fa-moon") by (by vm_compute).
  case_bool_decide as E.
  - cbn [data_theme themeIcon_classList]. unfold classList_replace.
    rewrite decide_True by done.
    rewrite !elem_of_union, !elem_of_difference, !elem_of_singleton.
    split; split; try tauto; try congruence.
    intros [[_ H] | H]; [done | congruence].
  - tauto.
Qed.

(** X25.  On a page whose icon starts as the moon, the icon follows the
    theme: after [window.onload] and any number of presses of the theme
    button, the icon has the class [fa-sun] exactly when [data-theme] is
    [dark], and the class [fa-moon] exactly when it is not. *)
Theorem theme_icon_follows_theme p n :
  js "fa-moon" ∈ themeIcon_classList p ->
  js "fa-sun" ∉ themeIcon_classList p ->
  icon_follows_theme (Nat.iter n toggleTheme (onload_themeIcon p)).
Proof.
  intros Hm Hs. induction n as [| n IH]; simpl.
  - by apply onload_themeIcon_icon.
  - by apply toggleTheme_icon.
Qed.


(** * The properties on concrete pages *)

Lemma demo_parse_total x : is_Some (demo_parse x).
Proof. by eexists. Qed.

Lemma demo_turndown_total x : is_Some (demo_turndown x).
Proof. by eexists. Qed.

(** The demonstration pages are reached from a freshly opened page. *)
Lemma titled_page_well_formed : well_formed titled_page.
Proof. apply reachable_well_formed. Qed.

Lemma table_dialog_page_well_formed : well_formed table_dialog_page.
Proof. apply steps_well_formed, titled_page_well_formed. Qed.

(** C1 on the page where a title was just typed. *)
Lemma sync_from_markup_witness :
  let t := mkTimer 1 50 CodeToVisual in
  timer_fn t = CodeToVisual /\
  editor_value typing_page = js "# Title" /\
  demo_parse (js "# Title") = Some (js "<p># Title</p>") /\
  visual_innerHTML (fire demo_parse demo_turndown t typing_page)
    = js "<p># Title</p>" /\
  localStorage (fire demo_parse demo_turndown t typing_page) !! md_content
    = Some (js "# Title").
Proof.
  cbv zeta.
  split; [reflexivity |]. split; [reflexivity |]. split; [reflexivity |].
  destruct (sync_from_markup_renders_and_persists demo_parse demo_turndown
              (mkTimer 1 50 CodeToVisual) typing_page
              (js "# Title") (js "<p># Title</p>")
              eq_refl eq_refl eq_refl) as (V & _ & _ & L).
  split; [exact V | exact L].
Defined.

(** C2 on the page where the rendered view was just edited. *)
Lemma sync_from_tree_witness :
  let t := mkTimer 1 50 VisualToCode in
  timer_fn t = VisualToCode /\
  visual_innerHTML painting_page = js "<h1>Title</h1>" /\
  demo_turndown (js "<h1>Title</h1>") = Some (js "md:<h1>Title</h1>") /\
  editor_value (fire demo_parse demo_turndown t painting_page)
    = js "md:<h1>Title</h1>" /\
  localStorage (fire demo_parse demo_turndown t painting_page) !! md_content
    = Some (js "md:<h1>Title</h1>").
Proof.
  cbv zeta.
  split; [reflexivity |]. split; [reflexivity |]. split; [reflexivity |].
  destruct (sync_from_tree_writes_and_persists demo_parse demo_turndown
              (mkTimer 1 50 VisualToCode) painting_page
              (js "<h1>Title</h1>") (js "md:<h1>Title</h1>")
              eq_refl eq_refl eq_refl) as (E & _ & _ & L & _).
  split; [exact E | exact L].
Defined.

(** C3 on a freshly opened page: three edits of the text, 10 ms and 20 ms
    apart, then 50 ms of quiet; the only conversion is of the last text. *)
Lemma debounced_burst_witness :
  startable CodeToVisual (opened ∅) /\
  Forall (fun gap => gap < 50) [10; 20] /\
  50 <= 50 /\
  conversions CodeToVisual
    (demo_steps [EditorInput (js "a") 1;
                 Elapse 10; EditorInput (js "ab") 2;
                 Elapse 20; EditorInput (js "abc") 3;
                 Elapse 50] (opened ∅))
    = conversions CodeToVisual (opened ∅) + 1 /\
  calls (demo_steps [EditorInput (js "a") 1;
                     Elapse 10; EditorInput (js "ab") 2;
                     Elapse 20; EditorInput (js "abc") 3;
                     Elapse 50] (opened ∅))
    = [Parse (js "abc")].
Proof.
  assert (H0 : well_formed (opened ∅)) by apply opened_well_formed.
  assert (H1 : startable CodeToVisual (opened ∅)) by (by left).
  assert (H2 : Forall (fun gap => gap < 50)
                 (gaps [(10, (js "ab", 2)); (20, (js "abc", 3))]))
    by (repeat constructor; simpl; lia).
  assert (H3 : 50 <= 50) by lia.
  split; [exact H1 |]. split; [exact H2 |]. split; [exact H3 |].
  destruct (debounced_burst_converts_once demo_parse demo_turndown true
              demo_execCommand CodeToVisual (js "a") 1
              [(10, (js "ab", 2)); (20, (js "abc", 3))] 50 (opened ∅)
              H2 H3) as (A & B).
  split; [exact (A H0) | exact (proj1 (B H1))].
Defined.

(** The sync reads the text as it is when it fires, not as it was when it
    was requested: the page is cleared between the edit and the sync. *)
Example sync_reads_state_at_fire_time :
  calls (demo_steps [EditorInput (js "abc") 3; Click_clearAll true;
                     Elapse 50] (opened ∅))
    = [Parse []].
Proof. reflexivity. Qed.

(** Edits of both views inside one window: each direction converts once,
    in the order the timers are due, and the later sync reads what the
    earlier one wrote. *)
Example both_directions_fire_once :
  calls (demo_steps [EditorInput (js "a") 1; Elapse 10;
                     VisualInput (js "<i>b</i>"); Elapse 10;
                     EditorInput (js "ab") 2; Elapse 50] (opened ∅))
    = [Turndown (js "<i>b</i>"); Parse (js "md:<i>b</i>")].
Proof. reflexivity. Qed.

(** C4 on the page where a title was just typed: its one timer fires. *)
Lemma sync_schedules_no_sync_witness :
  let t := mkTimer 1 50 CodeToVisual in
  well_formed typing_page /\
  t ∈ timers typing_page /\
  timers (fire demo_parse demo_turndown t typing_page) = [] /\
  pending CodeToVisual (fire demo_parse demo_turndown t typing_page) = [] /\
  conversions CodeToVisual
    (elapse demo_parse demo_turndown 1000
       (fire demo_parse demo_turndown t typing_page))
    = conversions CodeToVisual typing_page + 1.
Proof.
  cbv zeta.
  assert (H1 : well_formed typing_page) by apply reachable_well_formed.
  assert (H2 : mkTimer 1 50 CodeToVisual ∈ timers typing_page) by left.
  destruct (sync_schedules_no_sync demo_parse demo_turndown
              (mkTimer 1 50 CodeToVisual) typing_page)
    as (T & _ & _ & _ & A).
  destruct (A H1 H2) as (P & C).
  split; [exact H1 |]. split; [exact H2 |]. split; [exact T |].
  split; [exact P | exact (C 1000)].
Defined.

(** C5 with a renderer that rejects the empty text: the sync of the empty
    page fails and leaves the page as it was; the next edit is converted. *)
Lemma failed_conversion_witness :
  let t := mkTimer 1 50 CodeToVisual in
  let s := set_visual_innerHTML (js "<p>old</p>") (opened ∅) in
  convert strict_parse demo_turndown (timer_fn t) (source (timer_fn t) s)
    = None /\
  visual_innerHTML (fire strict_parse demo_turndown t s) = js "<p>old</p>" /\
  localStorage (fire strict_parse demo_turndown t s) = ∅ /\
  reported (fire strict_parse demo_turndown t s)
    = [ConverterError CodeToVisual] /\
  conversions CodeToVisual
    (steps strict_parse demo_turndown true demo_execCommand
       [EditorInput (js "new") 3; Elapse 50]
       (fire strict_parse demo_turndown t s))
    = conversions CodeToVisual (fire strict_parse demo_turndown t s) + 1.
Proof.
  cbv zeta. split; [reflexivity |].
  assert (W : well_formed (set_visual_innerHTML (js "<p>old</p>") (opened ∅))).
  { apply (well_formed_ext (opened ∅)); [reflexivity |].
    apply opened_well_formed. }
  destruct (failed_conversion_changes_nothing strict_parse demo_turndown
              true demo_execCommand
              (mkTimer 1 50 CodeToVisual)
              (set_visual_innerHTML (js "<p>old</p>") (opened ∅)) eq_refl)
    as (_ & V & _ & L & R & _ & A).
  split; [exact V |]. split; [exact L |]. split; [exact R |].
  exact (A W CodeToVisual (js "new") 3 50 (le_n 50)).
Defined.

(** C7 on the page showing the table dialog with its default values. *)
Lemma table_3_by_2_witness :
  modal_onclick table_dialog_page = Some (table_fields, AwaitTable) /\
  modal_inputs table_dialog_page
    = [mkInput (js "rows") (js "number") (js "3");
       mkInput (js "cols") (js "number") (js "2")] /\
  well_formed table_dialog_page /\
  50 <= 50 /\
  timers table_dialog_page = [] /\
  editor_value (demo_steps [Click_modalConfirm] table_dialog_page)
    = js "# Title" ++ table_text 3 2 /\
  conversions CodeToVisual
    (demo_steps [Click_modalConfirm; Elapse 50] table_dialog_page)
    = conversions CodeToVisual table_dialog_page + 1 /\
  calls (demo_steps [Click_modalConfirm; Elapse 50] table_dialog_page)
    = calls table_dialog_page ++ [Parse (js "# Title" ++ table_text 3 2)].
Proof.
  assert (H1 : modal_onclick table_dialog_page
               = Some (table_fields, AwaitTable)) by reflexivity.
  assert (H2 : modal_inputs table_dialog_page
               = [mkInput (js "rows") (js "number") (js "3");
                  mkInput (js "cols") (js "number") (js "2")])
    by reflexivity.
  pose proof table_dialog_page_well_formed as H3.
  assert (H4 : 50 <= 50) by lia.
  assert (H5 : timers table_dialog_page = []) by reflexivity.
  split; [exact H1 |]. split; [exact H2 |]. split; [exact H3 |].
  split; [exact H4 |]. split; [exact H5 |].
  destruct (table_3_by_2_inserted_with_one_sync demo_parse demo_turndown
              true demo_execCommand table_dialog_page 50
              (js "number") (js "number") H1 H2 H3 H4)
    as (_ & V & _ & _ & N & C).
  split; [exact V |]. split; [exact N |].
  destruct (C H5) as (C' & _). rewrite V in C'. exact C'.
Defined.

(** C9 on a freshly opened page with an empty storage area. *)
Lemma load_without_stored_value_witness :
  localStorage (opened ∅) !! md_content = None /\
  timers (opened ∅) = [] /\
  50 <= 50 /\
  demo_parse default_document
    = Some (js "<p>" ++ default_document ++ js "</p>") /\
  editor_value (demo_steps [Load; Elapse 50] (opened ∅)) = default_document /\
  visual_innerHTML (demo_steps [Load; Elapse 50] (opened ∅))
    = js "<p>" ++ default_document ++ js "</p>".
Proof.
  assert (H1 : localStorage (opened ∅) !! md_content = None)
    by apply lookup_empty.
  assert (H2 : timers (opened ∅) = []) by reflexivity.
  assert (H3 : 50 <= 50) by lia.
  assert (H4 : demo_parse default_document
               = Some (js "<p>" ++ default_document ++ js "</p>"))
    by reflexivity.
  split; [exact H1 |]. split; [exact H2 |]. split; [exact H3 |].
  split; [exact H4 |].
  destruct (load_without_stored_value demo_parse demo_turndown true
              demo_execCommand (opened ∅) 50
              (js "<p>" ++ default_document ++ js "</p>")
              H1 H2 H3 H4) as (_ & E & V).
  split; [exact E | exact V].
Defined.

(** C10 on a page whose storage area holds the empty text. *)
Lemma load_with_empty_stored_value_witness :
  localStorage (opened {[md_content := []]}) !! md_content = Some [] /\
  editor_value (demo_steps [Load] (opened {[md_content := []]}))
    = default_document.
Proof.
  assert (H : localStorage (opened {[md_content := []]}) !! md_content
              = Some []) by apply lookup_singleton_eq.
  split; [exact H |].
  exact (proj1 (load_with_empty_stored_value demo_parse demo_turndown true
                  demo_execCommand _ H)).
Defined.

(** C6 as stated fails for [clearAll].  On the page with the title, cleared
    and left alone for 50 ms: no timer was started, no converter was ever
    called, and with these converters neither view is the conversion of the
    other. *)
Lemma clearAll_bypasses_sync :
  let s' := demo_steps [Click_clearAll true; Elapse 50] titled_page in
  timers titled_page = [] /\
  timers (demo_steps [Click_clearAll true] titled_page) = [] /\
  calls s' = calls titled_page /\
  editor_value s' = [] /\
  visual_innerHTML s' = [] /\
  demo_parse (editor_value s') <> Some (visual_innerHTML s') /\
  demo_turndown (visual_innerHTML s') <> Some (editor_value s').
Proof. vm_compute. by repeat split. Qed.

(** C6 as the script has it, on the page with the title: a code block is
    inserted, [bold] is applied, the page is cleared. *)
Lemma commands_and_the_sync_path_witness :
  well_formed titled_page /\
  50 <= 50 /\
  (let s' := demo_steps [Click_insertCode; Elapse 50] titled_page in
   demo_parse (editor_value s') = Some (visual_innerHTML s')) /\
  (let s' := demo_steps [Click_execCmd (js "bold") None; Elapse 50]
               titled_page in
   demo_turndown (visual_innerHTML s') = Some (editor_value s')) /\
  (let s' := demo_steps [Click_clearAll true] titled_page in
   editor_value s' = [] /\ visual_innerHTML s' = [] /\
   timers s' = timers titled_page /\ calls s' = calls titled_page).
Proof.
  pose proof titled_page_well_formed as H1.
  assert (H3 : 50 <= 50) by lia.
  destruct (commands_and_the_sync_path demo_parse demo_turndown true
              demo_execCommand titled_page 50 H1 H3
              demo_parse_total demo_turndown_total) as (A & B & C).
  split; [exact H1 |]. split; [exact H3 |]. split; [| split].
  - exact (proj2 (proj2 (A code_block 4))).
  - exact (proj2 (B (js "bold") None)).
  - destruct C as (C1 & C2 & _ & _ & C3 & _ & _ & C4).
    split; [exact C1 |]. split; [exact C2 |]. split; [exact C3 | exact C4].
Defined.

(** * The further properties on concrete pages *)

(** An edit of the text on a freshly opened page, and 49 ms of quiet. *)
Lemma edit_not_converted_before_50ms_witness :
  49 < 50 /\
  let s := steps demo_parse demo_turndown true demo_execCommand []
             (opened ∅) in
  let s1 := steps demo_parse demo_turndown true demo_execCommand
              [edit CodeToVisual (js "a") 1; Elapse 49] s in
  conversions CodeToVisual s1 = conversions CodeToVisual s /\
  pending CodeToVisual s1
    = [mkTimer (next_timer s) (clock s + 50) CodeToVisual].
Proof.
  assert (H : 49 < 50) by lia. split; [exact H |].
  exact (edit_not_converted_before_50ms demo_parse demo_turndown true
           demo_execCommand ∅ [] CodeToVisual (js "a") 1 49 H).
Defined.

(** A title typed on the loaded page, and 50 ms of quiet. *)
Lemma edit_then_quiet_witness :
  (forall x, is_Some (demo_parse x)) /\
  (forall x, is_Some (demo_turndown x)) /\
  let s' := steps demo_parse demo_turndown true demo_execCommand
              ([Load] ++ [edit CodeToVisual (js "# Title") 7;
                          Elapse (50 + 0)]) (opened ∅) in
  convert demo_parse demo_turndown CodeToVisual (source CodeToVisual s')
    = Some (target CodeToVisual s') /\
  gutter_innerHTML s' = gutter_of (editor_value s') /\
  localStorage s' !! md_content = Some (editor_value s').
Proof.
  split; [exact demo_parse_total |]. split; [exact demo_turndown_total |].
  exact (edit_then_quiet_synchronises demo_parse demo_turndown true
           demo_execCommand ∅ [Load] CodeToVisual (js "# Title") 7 0
           demo_parse_total demo_turndown_total).
Defined.

(** The rendered view edited on a fresh page, the page left alone and
    opened again. *)
Lemma reload_restores_the_text_witness :
  (forall x, is_Some (demo_parse x)) /\
  (forall x, is_Some (demo_turndown x)) /\
  let s' := steps demo_parse demo_turndown true demo_execCommand
              ([] ++ [edit VisualToCode (js "<i>b</i>") 0; Elapse (50 + 0)])
              (opened ∅) in
  editor_value (step demo_parse demo_turndown true demo_execCommand Load
                  (opened (localStorage s')))
  = str_or (editor_value s') default_document.
Proof.
  split; [exact demo_parse_total |]. split; [exact demo_turndown_total |].
  exact (reload_restores_the_text demo_parse demo_turndown true
           demo_execCommand ∅ [] VisualToCode (js "<i>b</i>") 0 0
           demo_parse_total demo_turndown_total).
Defined.

(** The two branches of [insertTextAtCursor] on the page where a title was
    just typed. *)
Lemma insertText_fallback_witness :
  editor_selectionStart typing_page <= editor_selectionEnd typing_page /\
  editor_selectionEnd typing_page <= length (editor_value typing_page) /\
  (Z.of_nat (length (editor_value typing_page) + length (js "x"))
   < 4294967296)%Z /\
  run_task (insertTextAtCursor false (js "x") 0) typing_page
  = run_task (insertTextAtCursor true (js "x") 0) typing_page.
Proof.
  assert (H1 : editor_selectionStart typing_page
               <= editor_selectionEnd typing_page) by (vm_compute; lia).
  assert (H2 : editor_selectionEnd typing_page
               <= length (editor_value typing_page)) by (vm_compute; lia).
  assert (H3 : (Z.of_nat (length (editor_value typing_page)
                          + length (js "x")) < 4294967296)%Z)
    by (by vm_compute).
  split; [exact H1 |]. split; [exact H2 |]. split; [exact H3 |].
  exact (insertText_fallback_agrees (js "x") 0 typing_page H1 H2 H3).
Defined.

(** The code block inserted after the title, in a browser without
    [insertText]: the cursor ends four code units before the end of the
    block. *)
Lemma insertTextAtCursor_places_cursor_witness :
  editor_selectionStart typing_page <= editor_selectionEnd typing_page /\
  editor_selectionEnd typing_page <= length (editor_value typing_page) /\
  (Z.of_nat (length (editor_value typing_page) + length code_block)
   < 4294967296)%Z /\
  4 <= editor_selectionStart typing_page + length code_block /\
  let s1 := run_task (insertTextAtCursor false code_block 4) typing_page in
  editor_value s1 = spliced code_block typing_page /\
  editor_selectionStart s1
    = editor_selectionStart typing_page + length code_block - 4 /\
  editor_selectionEnd s1
    = editor_selectionStart typing_page + length code_block - 4 /\
  activeElement s1 = TheEditor.
Proof.
  assert (H1 : editor_selectionStart typing_page
               <= editor_selectionEnd typing_page) by (vm_compute; lia).
  assert (H2 : editor_selectionEnd typing_page
               <= length (editor_value typing_page)) by (vm_compute; lia).
  assert (H3 : (Z.of_nat (length (editor_value typing_page)
                          + length code_block) < 4294967296)%Z)
    by (by vm_compute).
  assert (H4 : 4 <= editor_selectionStart typing_page + length code_block)
    by (vm_compute; lia).
  split; [exact H1 |]. split; [exact H2 |]. split; [exact H3 |].
  split; [exact H4 |].
  exact (insertTextAtCursor_places_cursor false code_block 4 typing_page
           H1 H2 H3 H4).
Defined.


(** The table of 3 rows and 2 columns. *)
Lemma table_is_rectangular_witness :
  1 <= 2 /\
  split_on LF (table_text 3 2)
  = [] :: row_line (header_cells 2)
       :: row_line (replicate 2 (js "---"))
       :: replicate (3 - 1) (row_line (replicate 2 (js "נתונים")))
       ++ [[]; []] /\
  bars (row_line (header_cells 2)) = 2 + 1.
Proof.
  assert (H : 1 <= 2) by lia. split; [exact H |].
  destruct (table_is_rectangular 3 2 H) as (A & B & _).
  split; [exact A | exact B].
Defined.

(** [4294967296] columns asked for on a freshly opened page. *)
Lemma oversized_table_witness :
  parseInt (js "4294967296") = Some 4294967296%Z /\
  (4294967295 < 4294967296)%Z /\
  let s2 := steps demo_parse demo_turndown true demo_execCommand
              [Click_insertMarkdownTable;
               ModalInput (js "rows") (js "3");
               ModalInput (js "cols") (js "4294967296");
               Click_modalConfirm] (opened ∅) in
  editor_value s2 = editor_value (opened ∅) /\
  visual_innerHTML s2 = visual_innerHTML (opened ∅) /\
  timers s2 = timers (opened ∅) /\
  calls s2 = calls (opened ∅) /\
  reported s2 = reported (opened ∅) ++ [RangeError] /\
  modal_open s2 = false /\
  modal_onclick s2 = None.
Proof.
  assert (H1 : parseInt (js "4294967296") = Some 4294967296%Z)
    by reflexivity.
  assert (H2 : (4294967295 < 4294967296)%Z) by lia.
  split; [exact H1 |]. split; [exact H2 |].
  exact (oversized_table_is_refused demo_parse demo_turndown true
           demo_execCommand (js "3") (js "4294967296") 4294967296%Z
           (opened ∅) H1 H2).
Defined.

(** A text typed and the page cleared within 50 ms, on a fresh page: the
    renderer is still called, on the empty text. *)
Lemma clearAll_keeps_the_pending_sync_witness :
  convert demo_parse demo_turndown CodeToVisual [] = Some (js "<p></p>") /\
  let s := steps demo_parse demo_turndown true demo_execCommand []
             (opened ∅) in
  let s' := steps demo_parse demo_turndown true demo_execCommand
              [edit CodeToVisual (js "abc") 3; Click_clearAll true;
               Elapse (50 + 0)] s in
  timers s = [] /\
  conversions CodeToVisual s' = conversions CodeToVisual s + 1 /\
  calls s' = calls s ++ [call CodeToVisual []] /\
  target CodeToVisual s' = js "<p></p>".
Proof.
  assert (H1 : convert demo_parse demo_turndown CodeToVisual []
               = Some (js "<p></p>")) by reflexivity.
  split; [exact H1 |]. cbv zeta.
  assert (H2 : timers (steps demo_parse demo_turndown true demo_execCommand
                         [] (opened ∅)) = []) by reflexivity.
  split; [exact H2 |].
  destruct (clearAll_keeps_the_pending_sync demo_parse demo_turndown true
              demo_execCommand ∅ [] CodeToVisual (js "abc") 3 0
              (js "<p></p>") H1) as (A & B).
  split; [exact A | exact (B H2)].
Defined.

(** The title typed on the loaded page: the two downloads before the sync
    and after it. *)
Lemma export_lags_behind_the_text_witness :
  (forall x, is_Some (demo_parse x)) /\
  (forall x, is_Some (demo_turndown x)) /\
  let s := steps demo_parse demo_turndown true demo_execCommand
             [Load; Elapse 50] (opened ∅) in
  let s1 := step demo_parse demo_turndown true demo_execCommand
              (EditorInput (js "# Title") 7) s in
  file_parts (downloadFile s1) = [js "# Title"] /\
  exportToDocx s1 = exportToDocx s.
Proof.
  split; [exact demo_parse_total |]. split; [exact demo_turndown_total |].
  destruct (export_lags_behind_the_text demo_parse demo_turndown true
              demo_execCommand ∅ [Load; Elapse 50] (js "# Title") 7 0
              demo_parse_total demo_turndown_total) as (A & B & _).
  split; [exact A | exact B].
Defined.

(** A page without a theme attribute whose icon is the moon, after three
    presses of the theme button. *)
Lemma theme_icon_follows_theme_witness :
  let p := mkLook None {[js "fa-moon"]} ∅ in
  (js "fa-moon" ∈ themeIcon_classList p) /\
  (js "fa-sun" ∉ themeIcon_classList p) /\
  icon_follows_theme (Nat.iter 3 toggleTheme (onload_themeIcon p)).
Proof.
  cbv zeta.
  assert (H1 : js "fa-moon"
               ∈ themeIcon_classList (mkLook None {[js "fa-moon"]} ∅))
    by (cbn [themeIcon_classList]; by apply elem_of_singleton).
  assert (H2 : js "fa-sun"
               ∉ themeIcon_classList (mkLook None {[js "fa-moon"]} ∅))
    by (cbn [themeIcon_classList]; intros H;
        apply elem_of_singleton in H; discriminate H).
  split; [exact H1 |]. split; [exact H2 |].
  exact (theme_icon_follows_theme (mkLook None {[js "fa-moon"]} ∅) 3 H1 H2).
Defined.


